(** * download_sensor_data.py: resumable BLE transfer of BME280 samples

    A shallow embedding of the protocol engine of [download_sensor_data.py]:
    the packet codec ([parse_uint16_be], [parse_sensor_record], ...), the
    SQLite-backed [SensorDatabase], the [notification_handler] closure and the
    polling loop of [download_data].

    Conventions.
    - [bytes] values are lists of [byte]; [data[i]] is [byte_at data i].
    - Python [int] is [Z]; Python [float] is IEEE binary64, i.e. [PrimFloat.float].
    - The two SQLite tables are lists of rows; the statements the program
      issues ([INSERT OR IGNORE], [INSERT OR REPLACE], [SELECT ... WHERE mac])
      are functions on them.
    - The asynchronous session is driven by an explicit trace of events: a
      notification delivered to the handler, or the polling loop waking up
      from [asyncio.sleep(0.1)] and reading the loop clock.
    - Integers bound to SQL parameters are taken to fit SQLite's 64-bit
      INTEGER, as the sequence numbers and millisecond clocks of a session do.
    - Transport calls (subscribe, write, unsubscribe) are taken to succeed;
      the status read may fail. Console output is kept only where it carries
      a decoded value. *)

From Stdlib Require Import String ZArith List Lia Bool.
From Stdlib.Strings Require Import Byte.
From Stdlib Require Import Floats Uint63.
Import ListNotations.
Open Scope Z_scope.

(** ** Python primitives *)

Module Py.

Definition bytes := list byte.

(** Value of one byte, as an [int] in 0..255. *)
Definition b2z (b : byte) : Z := Z.of_N (Byte.to_N b).

(** [data[i]]; every use in the program is guarded by a length test, so the
    default is never returned. *)
Definition byte_at (data : bytes) (i : nat) : Z := b2z (nth i data x00).

(** [bytes([v])] for [v] already masked to 0..255. *)
Definition z2b (v : Z) : byte :=
  match Byte.of_N (Z.to_N v) with Some b => b | None => x00 end.

(** [float(z)], exact for the magnitudes that occur here (below 2^53). *)
Definition float_of_Z (z : Z) : float :=
  if z <? 0 then PrimFloat.opp (PrimFloat.of_uint63 (Uint63.of_Z (- z)))
  else PrimFloat.of_uint63 (Uint63.of_Z z).

(** [int(x)] on a float: truncation toward zero; raises on infinities and
    NaN, which is [None] here. *)
Definition int_of_float (x : float) : option Z :=
  match Prim2SF x with
  | S754_zero _ => Some 0
  | S754_finite s m e =>
      let v := if 0 <=? e then Z.pos m * 2 ^ e else Z.pos m / 2 ^ (- e) in
      Some (if s then - v else v)
  | S754_infinity _ => None
  | S754_nan => None
  end.

End Py.
Import Py.

(** ** Constants *)

Definition CMD_START_TRANSFER : Z := 1.
Definition CMD_STOP_TRANSFER : Z := 2.
Definition CMD_GET_STATUS : Z := 3.
Definition CMD_SET_LAST_SENT : Z := 4.

Definition PACKET_TYPE_HEADER : Z := 0.
Definition PACKET_TYPE_DATA : Z := 1.
Definition PACKET_TYPE_END : Z := 2.

(** ** Packet codec *)

(** [parse_uint16_be(data, offset)] *)
Definition parse_uint16_be (data : bytes) (offset : nat) : option Z :=
  if (length data <? offset + 2)%nat then None
  else Some (Z.lor (Z.shiftl (byte_at data offset) 8) (byte_at data (offset + 1))).

(** [encode_uint16_be(value)] *)
Definition encode_uint16_be (value : Z) : bytes :=
  [z2b (Z.land (Z.shiftr value 8) 255); z2b (Z.land value 255)].

Record Status := mkStatus { total : Z; last_sent : Z }.

(** [parse_status(data)]. With four bytes present both fields parse, so the
    last branch is not reachable. *)
Definition parse_status (data : bytes) : option Status :=
  if (length data <? 4)%nat then None
  else match parse_uint16_be data 0, parse_uint16_be data 2 with
       | Some t, Some l => Some (mkStatus t l)
       | _, _ => None
       end.

(** [struct.unpack('>h', data[offset:offset+2])[0]]: two's-complement
    big-endian 16-bit integer. *)
Definition unpack_int16_be (data : bytes) (offset : nat) : Z :=
  let u := byte_at data offset * 256 + byte_at data (offset + 1) in
  if 32768 <=? u then u - 65536 else u.

(** The dictionary built by [parse_sensor_record]. *)
Record RawRecord := mkRaw {
  raw_temp_c : float;
  raw_press_kpa : Z;
  raw_humidity_pct : Z;
  raw_battery_v : float;
  temp_raw : Z;
  press_raw : Z;
  hum_raw : Z;
  bat_raw : Z
}.

(** [parse_sensor_record(data, offset)]. Past the length guard
    [parse_uint16_be] cannot return [None]. *)
Definition parse_sensor_record (data : bytes) (offset : nat) : option RawRecord :=
  if (length data <? offset + 6)%nat then None
  else
    let temp_x10 := unpack_int16_be data offset in
    match parse_uint16_be data (offset + 2) with
    | None => None
    | Some press_kpa =>
        let hum_pct := byte_at data (offset + 4) in
        let bat_v_x10 := byte_at data (offset + 5) in
        Some {| raw_temp_c := PrimFloat.div (float_of_Z temp_x10) 10%float;
                raw_press_kpa := press_kpa;
                raw_humidity_pct := hum_pct;
                raw_battery_v := PrimFloat.div (float_of_Z bat_v_x10) 10%float;
                temp_raw := temp_x10;
                press_raw := press_kpa;
                hum_raw := hum_pct;
                bat_raw := bat_v_x10 |}
    end.

(** A parsed record once the handler has added ['seq'] and ['timestamp_ms']. *)
Record SensorRecord := mkRecord {
  seq : Z;
  timestamp_ms : Z;
  temp_c : float;
  press_kpa : Z;
  humidity_pct : Z;
  battery_v : float;
  fields : RawRecord
}.

Definition add_seq_ts (raw : RawRecord) (s ts : Z) : SensorRecord :=
  {| seq := s; timestamp_ms := ts;
     temp_c := raw_temp_c raw; press_kpa := raw_press_kpa raw;
     humidity_pct := raw_humidity_pct raw; battery_v := raw_battery_v raw;
     fields := raw |}.

(** ** SensorDatabase *)

Module SensorDatabase.

(** Table [records]; [UNIQUE(mac, seq)]. *)
Record Row := mkRow {
  id : Z;
  mac : string;
  r_seq : Z;
  sample_ts_ms : Z;
  rssi : Z;
  temp_x100 : Z;
  press_pa10 : Z;
  hum_x100 : Z;
  battery_mv : Z;
  imported_at_ms : Z
}.

(** Table [sync_state]; [mac] is the primary key. *)
Record SyncRow := mkSync {
  s_mac : string;
  s_last_synced_seq : Z;
  s_last_sync_time : Z;
  s_total_synced : Z
}.

Record DB := mkDB {
  records : list Row;
  last_id : Z;              (* AUTOINCREMENT counter of [records] *)
  sync_state : list SyncRow
}.

(** The dictionary returned by [get_sync_state]. *)
Record SyncState := mkState {
  last_synced_seq : Z;
  last_sync_time : Z;
  total_synced : Z
}.

Definition has_key (m : string) (s : Z) (r : Row) : bool :=
  String.eqb (mac r) m && (r_seq r =? s).

(** [get_sync_state(mac)] *)
Definition get_sync_state (db : DB) (m : string) : SyncState :=
  match find (fun r => String.eqb (s_mac r) m) (sync_state db) with
  | Some row => mkState (s_last_synced_seq row) (s_last_sync_time row) (s_total_synced row)
  | None => mkState (-1) 0 0
  end.

(** [update_sync_state(mac, last_synced_seq, imported_count)]; [now] is the
    wall clock in milliseconds. [INSERT OR REPLACE] removes the row holding
    the primary key, if any, and inserts the new one. *)
Definition update_sync_state (db : DB) (m : string) (new_seq imported_count now : Z) : DB :=
  let old_total :=
    match find (fun r => String.eqb (s_mac r) m) (sync_state db) with
    | Some row => s_total_synced row
    | None => 0
    end in
  {| records := records db;
     last_id := last_id db;
     sync_state :=
       filter (fun r => negb (String.eqb (s_mac r) m)) (sync_state db)
       ++ [mkSync m new_seq now (old_total + imported_count)] |}.

(** An open connection: the database and [conn.total_changes], the number
    of rows changed since the connection was opened. *)
Record Conn := mkConn { cdb : DB; total_changes : Z }.

Definition connect (db : DB) : Conn := mkConn db 0.

(** [INSERT OR IGNORE INTO records (...) VALUES (...)]: a row whose
    [(mac, seq)] is already present is ignored; no row changes and
    [total_changes] stays, but the [id] SQLite allocated for the statement
    before it met the conflict is used up, so the AUTOINCREMENT counter
    advances all the same. *)
Definition insert_or_ignore (c : Conn) (m : string) (s ts rs t p h b now : Z) : Conn :=
  let db := cdb c in
  if existsb (has_key m s) (records db) then
    {| cdb := {| records := records db;
                 last_id := last_id db + 1;
                 sync_state := sync_state db |};
       total_changes := total_changes c |}
  else
    {| cdb := {| records := records db ++ [mkRow (last_id db + 1) m s ts rs t p h b now];
                 last_id := last_id db + 1;
                 sync_state := sync_state db |};
       total_changes := total_changes c + 1 |}.

(** The body of the [try] in [insert_records] for one record; [None] is the
    [except] branch ([int()] of a non-finite float raises). *)
Definition insert_one (c : Conn) (m : string) (rs now : Z) (record : SensorRecord)
  : option Conn :=
  match int_of_float (PrimFloat.mul (temp_c record) 100%float),
        int_of_float (PrimFloat.mul (battery_v record) 1000%float) with
  | Some t, Some b =>
      Some (insert_or_ignore c m (seq record) (timestamp_ms record) rs
              t (press_kpa record * 100) (humidity_pct record * 100) b now)
  | _, _ => None
  end.

(** The [for record in records] loop, carrying the connection and the
    [inserted] counter. *)
Fixpoint insert_loop (c : Conn) (inserted : Z) (m : string) (rs now : Z)
  (recs : list SensorRecord) : Conn * Z :=
  match recs with
  | [] => (c, inserted)
  | record :: rest =>
      match insert_one c m rs now record with
      | Some c' =>
          insert_loop c' (if total_changes c' >? 0 then inserted + 1 else inserted)
            m rs now rest
      | None => insert_loop c inserted m rs now rest
      end
  end.

(** [insert_records(mac, records, rssi)]: the returned count and the
    database after [conn.commit()]. *)
Definition insert_records (db : DB) (m : string) (recs : list SensorRecord) (rs now : Z)
  : Z * DB :=
  match recs with
  | [] => (0, db)
  | _ => let '(c, inserted) := insert_loop (connect db) 0 m rs now recs in
         (inserted, cdb c)
  end.

End SensorDatabase.
Import SensorDatabase.

(** ** Transfer session *)

(** The module-level [transfer_stats] dictionary. *)
Record Stats := mkStats {
  header_received : bool;
  total_records : Z;
  data_packets : Z;
  end_received : bool;
  interval_sec : option Z
}.

(** The two messages of [notification_handler] that show a decoded value:
    ["HEADER received: interval=..."] and ["END received: total_sent=..."]
    ([None] prints as Python's [None]). *)
Inductive Msg :=
| HeaderReceived (interval : option Z)
| EndReceived (total_sent : option Z).

(** What the handler closure reads and writes: the two [nonlocal] variables of
    [download_data], the two globals, and the console. *)
Record Session := mkSession {
  transfer_complete : bool;
  last_packet_time : float;
  transfer_stats : Stats;
  received_records : list SensorRecord;
  printed : list Msg
}.

(** One call of the handler by the transport: the loop clock and the wall
    clock (milliseconds, read once per decoded record) at that moment, and
    the payload. *)
Record Frame := mkFrame {
  f_now : float;
  f_wall : nat -> Z;
  f_data : bytes
}.

(** The [for i in range(count)] loop of the DATA branch: [n] iterations
    remain, [i] is the loop variable, [offset] the read position. The result
    is what the loop appends to [received_records]. *)
Fixpoint parse_records (data : bytes) (start_seq : Z) (wall : nat -> Z) (count : Z)
  (n i offset : nat) : list SensorRecord :=
  match n with
  | O => []
  | S n' =>
      match parse_sensor_record data offset with
      | Some record =>
          add_seq_ts record (start_seq + Z.of_nat i)
            (wall i - (count - 1 - Z.of_nat i) * 30000)
          :: parse_records data start_seq wall count n' (S i) (offset + 6)
      | None => []
      end
  end.

(** [notification_handler(sender, data)], closed over [start_seq]. *)
Definition notification_handler (start_seq : Z) (s : Session) (f : Frame) : Session :=
  let data := f_data f in
  if (length data =? 0)%nat then s
  else
    let tc := transfer_complete s in
    let lpt := f_now f in
    let st := transfer_stats s in
    let recs := received_records s in
    let out := printed s in
    let packet_type := byte_at data 0 in
    if packet_type =? PACKET_TYPE_HEADER then
      if (3 <=? length data)%nat then
        let interval := parse_uint16_be data 1 in
        mkSession tc lpt
          (mkStats true (total_records st) (data_packets st) (end_received st) interval)
          recs (out ++ [HeaderReceived interval])
      else mkSession tc lpt st recs out
    else if packet_type =? PACKET_TYPE_DATA then
      if (5 <=? length data)%nat then
        let count := byte_at data 3 in
        mkSession tc lpt
          (mkStats (header_received st) (total_records st + count) (data_packets st + 1)
             (end_received st) (interval_sec st))
          (recs ++ parse_records data start_seq (f_wall f) count (Z.to_nat count) 0 5)
          out
      else mkSession tc lpt st recs out
    else if packet_type =? PACKET_TYPE_END then
      if (2 <=? length data)%nat then
        let total_sent := parse_uint16_be data 1 in
        mkSession true lpt
          (mkStats (header_received st) (total_records st) (data_packets st) true
             (interval_sec st))
          recs (out ++ [EndReceived total_sent])
      else mkSession tc lpt st recs out
    else mkSession tc lpt st recs out.

Definition deliver (start_seq : Z) (s : Session) (frames : list Frame) : Session :=
  fold_left (notification_handler start_seq) frames s.

(** What the session observes while it waits. *)
Inductive Event :=
| Notify (f : Frame)      (* the transport calls the handler *)
| Wake (now : float).     (* [asyncio.sleep(0.1)] returns; the loop reads the clock *)

Definition timeout : float := 20%float.
Definition idle_timeout : float := 3%float.

(** The three [break]s of the [while True] loop, in program order. *)
Inductive LoopExit :=
| ExitComplete    (* [if transfer_complete: break] *)
| ExitIdle        (* no packets for [idle_timeout] seconds *)
| ExitTimeout.    (* hard timeout; STOP is written *)

Inductive LoopResult :=
| Waiting (s : Session)                                  (* trace used up, still looping *)
| Exited (e : LoopExit) (s : Session) (rest : list Event).

(** One iteration of the loop body after the sleep. *)
Definition poll (start_time now : float) (s : Session) : option (LoopExit * Session) :=
  if transfer_complete s then Some (ExitComplete, s)
  else if PrimFloat.ltb idle_timeout (PrimFloat.sub now (last_packet_time s))
          && (0 <? data_packets (transfer_stats s))
  then Some (ExitIdle,
             mkSession true (last_packet_time s) (transfer_stats s)
               (received_records s) (printed s))
  else if PrimFloat.ltb timeout (PrimFloat.sub now start_time)
  then Some (ExitTimeout, s)
  else None.

(** The [while True] loop interleaved with the handler calls. *)
Fixpoint wait_loop (start_seq : Z) (start_time : float) (evs : list Event) (s : Session)
  : LoopResult :=
  match evs with
  | [] => Waiting s
  | Notify f :: evs' =>
      wait_loop start_seq start_time evs' (notification_handler start_seq s f)
  | Wake now :: evs' =>
      match poll start_time now s with
      | Some (e, s') => Exited e s' evs'
      | None => wait_loop start_seq start_time evs' s
      end
  end.

(** Lines 387-390: the resume point, as [(start_index, records_to_download)]. *)
Definition resume_point (sync : SyncState) (device_total : Z) : Z * Z :=
  let app_last_synced := Z.max (last_synced_seq sync) (-1) in
  let start_index := app_last_synced + 1 in
  (start_index, device_total - start_index).

(** [max(received_records, key=lambda r: r['seq'])]: the first record among
    those with the largest [seq]. *)
Fixpoint max_by_seq (best : SensorRecord) (rest : list SensorRecord) : SensorRecord :=
  match rest with
  | [] => best
  | r :: rest' => max_by_seq (if seq best <? seq r then r else best) rest'
  end.

(** Everything [download_data] takes from outside. *)
Record Env := mkEnv {
  device_address : string;
  chars_found : bool;             (* control and data-transfer characteristics both found *)
  status_reply : option bytes;    (* payload of the first status read; [None] if it fails *)
  subscribe_time : float;         (* loop clock at line 402 *)
  early_frames : list Frame;      (* delivered between subscription and line 468 *)
  start_time : float;             (* loop clock at line 468 *)
  events : list Event;            (* during the loop *)
  late_frames : list Frame;       (* delivered while [stop_notify] is pending *)
  insert_now : Z;                 (* wall clock read by [insert_records] *)
  update_now : Z                  (* wall clock read by [update_sync_state] *)
}.

(** [get_storage_status(client)] *)
Definition get_storage_status (env : Env) : option Status :=
  match status_reply env with
  | Some data => parse_status data
  | None => None
  end.

(** Where [download_data] stopped. *)
Inductive Terminal :=
| CharacteristicsMissing
| StatusUnreadable
| AlreadySynced
| StillWaiting
| Finished (e : LoopExit).

Record Outcome := mkOutcome {
  result : option bool;           (* the returned value; [None] while waiting *)
  terminal : Terminal;
  db_after : DB;
  control_writes : list bytes;    (* writes to the control characteristic, in order *)
  session : option Session;       (* the accumulators when the function returns *)
  saved : option Z                (* [inserted], as printed after the commit *)
}.

Definition initial_stats : Stats := mkStats false 0 0 false (Some 0).

Definition start_cmd (start_index : Z) : bytes :=
  z2b CMD_START_TRANSFER :: encode_uint16_be start_index.

Definition stop_cmd : bytes := [z2b CMD_STOP_TRANSFER].

(** Lines 503-510 and 544: store what was received and advance the sync state. *)
Definition store_received (db : DB) (m : string) (recs : list SensorRecord) (now1 now2 : Z)
  : option Z * DB :=
  match recs with
  | [] => (None, db)
  | r0 :: rest =>
      let '(inserted, db1) := insert_records db m recs (-50) now1 in
      let last_record := max_by_seq r0 rest in
      let new_last_synced := seq last_record in
      (Some inserted,
       update_sync_state db1 m new_last_synced (Z.of_nat (length recs)) now2)
  end.

(** The session when the polling loop is entered: the handler has been
    subscribed at line 456 and may have run before the clock is read at line
    468; line 469 then overwrites [last_packet_time]. *)
Definition session_at_loop_entry (env : Env) (start_seq : Z) : Session :=
  let s0 := mkSession false (subscribe_time env) initial_stats [] [] in
  let s1 := deliver start_seq s0 (early_frames env) in
  mkSession (transfer_complete s1) (start_time env) (transfer_stats s1)
    (received_records s1) (printed s1).

(** [download_data(client)] *)
Definition download_data (env : Env) (db : DB) : Outcome :=
  if negb (chars_found env) then
    mkOutcome (Some false) CharacteristicsMissing db [] None None
  else
    match get_storage_status env with
    | None => mkOutcome (Some false) StatusUnreadable db [] None None
    | Some initial_status =>
        let device_total := total initial_status in
        let sync := get_sync_state db (device_address env) in
        let '(start_index, records_to_download) := resume_point sync device_total in
        if records_to_download <=? 0 then
          mkOutcome (Some true) AlreadySynced db [] None None
        else
          let start_seq := start_index in
          let s2 := session_at_loop_entry env start_seq in
          match wait_loop start_seq (start_time env) (events env) s2 with
          | Waiting s => mkOutcome None StillWaiting db [start_cmd start_index] (Some s) None
          | Exited e s3 _ =>
              let writes :=
                match e with
                | ExitTimeout => [start_cmd start_index; stop_cmd]
                | _ => [start_cmd start_index]
                end in
              let s4 := deliver start_seq s3 (late_frames env) in
              let recs := received_records s4 in
              let '(inserted, db') :=
                store_received db (device_address env) recs (insert_now env) (update_now env) in
              mkOutcome (Some (0 <? Z.of_nat (length recs))%Z) (Finished e) db' writes
                (Some s4) inserted
          end
    end.

(** The terminal state of the spec's state machine reached by each exit. *)
Inductive SessionState := Complete | HardTimeout.

Definition state_of_exit (e : LoopExit) : SessionState :=
  match e with
  | ExitComplete | ExitIdle => Complete
  | ExitTimeout => HardTimeout
  end.

(** ** The specification's vocabulary *)

(** [bytes[a:b]] *)
Definition slice (data : bytes) (a b : nat) : bytes := firstn (b - a) (skipn a data).

(** Big-endian unsigned reading of a byte string. *)
Definition be_u16 (bs : bytes) : Z := fold_left (fun acc b => acc * 256 + b2z b) bs 0.

(** Big-endian signed (two's complement, 16 bits) reading of a byte string. *)
Definition be_i16 (bs : bytes) : Z := (be_u16 bs + 2 ^ 15) mod 2 ^ 16 - 2 ^ 15.

(** The [k]-th 6-byte raw record of a DATA frame. *)
Definition raw_record (data : bytes) (k : nat) : bytes := slice data (5 + 6 * k) (5 + 6 * k + 6).

Fixpoint strictly_increasing (l : list Z) : bool :=
  match l with
  | a :: (b :: _) as rest => (a <? b) && strictly_increasing rest
  | _ => true
  end.

(** Number of stored records of one [(device, seq)] key. *)
Definition count_key (m : string) (s : Z) (rows : list Row) : nat :=
  length (filter (has_key m s) rows).

(** The table constraint [UNIQUE(mac, seq)]. *)
Definition unique_keys (rows : list Row) : Prop :=
  forall m s, (count_key m s rows <= 1)%nat.

(** The record passes the conversions of [insert_records] without raising. *)
Definition storable (r : SensorRecord) : bool :=
  match int_of_float (PrimFloat.mul (temp_c r) 100%float),
        int_of_float (PrimFloat.mul (battery_v r) 1000%float) with
  | Some _, Some _ => true
  | _, _ => false
  end.

(** The record is one the decoder produces: its float fields are the tenths
    of a signed 16-bit and of an 8-bit raw value. *)
Definition from_wire (r : SensorRecord) : Prop :=
  -32768 <= temp_raw (fields r) < 32768 /\
  temp_c r = PrimFloat.div (float_of_Z (temp_raw (fields r))) 10%float /\
  0 <= bat_raw (fields r) < 256 /\
  battery_v r = PrimFloat.div (float_of_Z (bat_raw (fields r))) 10%float.

Definition temp_converts (z : Z) : bool :=
  match int_of_float (PrimFloat.mul (PrimFloat.div (float_of_Z z) 10%float) 100%float) with
  | Some _ => true
  | None => false
  end.

Definition battery_converts (z : Z) : bool :=
  match int_of_float (PrimFloat.mul (PrimFloat.div (float_of_Z z) 10%float) 1000%float) with
  | Some _ => true
  | None => false
  end.

(** [p] holds on [lo, lo+1, ..., lo+n-1]. *)
Fixpoint all_from (p : Z -> bool) (n : nat) (lo : Z) : bool :=
  match n with
  | O => true
  | S n' => p lo && all_from p n' (lo + 1)
  end.

(** The frame counter accounts for the records: it is never negative, and it
    is positive as soon as a record has been received. *)
Definition counted (s : Session) : Prop :=
  0 <= data_packets (transfer_stats s) /\
  (received_records s <> [] -> 0 < data_packets (transfer_stats s)).

(** Every record of the session is numbered from [start_seq] on and comes
    from the wire. *)
Definition decoded_from (start_seq : Z) (s : Session) : Prop :=
  Forall (fun r => start_seq <= seq r /\ from_wire r) (received_records s).

(** A frame that sets [transfer_complete]: an END frame of two bytes or more. *)
Definition completes (data : bytes) : bool :=
  negb (length data =? 0)%nat && (byte_at data 0 =? PACKET_TYPE_END) && (2 <=? length data)%nat.

Definition no_completion (evs : list Event) : bool :=
  forallb (fun e => match e with Notify f => negb (completes (f_data f)) | Wake _ => true end) evs.

(** Along the trace, every wake-up of the loop finds the latest non-empty
    frame (or the reference point [t], before any) at most [idle_timeout]
    seconds old. *)
Fixpoint kept_alive (t : float) (evs : list Event) : bool :=
  match evs with
  | [] => true
  | Notify f :: evs' => kept_alive (if (length (f_data f) =? 0)%nat then t else f_now f) evs'
  | Wake now :: evs' =>
      negb (PrimFloat.ltb idle_timeout (PrimFloat.sub now t)) && kept_alive t evs'
  end.

(** Some wake-up of the trace is later than the hard timeout. *)
Definition past_timeout (start_time : float) (evs : list Event) : bool :=
  existsb (fun e => match e with
                    | Wake now => PrimFloat.ltb timeout (PrimFloat.sub now start_time)
                    | Notify _ => false
                    end) evs.

(** ** Reading the store back *)

(** One dictionary of the list returned by [get_all_records]. *)
Record StoredRecord := mkStored {
  st_seq : Z;
  st_timestamp_ms : Z;
  st_rssi : Z;
  st_temp_c : float;
  st_press_kpa : float;
  st_humidity_pct : float;
  st_battery_v : float
}.

(** [ORDER BY seq ASC]: insertion into a list ordered by [seq]. Rows with
    equal [seq], which [UNIQUE(mac, seq)] excludes within one device, keep
    table order. *)
Fixpoint insert_by_seq (r : Row) (sorted : list Row) : list Row :=
  match sorted with
  | [] => [r]
  | x :: rest => if r_seq r <=? r_seq x then r :: sorted else x :: insert_by_seq r rest
  end.

Definition order_by_seq (rows : list Row) : list Row := fold_right insert_by_seq [] rows.

(** The dictionary built from one selected row. *)
Definition row_to_dict (r : Row) : StoredRecord :=
  {| st_seq := r_seq r;
     st_timestamp_ms := sample_ts_ms r;
     st_rssi := rssi r;
     st_temp_c := PrimFloat.div (float_of_Z (temp_x100 r)) 100%float;
     st_press_kpa := PrimFloat.div (float_of_Z (press_pa10 r)) 100%float;
     st_humidity_pct := PrimFloat.div (float_of_Z (hum_x100 r)) 100%float;
     st_battery_v := PrimFloat.div (float_of_Z (battery_mv r)) 1000%float |}.

(** [get_all_records(mac)] *)
Definition get_all_records (db : DB) (m : string) : list StoredRecord :=
  map row_to_dict (order_by_seq (filter (fun r => String.eqb (mac r) m) (records db))).

(** ** Further vocabulary *)

(** A DATA frame long enough to enter the record loop. *)
Definition carries_records (data : bytes) : bool :=
  negb (length data =? 0)%nat && (byte_at data 0 =? PACKET_TYPE_DATA) && (5 <=? length data)%nat.

(** A HEADER frame long enough to be read. *)
Definition carries_header (data : bytes) : bool :=
  negb (length data =? 0)%nat && (byte_at data 0 =? PACKET_TYPE_HEADER)
  && (3 <=? length data)%nat.

(** A frame that is not empty and that no branch of the handler reads: an
    unknown packet type, or a known one cut too short. *)
Definition undecodable (data : bytes) : bool :=
  negb (length data =? 0)%nat && negb (carries_header data)
  && negb (carries_records data) && negb (completes data).

(** The counters of [transfer_stats] account for the records received. *)
Definition accounted (s : Session) : Prop :=
  0 <= data_packets (transfer_stats s) /\
  Z.of_nat (length (received_records s)) <= total_records (transfer_stats s) /\
  total_records (transfer_stats s) <= 255 * data_packets (transfer_stats s).

(** Every sequence number of the session lies in the 255 numbers from
    [start_seq] on. *)
Definition in_window (start_seq : Z) (s : Session) : Prop :=
  Forall (fun r => start_seq <= seq r <= start_seq + 254) (received_records s).

(** The records [download_data] hands to the store: those of a finished
    session. *)
Definition committed_records (o : Outcome) : list SensorRecord :=
  match terminal o, session o with
  | Finished _, Some s => received_records s
  | _, _ => []
  end.

(** The primary key of [sync_state]: at most one row per device. *)
Definition one_row_per_device (rows : list SyncRow) : Prop :=
  forall m, (length (filter (fun r => String.eqb (s_mac r) m) rows) <= 1)%nat.

(** No frame of the trace enters the record loop. *)
Definition no_data_frames (evs : list Event) : bool :=
  forallb (fun e => match e with
                    | Notify f => negb (carries_records (f_data f))
                    | Wake _ => true
                    end) evs.

Definition temp_stored (z : Z) : option Z :=
  int_of_float (PrimFloat.mul (PrimFloat.div (float_of_Z z) 10%float) 100%float).

Definition battery_stored (z : Z) : option Z :=
  int_of_float (PrimFloat.mul (PrimFloat.div (float_of_Z z) 10%float) 1000%float).

(** The stored temperature is the exact hundredths or one unit nearer zero. *)
Definition temp_stored_close (z : Z) : bool :=
  match temp_stored z with
  | Some t => if 0 <=? z then (10 * z - 1 <=? t) && (t <=? 10 * z)
              else (10 * z <=? t) && (t <=? 10 * z + 1)
  | None => false
  end.

Definition battery_stored_exact (z : Z) : bool :=
  match battery_stored z with
  | Some b => b =? 100 * z
  | None => false
  end.

(** Reading a scaled integer back gives the float of the original integer. *)
Definition reads_back (scale : Z) (scale_f : float) (z : Z) : bool :=
  PrimFloat.Leibniz.eqb (PrimFloat.div (float_of_Z (z * scale)) scale_f) (float_of_Z z).

(** Reading the stored millivolts back gives the decoded battery voltage. *)
Definition battery_reads_back (z : Z) : bool :=
  PrimFloat.Leibniz.eqb (PrimFloat.div (float_of_Z (100 * z)) 1000%float)
    (PrimFloat.div (float_of_Z z) 10%float).

(** The databases the program leaves behind: a store whose sync table is
    still empty, as [init_db] creates it, and whatever a [download_data] run,
    the only writer of the sync table, returns from one of these. *)
Inductive persisted : DB -> Prop :=
| persisted_new (rows : list Row) (n : Z) : persisted (mkDB rows n [])
| persisted_download (env : Env) (db : DB) :
    persisted db -> persisted (db_after (download_data env db)).

(** The frames of a trace, in arrival order. *)
Definition frames_of (evs : list Event) : list Frame :=
  flat_map (fun e => match e with Notify f => [f] | Wake _ => [] end) evs.

(** ** Sample inputs *)

Module Samples.

Definition empty_db : DB := mkDB [] 0 [].

Definition fresh : Session := mkSession false 0%float initial_stats [] [].

Definition frame_at (t : float) (data : bytes) : Frame := mkFrame t (fun _ => 1700000000000) data.

(** Scenario C of the specification: [01 00 00 02 00 01 2C 03 96 32 01 2A 03 95 33]. *)
Definition scenario_C : bytes :=
  [x01; x00; x00; x02; x00; x01; x2c; x03; x96; x32; x01; x2a; x03; x95; x33].

(** A DATA frame with one complete record: 30.0 C, 101 kPa, 50 %, 3.3 V. *)
Definition one_record : bytes :=
  [x01; x00; x00; x01; x00; x01; x2c; x00; x65; x32; x21].

(** A DATA frame announcing two records and carrying both. *)
Definition two_records : bytes :=
  [x01; x00; x00; x02; x00; x01; x2c; x00; x65; x32; x21; xff; xec; x00; x64; x31; x20].

(** An END frame of exactly two bytes. *)
Definition short_end : bytes := [x02; x07].

Definition status_10 : bytes := [x00; x0a; x00; x00].

Definition sample (s : Z) : SensorRecord :=
  add_seq_ts (mkRaw 30%float 101 50 3.5%float 300 101 50 35) s 1700000000000.

(** A device with ten records, never synchronised; two DATA frames arrive,
    then nothing for more than three seconds. *)
Definition idle_env : Env :=
  mkEnv "AA:BB" true (Some status_10) 0%float [] 0.5%float
    [Notify (frame_at 1%float two_records); Wake 1.5%float; Wake 4.5%float]
    [] 1700000000500 1700000000600.

(** The same device sending its first two records in two DATA frames of
    one record each, then falling silent. *)
Definition two_frames_env : Env :=
  mkEnv "AA:BB" true (Some status_10) 0%float [] 0.5%float
    [Notify (frame_at 1%float one_record); Notify (frame_at 1.5%float one_record);
     Wake 2%float; Wake 5%float]
    [] 1700000000500 1700000000600.

(** The same device when every record is already stored. *)
Definition synced_db : DB := mkDB [] 0 [mkSync "AA:BB" 9 1700000000000 10].

(** A store that already holds sequence number 1 of the device while its
    sync state still says 0 (the two tables are written in separate
    transactions). *)
Definition overlapping_db : DB :=
  mkDB [mkRow 1 "AA:BB" 0 1700000000000 (-50) 3000 10100 5000 3500 1700000000100;
        mkRow 2 "AA:BB" 1 1700000030000 (-50) 3000 10100 5000 3500 1700000000100]
       2 [mkSync "AA:BB" 0 1700000000100 1].

(** A stream of frames that decode to nothing, one per second, outliving
    the hard timeout. *)
Definition noise : list Event :=
  [Notify (frame_at 1%float [x09]); Wake 2%float;
   Notify (frame_at 3%float [x00]); Wake 5%float;
   Notify (frame_at 6%float [x02]); Wake 8%float;
   Notify (frame_at 20%float [x01; x00]); Wake 21%float].

(** A frame with an unknown packet type. *)
Definition unknown_frame : bytes := [x09; x01; x02; x03; x04; x05; x06].

(** The HEADER frame of Scenario B. *)
Definition header_frame : bytes := [x00; x00; x1e].

(** An END frame announcing two records sent. *)
Definition end_frame : bytes := [x02; x00; x02].

(** A status reply: two records on the device. *)
Definition status_2 : bytes := [x00; x02; x00; x00].

(** A device holding two records sends both in one frame, then END. *)
Definition full_env : Env :=
  mkEnv "AA:BB" true (Some status_2) 0%float [] 0.5%float
    [Notify (frame_at 1%float two_records); Notify (frame_at 1.25%float end_frame);
     Wake 1.5%float]
    [] 1700000000500 1700000000600.

(** Only a HEADER arrives; the loop runs into the hard timeout. *)
Definition header_only_env : Env :=
  mkEnv "AA:BB" true (Some status_10) 0%float [] 0.5%float
    [Notify (frame_at 1%float header_frame); Wake 5%float; Wake 21%float]
    [] 1700000000500 1700000000600.

(** Three DATA frames of one record each, then silence. *)
Definition three_frames_env : Env :=
  mkEnv "AA:BB" true (Some status_10) 0%float [] 0.5%float
    [Notify (frame_at 1%float one_record); Notify (frame_at 1.5%float one_record);
     Notify (frame_at 2%float one_record); Wake 2.5%float; Wake 6%float]
    [] 1700000000500 1700000000600.

(** A session that has received one DATA frame, at time 1. *)
Definition receiving : Session := notification_handler 0 fresh (frame_at 1%float one_record).

(** After that frame only frames that decode to nothing arrive, one every
    three seconds, until past the hard timeout. *)
Definition keepalive : list Event :=
  [Wake 2%float;
   Notify (frame_at 3%float [x09]); Wake 5%float;
   Notify (frame_at 6%float [x00]); Wake 8%float;
   Notify (frame_at 9%float [x02]); Wake 11%float;
   Notify (frame_at 12%float [x01; x00]); Wake 14%float;
   Notify (frame_at 15%float [x07; x07]); Wake 17%float;
   Notify (frame_at 18%float [x00; x01]); Wake 20%float;
   Notify (frame_at 21%float [x09]); Wake 22%float].

(** The same wake-ups with no frame at all. *)
Definition silence : list Event := [Wake 2%float; Wake 5%float; Wake 8%float].

(** The status read fails. *)
Definition unreadable_env : Env :=
  mkEnv "AA:BB" true None 0%float [] 0.5%float [] [] 1700000000500 1700000000600.

End Samples.

(** * Properties *)

(** ** Codec *)

Section Codec.

Lemma b2z_range (b : byte) : 0 <= b2z b < 256.
Proof.
  unfold b2z. pose proof (Byte.to_N_bounded b). lia.
Qed.

Lemma byte_at_range (data : bytes) (i : nat) : 0 <= byte_at data i < 256.
Proof. apply b2z_range. Qed.

(** Shifting the high byte and or-ing the low one is positional notation. *)
Lemma lor_shiftl_8 (hi lo : Z) :
  0 <= hi -> 0 <= lo < 256 -> Z.lor (Z.shiftl hi 8) lo = hi * 256 + lo.
Proof.
  intros Hhi Hlo.
  rewrite Z.shiftl_mul_pow2 by lia.
  change (2 ^ 8) with 256.
  rewrite <- (Z.add_lor_land (hi * 256) lo).
  assert (Hdisj : Z.land (hi * 256) lo = 0).
  { apply Z.bits_inj'. intros n Hn.
    rewrite Z.land_spec, Z.bits_0.
    destruct (Z.lt_ge_cases n 8) as [Hlt | Hge].
    - change 256 with (2 ^ 8). rewrite Z.mul_pow2_bits_low by lia. reflexivity.
    - assert (Hb : Z.testbit lo n = false).
      { destruct (Z.eq_dec lo 0) as [-> | Hnz]; [apply Z.bits_0 |].
        apply Z.bits_above_log2; [lia |].
        assert (Z.log2 lo < 8) by (apply Z.log2_lt_pow2; lia). lia. }
      rewrite Hb. apply andb_false_r. }
  rewrite Hdisj. lia.
Qed.

Lemma parse_uint16_be_some (data : bytes) (offset : nat) :
  (offset + 2 <= length data)%nat ->
  parse_uint16_be data offset
  = Some (byte_at data offset * 256 + byte_at data (offset + 1)).
Proof.
  intros Hlen. unfold parse_uint16_be.
  destruct (Nat.ltb_spec (length data) (offset + 2)) as [Hlt | _]; [lia |].
  f_equal. apply lor_shiftl_8.
  - apply byte_at_range.
  - apply byte_at_range.
Qed.

Lemma parse_uint16_be_none (data : bytes) (offset : nat) :
  (length data < offset + 2)%nat -> parse_uint16_be data offset = None.
Proof.
  intros Hlen. unfold parse_uint16_be.
  destruct (Nat.ltb_spec (length data) (offset + 2)); [reflexivity | lia].
Qed.

Lemma parse_sensor_record_none (data : bytes) (offset : nat) :
  (length data < offset + 6)%nat -> parse_sensor_record data offset = None.
Proof.
  intros Hlen. unfold parse_sensor_record.
  destruct (Nat.ltb_spec (length data) (offset + 6)); [reflexivity | lia].
Qed.

Lemma parse_sensor_record_some (data : bytes) (offset : nat) :
  (offset + 6 <= length data)%nat ->
  parse_sensor_record data offset
  = Some (let t := unpack_int16_be data offset in
          let p := byte_at data (offset + 2) * 256 + byte_at data (offset + 3) in
          let h := byte_at data (offset + 4) in
          let b := byte_at data (offset + 5) in
          mkRaw (PrimFloat.div (float_of_Z t) 10%float) p h
                (PrimFloat.div (float_of_Z b) 10%float) t p h b).
Proof.
  intros Hlen. unfold parse_sensor_record.
  destruct (Nat.ltb_spec (length data) (offset + 6)) as [Hlt | _]; [lia |].
  rewrite parse_uint16_be_some by lia.
  replace (offset + 2 + 1)%nat with (offset + 3)%nat by lia.
  reflexivity.
Qed.

Lemma unpack_int16_be_range (data : bytes) (offset : nat) :
  -32768 <= unpack_int16_be data offset < 32768.
Proof.
  unfold unpack_int16_be.
  pose proof (byte_at_range data offset).
  pose proof (byte_at_range data (offset + 1)).
  cbv zeta.
  destruct (Z.leb_spec 32768 (byte_at data offset * 256 + byte_at data (offset + 1))); lia.
Qed.

(** Reading a slice: the bytes at two consecutive positions. *)
Lemma nth_skipn (data : bytes) (a i : nat) :
  nth i (skipn a data) x00 = nth (a + i) data x00.
Proof.
  revert data. induction a as [| a IH]; intros data; [reflexivity |].
  destruct data as [| b data]; simpl.
  - destruct i; reflexivity.
  - apply IH.
Qed.

Lemma slice_two (data : bytes) (a : nat) :
  (a + 2 <= length data)%nat ->
  slice data a (a + 2) = [nth a data x00; nth (a + 1) data x00].
Proof.
  intros Hlen. unfold slice.
  replace (a + 2 - a)%nat with 2%nat by lia.
  pose proof (nth_skipn data a 0) as H0.
  pose proof (nth_skipn data a 1) as H1.
  rewrite Nat.add_0_r in H0.
  assert (Hl : (2 <= length (skipn a data))%nat) by (rewrite length_skipn; lia).
  destruct (skipn a data) as [| x [| y rest]]; simpl in Hl; try lia.
  simpl in H0, H1. simpl. congruence.
Qed.

Lemma be_u16_pair (x y : byte) : be_u16 [x; y] = b2z x * 256 + b2z y.
Proof. unfold be_u16. simpl. lia. Qed.

Lemma be_i16_pair (x y : byte) :
  be_i16 [x; y]
  = let u := b2z x * 256 + b2z y in if 32768 <=? u then u - 65536 else u.
Proof.
  unfold be_i16. rewrite be_u16_pair.
  pose proof (b2z_range x). pose proof (b2z_range y).
  cbv zeta. change (2 ^ 15) with 32768. change (2 ^ 16) with 65536.
  destruct (Z.leb_spec 32768 (b2z x * 256 + b2z y)).
  - replace (b2z x * 256 + b2z y + 32768)
      with ((b2z x * 256 + b2z y - 32768) + 1 * 65536) by lia.
    rewrite Z.mod_add by lia. rewrite Z.mod_small by lia. lia.
  - rewrite Z.mod_small by lia. lia.
Qed.

(** A slice of a slice of the [k]-th raw record, in frame coordinates. *)
Lemma nth_raw_record (data : bytes) (k i : nat) :
  (5 + 6 * k + 6 <= length data)%nat -> (i < 6)%nat ->
  nth i (raw_record data k) x00 = nth (5 + 6 * k + i) data x00.
Proof.
  intros Hlen Hi. unfold raw_record, slice.
  replace (5 + 6 * k + 6 - (5 + 6 * k))%nat with 6%nat by lia.
  rewrite nth_firstn.
  destruct (Nat.ltb_spec i 6); [| lia].
  apply nth_skipn.
Qed.

Lemma length_raw_record (data : bytes) (k : nat) :
  (5 + 6 * k + 6 <= length data)%nat -> length (raw_record data k) = 6%nat.
Proof.
  intros Hlen. unfold raw_record, slice.
  rewrite length_firstn, length_skipn. lia.
Qed.

End Codec.

(** ** The record loop of a DATA frame *)

Section RecordLoop.

Variables (data : bytes) (start_seq : Z) (wall : nat -> Z) (count : Z).

Local Abbreviation loop := (parse_records data start_seq wall count).

Lemma parse_records_length_le (n i offset : nat) :
  (length (loop n i offset) <= n)%nat.
Proof.
  revert i offset. induction n as [| n IH]; intros i offset; simpl; [lia |].
  destruct (parse_sensor_record data offset); simpl; [| lia].
  specialize (IH (S i) (offset + 6)%nat). lia.
Qed.

Lemma parse_records_full (n i offset : nat) :
  (offset + 6 * n <= length data)%nat -> length (loop n i offset) = n.
Proof.
  revert i offset. induction n as [| n IH]; intros i offset Hfit; simpl; [reflexivity |].
  rewrite parse_sensor_record_some by lia. simpl.
  rewrite IH by lia. reflexivity.
Qed.


(** Every decoded record lies inside the frame. *)
Lemma parse_records_fit (n i offset : nat) :
  loop n i offset = [] \/ (offset + 6 * length (loop n i offset) <= length data)%nat.
Proof.
  revert i offset. induction n as [| n IH]; intros i offset; simpl; [now left |].
  destruct (Nat.le_gt_cases (offset + 6) (length data)) as [Hfit | Hshort].
  - rewrite parse_sensor_record_some by exact Hfit. right. simpl.
    destruct (IH (S i) (offset + 6)%nat) as [-> | H]; simpl; lia.
  - rewrite parse_sensor_record_none by exact Hshort. now left.
Qed.

(** The sequence numbers handed out by one run of the loop count up from
    [start_seq + i]. *)
Lemma parse_records_seq (n i offset : nat) :
  map seq (loop n i offset)
  = map (fun j => start_seq + Z.of_nat j) (List.seq i (length (loop n i offset))).
Proof.
  revert i offset. induction n as [| n IH]; intros i offset; simpl; [reflexivity |].
  destruct (parse_sensor_record data offset); simpl; [| reflexivity].
  f_equal. apply IH.
Qed.

Lemma parse_records_seq_ge (n i offset : nat) :
  Forall (fun r => start_seq <= seq r) (loop n i offset).
Proof.
  revert i offset. induction n as [| n IH]; intros i offset; simpl; [constructor |].
  destruct (parse_sensor_record data offset); [| constructor].
  constructor; [simpl; lia | apply IH].
Qed.

Lemma parse_records_nth (n i offset k : nat) :
  (k < n)%nat -> (offset + 6 * k + 6 <= length data)%nat ->
  exists raw,
    parse_sensor_record data (offset + 6 * k) = Some raw /\
    nth_error (loop n i offset) k
    = Some (add_seq_ts raw (start_seq + Z.of_nat (i + k))
              (wall (i + k)%nat - (count - 1 - Z.of_nat (i + k)) * 30000)).
Proof.
  revert i offset k. induction n as [| n IH]; intros i offset k Hk Hfit; [lia |].
  cbn [parse_records]. rewrite (parse_sensor_record_some data offset) by lia.
  destruct k as [| k].
  - replace (offset + 6 * 0)%nat with offset by lia.
    replace (i + 0)%nat with i by lia.
    eexists. split; [apply parse_sensor_record_some; lia | reflexivity].
  - destruct (IH (S i) (offset + 6)%nat k) as [raw [Hraw Hnth]]; [lia | lia |].
    exists raw. split.
    + replace (offset + 6 * S k)%nat with (offset + 6 + 6 * k)%nat by lia. exact Hraw.
    + cbn [nth_error]. rewrite Hnth.
      replace (S i + k)%nat with (i + S k)%nat by lia. reflexivity.
Qed.

Lemma parse_records_from_wire (n i offset : nat) :
  Forall from_wire (loop n i offset).
Proof.
  revert i offset. induction n as [| n IH]; intros i offset; simpl; [constructor |].
  destruct (Nat.le_gt_cases (offset + 6) (length data)) as [Hfit | Hshort].
  - rewrite parse_sensor_record_some by exact Hfit.
    constructor; [| apply IH].
    unfold from_wire; simpl.
    pose proof (unpack_int16_be_range data offset).
    pose proof (byte_at_range data (offset + 5)).
    repeat split; lia.
  - rewrite parse_sensor_record_none by exact Hshort. constructor.
Qed.

End RecordLoop.

(** ** The notification handler *)

Section Handler.

Variable start_seq : Z.

Local Abbreviation handler := (notification_handler start_seq).

Lemma handler_empty (s : Session) (f : Frame) :
  f_data f = [] -> handler s f = s.
Proof. intros H. unfold notification_handler. rewrite H. reflexivity. Qed.

Lemma handler_last_packet_time (s : Session) (f : Frame) :
  f_data f <> [] -> last_packet_time (handler s f) = f_now f.
Proof.
  intros H. unfold notification_handler.
  destruct (f_data f) as [| b rest] eqn:E; [contradiction |].
  cbn [length Nat.eqb].
  repeat match goal with
         | |- context [if ?c then _ else _] => destruct c
         end; reflexivity.
Qed.

(** What a DATA frame of five bytes or more does. *)
Lemma handler_data (s : Session) (f : Frame) :
  (5 <= length (f_data f))%nat -> byte_at (f_data f) 0 = PACKET_TYPE_DATA ->
  handler s f
  = let data := f_data f in
    let st := transfer_stats s in
    let count := byte_at data 3 in
    mkSession (transfer_complete s) (f_now f)
      (mkStats (header_received st) (total_records st + count) (data_packets st + 1)
         (end_received st) (interval_sec st))
      (received_records s
       ++ parse_records data start_seq (f_wall f) count (Z.to_nat count) 0 5)
      (printed s).
Proof.
  intros Hlen Htype. unfold notification_handler.
  destruct (Nat.eqb_spec (length (f_data f)) 0) as [H0 | _]; [lia |].
  rewrite Htype. cbn [PACKET_TYPE_DATA PACKET_TYPE_HEADER Z.eqb].
  destruct (Nat.leb_spec 5 (length (f_data f))); [reflexivity | lia].
Qed.

(** What an END frame of two bytes or more does. *)
Lemma handler_end (s : Session) (f : Frame) :
  (2 <= length (f_data f))%nat -> byte_at (f_data f) 0 = PACKET_TYPE_END ->
  handler s f
  = let st := transfer_stats s in
    mkSession true (f_now f)
      (mkStats (header_received st) (total_records st) (data_packets st) true
         (interval_sec st))
      (received_records s)
      (printed s ++ [EndReceived (parse_uint16_be (f_data f) 1)]).
Proof.
  intros Hlen Htype. unfold notification_handler.
  destruct (Nat.eqb_spec (length (f_data f)) 0) as [H0 | _]; [lia |].
  rewrite Htype. cbn [PACKET_TYPE_DATA PACKET_TYPE_HEADER PACKET_TYPE_END Z.eqb].
  destruct (Nat.leb_spec 2 (length (f_data f))); [reflexivity | lia].
Qed.

(** A frame that does not complete the transfer leaves the flag alone. *)
Lemma handler_keeps_flag (s : Session) (f : Frame) :
  completes (f_data f) = false ->
  transfer_complete (handler s f) = transfer_complete s.
Proof.
  unfold completes, notification_handler. intros Hc.
  destruct (Nat.eqb_spec (length (f_data f)) 0) as [H0 | Hn0]; [reflexivity |].
  cbn [negb andb] in Hc.
  destruct (byte_at (f_data f) 0 =? PACKET_TYPE_HEADER) eqn:Eh.
  { destruct (3 <=? length (f_data f))%nat; reflexivity. }
  destruct (byte_at (f_data f) 0 =? PACKET_TYPE_DATA) eqn:Ed.
  { destruct (5 <=? length (f_data f))%nat; reflexivity. }
  destruct (byte_at (f_data f) 0 =? PACKET_TYPE_END) eqn:Ee; [| reflexivity].
  cbn [andb] in Hc. rewrite Hc. reflexivity.
Qed.

(** The handler only ever appends to [received_records], and what it
    appends is numbered from [start_seq] and comes from the wire. *)
Lemma handler_appends (s : Session) (f : Frame) :
  exists new,
    received_records (handler s f) = received_records s ++ new /\
    Forall (fun r => start_seq <= seq r) new /\
    Forall from_wire new.
Proof.
  unfold notification_handler.
  destruct (length (f_data f) =? 0)%nat.
  { exists []. rewrite app_nil_r. repeat split; constructor. }
  destruct (byte_at (f_data f) 0 =? PACKET_TYPE_HEADER).
  { exists []. destruct (3 <=? length (f_data f))%nat; cbn;
      rewrite app_nil_r; repeat split; constructor. }
  destruct (byte_at (f_data f) 0 =? PACKET_TYPE_DATA).
  { destruct (5 <=? length (f_data f))%nat; cbn.
    - eexists. split; [reflexivity |]. split.
      + apply parse_records_seq_ge.
      + apply parse_records_from_wire.
    - exists []. rewrite app_nil_r. repeat split; constructor. }
  exists [].
  destruct (byte_at (f_data f) 0 =? PACKET_TYPE_END);
    [destruct (2 <=? length (f_data f))%nat |]; cbn;
    rewrite app_nil_r; repeat split; constructor.
Qed.

Lemma deliver_appends (frames : list Frame) (s : Session) :
  exists new,
    received_records (deliver start_seq s frames) = received_records s ++ new /\
    Forall (fun r => start_seq <= seq r) new /\
    Forall from_wire new.
Proof.
  revert s. induction frames as [| f frames IH]; intros s; simpl.
  - exists []. rewrite app_nil_r. repeat split; constructor.
  - destruct (handler_appends s f) as [n1 [E1 [G1 W1]]].
    destruct (IH (handler s f)) as [n2 [E2 [G2 W2]]].
    exists (n1 ++ n2). unfold deliver in E2. unfold deliver. simpl.
    rewrite E2, E1, app_assoc.
    split; [reflexivity |]. split; apply Forall_app; split; assumption.
Qed.

End Handler.

(** ** Decoding of DATA and END frames *)

(** Whatever the session already holds, the records of a DATA frame are
    numbered [start_seq], [start_seq + 1], ... by their position in the frame. *)
Lemma frame_numbering_ignores_history (start_seq : Z) (s : Session) (f : Frame) :
  (5 <= length (f_data f))%nat -> byte_at (f_data f) 0 = PACKET_TYPE_DATA ->
  exists decoded,
    received_records (notification_handler start_seq s f) = received_records s ++ decoded /\
    map seq decoded = map (fun j => start_seq + Z.of_nat j) (List.seq 0 (length decoded)).
Proof.
  intros Hlen Htype. rewrite handler_data by assumption. cbn zeta.
  eexists. split; [reflexivity |]. apply parse_records_seq.
Qed.

(** An END frame long enough to hold the counter reports it. *)
Lemma end_frame_three_bytes (start_seq : Z) (s : Session) (f : Frame) :
  (3 <= length (f_data f))%nat -> byte_at (f_data f) 0 = PACKET_TYPE_END ->
  let s' := notification_handler start_seq s f in
  printed s' = printed s ++ [EndReceived (Some (be_u16 (slice (f_data f) 1 3)))] /\
  transfer_complete s' = true.
Proof.
  intros Hlen Htype. cbn zeta. rewrite handler_end by (assumption || lia). cbn zeta.
  split; [| reflexivity]. cbn [printed].
  rewrite parse_uint16_be_some by lia.
  change (slice (f_data f) 1 3) with (slice (f_data f) 1 (1 + 2)).
  rewrite slice_two by lia. rewrite be_u16_pair. reflexivity.
Qed.

(** An END frame of one byte changes nothing but the idle reference. *)
Lemma end_frame_one_byte (start_seq : Z) (s : Session) (f : Frame) :
  length (f_data f) = 1%nat -> byte_at (f_data f) 0 = PACKET_TYPE_END ->
  notification_handler start_seq s f
  = mkSession (transfer_complete s) (f_now f) (transfer_stats s) (received_records s)
      (printed s).
Proof.
  intros Hlen Htype. unfold notification_handler.
  rewrite Hlen, Htype. reflexivity.
Qed.

(** C1 (evaluation at the failing input). Two DATA frames of one record each,
    received in one session that starts at sequence number 0: both records
    are given [seq = 0], so the numbers handed out in the session are not
    strictly increasing; the index added to [start_seq] is the position
    inside the frame, not a running index over the session. *)
Theorem seq_restarts_in_each_frame :
  let s := deliver 0 Samples.fresh
             [Samples.frame_at 1%float Samples.one_record;
              Samples.frame_at 2%float Samples.one_record] in
  map seq (received_records s) = [0; 0] /\
  strictly_increasing (map seq (received_records s)) = false.
Proof. cbv zeta. split; vm_compute; reflexivity. Qed.



(** C6 (evaluation at the failing input). The END frame [02 07] is two bytes
    long: the handler marks the transfer complete, but the counter it reports
    is [None], because [parse_uint16_be(data, 1)] needs three bytes; the
    big-endian reading of [data[1:3]], the one byte [07], is 7. *)
Theorem end_frame_two_bytes_total_sent :
  let s' := notification_handler 0 Samples.fresh
              (Samples.frame_at 1%float Samples.short_end) in
  length Samples.short_end = 2%nat /\
  byte_at Samples.short_end 0 = PACKET_TYPE_END /\
  be_u16 (slice Samples.short_end 1 3) = 7 /\
  printed s' = [EndReceived None] /\
  transfer_complete s' = true.
Proof. cbv zeta. repeat split. Qed.

(** C9 (the claim as stated fails). The frame of Scenario C is 15 bytes long
    and announces two records; the handler decodes one: the second record
    would end at byte 17. *)
Lemma scenario_C_decodes_one_record :
  length Samples.scenario_C = 15%nat /\
  byte_at Samples.scenario_C 3 = 2 /\
  length (received_records
            (notification_handler 0 Samples.fresh
               (Samples.frame_at 1%float Samples.scenario_C))) = 1%nat /\
  length (received_records
            (notification_handler 0 Samples.fresh
               (Samples.frame_at 1%float Samples.scenario_C))) <> 2%nat.
Proof. repeat split. vm_compute. discriminate. Qed.

(** C9, amended. The raw record at offset [5 + 6 * k] of a frame that holds
    it whole decodes to [temp_c = be_i16(rec[0:2]) / 10],
    [press_kpa = be_u16(rec[2:4])], [humidity_pct = rec[4]] and
    [battery_v = rec[5] / 10] (the divisions in binary64); in a DATA frame
    that announces more than [k] records it becomes the [k]-th record the
    handler appends, with [seq = start_seq + k]. The 15-byte frame of
    Scenario C, which announces two records, decodes to exactly one, with
    [seq = start_seq]. *)
Theorem raw_record_decoding (data : bytes) (k : nat) :
  (5 + 6 * k + 6 <= length data)%nat ->
  let rec6 := raw_record data k in
  exists raw,
    parse_sensor_record data (5 + 6 * k) = Some raw /\
    raw_temp_c raw = PrimFloat.div (float_of_Z (be_i16 (slice rec6 0 2))) 10%float /\
    raw_press_kpa raw = be_u16 (slice rec6 2 4) /\
    raw_humidity_pct raw = byte_at rec6 4 /\
    raw_battery_v raw = PrimFloat.div (float_of_Z (byte_at rec6 5)) 10%float /\
    (forall start_seq s f,
        f_data f = data -> byte_at data 0 = PACKET_TYPE_DATA ->
        Z.of_nat k < byte_at data 3 ->
        exists ts,
          nth_error (received_records (notification_handler start_seq s f))
            (length (received_records s) + k)
          = Some (add_seq_ts raw (start_seq + Z.of_nat k) ts)) /\
    (forall start_seq,
        map seq (received_records
                   (notification_handler start_seq Samples.fresh
                      (Samples.frame_at 1%float Samples.scenario_C)))
        = [start_seq]).
Proof.
  intros Hlen. cbn zeta.
  pose proof (length_raw_record data k Hlen) as Hl6.
  eexists. split; [apply parse_sensor_record_some; lia |]. cbn zeta.
  assert (Hs02 : slice (raw_record data k) 0 2
                 = [nth (5 + 6 * k) data x00; nth (5 + 6 * k + 1) data x00]).
  { change (slice (raw_record data k) 0 2) with (slice (raw_record data k) 0 (0 + 2)).
    rewrite slice_two by lia.
    rewrite !nth_raw_record by lia. rewrite Nat.add_0_r. reflexivity. }
  assert (Hs24 : slice (raw_record data k) 2 4
                 = [nth (5 + 6 * k + 2) data x00; nth (5 + 6 * k + 3) data x00]).
  { change (slice (raw_record data k) 2 4) with (slice (raw_record data k) 2 (2 + 2)).
    rewrite slice_two by lia.
    rewrite !nth_raw_record by lia. reflexivity. }
  split; [| split; [| split; [| split; [| split]]]]; cbn [raw_temp_c raw_press_kpa
    raw_humidity_pct raw_battery_v].
  - rewrite Hs02, be_i16_pair. reflexivity.
  - rewrite Hs24, be_u16_pair. reflexivity.
  - unfold byte_at. rewrite nth_raw_record by lia. reflexivity.
  - unfold byte_at. rewrite nth_raw_record by lia. reflexivity.
  - intros start_seq s f Hdata Htype Hcount. subst data.
    rewrite handler_data by (assumption || lia). cbn zeta. cbn [received_records].
    rewrite nth_error_app2 by lia.
    replace (length (received_records s) + k - length (received_records s))%nat
      with k by lia.
    destruct (parse_records_nth (f_data f) start_seq (f_wall f) (byte_at (f_data f) 3)
                (Z.to_nat (byte_at (f_data f) 3)) 0 5 k) as [raw [Hraw Hnth]];
      [lia | lia |].
    rewrite parse_sensor_record_some in Hraw by lia.
    injection Hraw as <-. rewrite Hnth. eexists. reflexivity.
  - intros start_seq.
    rewrite handler_data by (vm_compute; (reflexivity || lia)).
    cbn zeta. cbn [received_records Samples.fresh app].
    rewrite parse_records_seq.
    replace (length _) with 1%nat by (vm_compute; reflexivity).
    cbn. rewrite Z.add_0_r. reflexivity.
Qed.

Lemma raw_record_decoding_witness :
  exists raw,
    parse_sensor_record Samples.two_records (5 + 6 * 1) = Some raw /\
    raw_temp_c raw
    = PrimFloat.div (float_of_Z (be_i16 (slice (raw_record Samples.two_records 1) 0 2)))
        10%float /\
    raw_press_kpa raw = be_u16 (slice (raw_record Samples.two_records 1) 2 4) /\
    raw_humidity_pct raw = byte_at (raw_record Samples.two_records 1) 4 /\
    raw_battery_v raw
    = PrimFloat.div (float_of_Z (byte_at (raw_record Samples.two_records 1) 5)) 10%float /\
    (forall start_seq s f,
        f_data f = Samples.two_records ->
        byte_at Samples.two_records 0 = PACKET_TYPE_DATA ->
        Z.of_nat 1 < byte_at Samples.two_records 3 ->
        exists ts,
          nth_error (received_records (notification_handler start_seq s f))
            (length (received_records s) + 1)
          = Some (add_seq_ts raw (start_seq + Z.of_nat 1) ts)) /\
    (forall start_seq,
        map seq (received_records
                   (notification_handler start_seq Samples.fresh
                      (Samples.frame_at 1%float Samples.scenario_C)))
        = [start_seq]).
Proof.
  apply (raw_record_decoding Samples.two_records 1). simpl. lia.
Defined.

(** ** The record store *)

Section Store.

Lemma count_key_app (m : string) (s : Z) (rows rows' : list Row) :
  count_key m s (rows ++ rows') = (count_key m s rows + count_key m s rows')%nat.
Proof. unfold count_key. rewrite filter_app, length_app. reflexivity. Qed.

Lemma absent_count (m : string) (s : Z) (rows : list Row) :
  existsb (has_key m s) rows = false <-> count_key m s rows = 0%nat.
Proof.
  unfold count_key. induction rows as [| r rows IH]; simpl; [tauto |].
  destruct (has_key m s r); simpl; [split; [discriminate | lia] | exact IH].
Qed.

Lemma present_count (m : string) (s : Z) (rows : list Row) :
  existsb (has_key m s) rows = true <-> (1 <= count_key m s rows)%nat.
Proof.
  destruct (existsb (has_key m s) rows) eqn:E.
  - split; [intros _ | reflexivity].
    destruct (count_key m s rows) eqn:C; [| lia].
    apply absent_count in C. congruence.
  - apply absent_count in E. rewrite E. split; [discriminate | lia].
Qed.

(** Two keys agree as booleans exactly when they are equal. *)
Lemma has_key_new_row (m m' : string) (s s' : Z) (i ts rs t p h b now : Z) :
  has_key m' s' (mkRow i m s ts rs t p h b now) = true <-> m = m' /\ s = s'.
Proof.
  unfold has_key; simpl. rewrite andb_true_iff, String.eqb_eq, Z.eqb_eq. tauto.
Qed.

Variables (m : string) (s ts rs t p h b now : Z).

Local Abbreviation ins := (fun c => insert_or_ignore c m s ts rs t p h b now).

Lemma insert_or_ignore_present (c : Conn) :
  existsb (has_key m s) (records (cdb (ins c))) = true.
Proof.
  unfold insert_or_ignore.
  destruct (existsb (has_key m s) (records (cdb c))) eqn:E; [exact E |].
  simpl. rewrite existsb_app. simpl.
  assert (Hk : has_key m s (mkRow (last_id (cdb c) + 1) m s ts rs t p h b now) = true)
    by (apply has_key_new_row; tauto).
  rewrite Hk. simpl. apply orb_true_r.
Qed.

Lemma insert_or_ignore_keeps (c : Conn) (m' : string) (s' : Z) :
  existsb (has_key m' s') (records (cdb c)) = true ->
  existsb (has_key m' s') (records (cdb (ins c))) = true.
Proof.
  intros Hp. unfold insert_or_ignore.
  destruct (existsb (has_key m s) (records (cdb c))); [exact Hp |].
  simpl. rewrite existsb_app, Hp. reflexivity.
Qed.

Lemma insert_or_ignore_unique (c : Conn) :
  unique_keys (records (cdb c)) -> unique_keys (records (cdb (ins c))).
Proof.
  intros Hu m' s'. unfold insert_or_ignore.
  destruct (existsb (has_key m s) (records (cdb c))) eqn:E; [apply Hu |].
  simpl. rewrite count_key_app. unfold count_key at 2. simpl.
  destruct (has_key m' s' (mkRow (last_id (cdb c) + 1) m s ts rs t p h b now)) eqn:K.
  - apply has_key_new_row in K. destruct K as [<- <-].
    apply absent_count in E. rewrite E. simpl. lia.
  - simpl. specialize (Hu m' s'). lia.
Qed.

Lemma insert_or_ignore_sync (c : Conn) :
  sync_state (cdb (ins c)) = sync_state (cdb c).
Proof.
  unfold insert_or_ignore.
  destruct (existsb (has_key m s) (records (cdb c))); reflexivity.
Qed.

(** A conflicting insert changes no row, no sync state and no change
    counter (only the [id] counter moves). *)
Lemma insert_or_ignore_conflict (c : Conn) :
  existsb (has_key m s) (records (cdb c)) = true ->
  records (cdb (ins c)) = records (cdb c) /\
  sync_state (cdb (ins c)) = sync_state (cdb c) /\
  total_changes (ins c) = total_changes c.
Proof. intros Hp. unfold insert_or_ignore. rewrite Hp. repeat split. Qed.

End Store.

Section InsertRecords.

Variables (m : string) (rs now : Z).

Lemma insert_one_storable (c : Conn) (r : SensorRecord) :
  storable r = true ->
  exists t b,
    insert_one c m rs now r
    = Some (insert_or_ignore c m (seq r) (timestamp_ms r) rs t (press_kpa r * 100)
              (humidity_pct r * 100) b now).
Proof.
  unfold storable, insert_one. intros Hs.
  destruct (int_of_float (PrimFloat.mul (temp_c r) 100)) as [t |]; [| discriminate].
  destruct (int_of_float (PrimFloat.mul (battery_v r) 1000)) as [b |]; [| discriminate].
  exists t, b. reflexivity.
Qed.

Lemma insert_one_result (c c' : Conn) (r : SensorRecord) :
  insert_one c m rs now r = Some c' ->
  storable r = true /\
  exists t b,
    c' = insert_or_ignore c m (seq r) (timestamp_ms r) rs t (press_kpa r * 100)
           (humidity_pct r * 100) b now.
Proof.
  unfold storable, insert_one.
  destruct (int_of_float (PrimFloat.mul (temp_c r) 100)) as [t |]; [| discriminate].
  destruct (int_of_float (PrimFloat.mul (battery_v r) 1000)) as [b |]; [| discriminate].
  intros [= <-]. split; [reflexivity |]. exists t, b. reflexivity.
Qed.

Lemma insert_one_none (c : Conn) (r : SensorRecord) :
  insert_one c m rs now r = None -> storable r = false.
Proof.
  unfold storable, insert_one.
  destruct (int_of_float (PrimFloat.mul (temp_c r) 100)) as [t |]; [| reflexivity].
  destruct (int_of_float (PrimFloat.mul (battery_v r) 1000)) as [b |];
    [discriminate | reflexivity].
Qed.

(** What the loop over a batch guarantees about the table. *)
Lemma insert_loop_table (recs : list SensorRecord) (c : Conn) (inserted : Z) :
  let c' := fst (insert_loop c inserted m rs now recs) in
  (unique_keys (records (cdb c)) -> unique_keys (records (cdb c'))) /\
  sync_state (cdb c') = sync_state (cdb c) /\
  (forall m' s', existsb (has_key m' s') (records (cdb c)) = true ->
                 existsb (has_key m' s') (records (cdb c')) = true) /\
  Forall (fun r => storable r = true ->
                   existsb (has_key m (seq r)) (records (cdb c')) = true) recs.
Proof.
  revert c inserted. induction recs as [| r recs IH]; intros c inserted; cbn zeta.
  - simpl. repeat split; auto.
  - cbn [insert_loop].
    destruct (insert_one c m rs now r) as [c1 |] eqn:E1.
    + apply insert_one_result in E1. destruct E1 as [_ [t [b ->]]].
      match goal with
      | |- context [insert_loop ?c1 ?i m rs now recs] =>
          destruct (IH c1 i) as [IHu [IHs [IHk IHp]]]
      end.
      split; [| split; [| split]].
      * intros Hu. apply IHu. apply insert_or_ignore_unique. exact Hu.
      * rewrite IHs. apply insert_or_ignore_sync.
      * intros m' s' Hp. apply IHk. apply insert_or_ignore_keeps. exact Hp.
      * constructor; [| exact IHp].
        intros _. apply IHk. apply insert_or_ignore_present.
    + apply insert_one_none in E1.
      destruct (IH c inserted) as [IHu [IHs [IHk IHp]]].
      split; [exact IHu | split; [exact IHs | split; [exact IHk |]]].
      constructor; [| exact IHp]. intros Hs. congruence.
Qed.

(** A batch whose storable records are all present changes no row. *)
Lemma insert_loop_conflicts (recs : list SensorRecord) (c : Conn) (inserted : Z) :
  Forall (fun r => storable r = true ->
                   existsb (has_key m (seq r)) (records (cdb c)) = true) recs ->
  records (cdb (fst (insert_loop c inserted m rs now recs))) = records (cdb c).
Proof.
  revert c inserted. induction recs as [| r recs IH]; intros c inserted Hall;
    [reflexivity |].
  inversion Hall as [| r' recs' Hr Hrest]; subst.
  cbn [insert_loop].
  destruct (insert_one c m rs now r) as [c1 |] eqn:E1.
  - apply insert_one_result in E1. destruct E1 as [Hs [t [b ->]]].
    destruct (insert_or_ignore_conflict m (seq r) (timestamp_ms r) rs t
                (press_kpa r * 100) (humidity_pct r * 100) b now c (Hr Hs))
      as [Hrows _].
    rewrite IH; [exact Hrows |]. rewrite Hrows. exact Hrest.
  - apply IH. exact Hrest.
Qed.

Lemma insert_records_table (db : DB) (recs : list SensorRecord) :
  let db' := snd (insert_records db m recs rs now) in
  (unique_keys (records db) -> unique_keys (records db')) /\
  sync_state db' = sync_state db /\
  (forall m' s', existsb (has_key m' s') (records db) = true ->
                 existsb (has_key m' s') (records db') = true) /\
  Forall (fun r => storable r = true ->
                   existsb (has_key m (seq r)) (records db') = true) recs.
Proof.
  cbn zeta. unfold insert_records.
  destruct recs as [| r recs]; [simpl; repeat split; auto |].
  pose proof (insert_loop_table (r :: recs) (connect db) 0) as H. cbn zeta in H.
  destruct (insert_loop (connect db) 0 m rs now (r :: recs)) as [c' n].
  exact H.
Qed.

Lemma insert_records_conflicts (db : DB) (recs : list SensorRecord) :
  Forall (fun r => storable r = true ->
                   existsb (has_key m (seq r)) (records db) = true) recs ->
  records (snd (insert_records db m recs rs now)) = records db.
Proof.
  intros Hall. unfold insert_records.
  destruct recs as [| r recs]; [reflexivity |].
  pose proof (insert_loop_conflicts (r :: recs) (connect db) 0 Hall) as H.
  destruct (insert_loop (connect db) 0 m rs now (r :: recs)) as [c' n].
  exact H.
Qed.

End InsertRecords.

(** With the table constraint, a present key is stored exactly once. *)
Lemma unique_present_once (m : string) (s : Z) (rows : list Row) :
  unique_keys rows -> existsb (has_key m s) rows = true -> count_key m s rows = 1%nat.
Proof.
  intros Hu Hp. apply present_count in Hp. specialize (Hu m s). lia.
Qed.

(** C8. In a table that satisfies [UNIQUE(mac, seq)], after a batch holding a
    storable record [r] has been inserted, the key [(mac, seq r)] is stored
    exactly once, however often the batch repeats that key; it is still
    stored exactly once after a later batch that holds the same key again;
    the constraint still holds; and inserting the first batch a second time
    leaves the rows of the store, and its sync table, as they were. *)
Theorem insert_records_idempotent
  (db : DB) (m : string) (batch1 batch2 : list SensorRecord)
  (rssi1 now1 rssi2 now2 : Z) (r r' : SensorRecord) :
  unique_keys (records db) ->
  In r batch1 -> In r' batch2 -> seq r' = seq r -> storable r = true ->
  let db1 := snd (insert_records db m batch1 rssi1 now1) in
  let db2 := snd (insert_records db1 m batch2 rssi2 now2) in
  count_key m (seq r) (records db1) = 1%nat /\
  count_key m (seq r) (records db2) = 1%nat /\
  unique_keys (records db2) /\
  records (snd (insert_records db1 m batch1 rssi2 now2)) = records db1 /\
  sync_state (snd (insert_records db1 m batch1 rssi2 now2)) = sync_state db1.
Proof.
  intros Hu Hin1 Hin2 Hseq Hst. cbn zeta.
  destruct (insert_records_table m rssi1 now1 db batch1) as [U1 [_ [_ P1]]].
  set (db1 := snd (insert_records db m batch1 rssi1 now1)) in *.
  destruct (insert_records_table m rssi2 now2 db1 batch2) as [U2 [_ [K2 _]]].
  assert (Hp1 : existsb (has_key m (seq r)) (records db1) = true).
  { rewrite Forall_forall in P1. apply P1; assumption. }
  split; [| split; [| split; [| split]]].
  - apply unique_present_once; auto.
  - apply unique_present_once; auto.
  - auto.
  - apply insert_records_conflicts. exact P1.
  - apply (insert_records_table m rssi2 now2 db1 batch1).
Qed.

Lemma insert_records_idempotent_witness :
  count_key "AA:BB" 1
    (records (snd (insert_records Samples.empty_db "AA:BB"
                     [Samples.sample 0; Samples.sample 1; Samples.sample 1] (-50) 100)))
  = 1%nat /\
  count_key "AA:BB" 1
    (records (snd (insert_records
                     (snd (insert_records Samples.empty_db "AA:BB"
                             [Samples.sample 0; Samples.sample 1; Samples.sample 1]
                             (-50) 100))
                     "AA:BB" [Samples.sample 1; Samples.sample 2] (-50) 200)))
  = 1%nat /\
  unique_keys
    (records (snd (insert_records
                     (snd (insert_records Samples.empty_db "AA:BB"
                             [Samples.sample 0; Samples.sample 1; Samples.sample 1]
                             (-50) 100))
                     "AA:BB" [Samples.sample 1; Samples.sample 2] (-50) 200))) /\
  records
    (snd (insert_records
            (snd (insert_records Samples.empty_db "AA:BB"
                    [Samples.sample 0; Samples.sample 1; Samples.sample 1] (-50) 100))
            "AA:BB" [Samples.sample 0; Samples.sample 1; Samples.sample 1] (-50) 200))
  = records (snd (insert_records Samples.empty_db "AA:BB"
                    [Samples.sample 0; Samples.sample 1; Samples.sample 1] (-50) 100)) /\
  sync_state
    (snd (insert_records
            (snd (insert_records Samples.empty_db "AA:BB"
                    [Samples.sample 0; Samples.sample 1; Samples.sample 1] (-50) 100))
            "AA:BB" [Samples.sample 0; Samples.sample 1; Samples.sample 1] (-50) 200))
  = sync_state (snd (insert_records Samples.empty_db "AA:BB"
                       [Samples.sample 0; Samples.sample 1; Samples.sample 1] (-50) 100)).
Proof.
  apply (insert_records_idempotent Samples.empty_db "AA:BB"
           [Samples.sample 0; Samples.sample 1; Samples.sample 1]
           [Samples.sample 1; Samples.sample 2] (-50) 100 (-50) 200
           (Samples.sample 1) (Samples.sample 1)).
  - intros m s. unfold count_key. simpl. lia.
  - simpl. right. left. reflexivity.
  - simpl. left. reflexivity.
  - reflexivity.
  - vm_compute. reflexivity.
Defined.

(** C7 (evaluation at the failing input). The store already holds sequence
    numbers 0 and 1 of the device; the batch with sequence numbers 2 and 1 is
    inserted. One row is written, and the call returns 2:
    [conn.total_changes] counts the rows changed since the connection was
    opened, so once one record has been inserted every later record is
    counted, ignored or not. The same shows in a whole session: two DATA
    frames of one record each give two records with one key, one row is
    written and the count shown to the user is 2. *)
Theorem insert_records_overcounts :
  let out := insert_records Samples.overlapping_db "AA:BB"
               [Samples.sample 2; Samples.sample 1] (-50) 1700000000500 in
  let o := download_data Samples.two_frames_env Samples.empty_db in
  fst out = 2 /\
  length (records (snd out)) = (length (records Samples.overlapping_db) + 1)%nat /\
  map r_seq (records (snd out)) = [0; 1; 2] /\
  saved o = Some 2 /\
  length (records (db_after o)) = 1%nat.
Proof. cbv zeta. repeat split; vm_compute; reflexivity. Qed.

(** ** Records from the wire can always be stored *)

Lemma all_from_spec (p : Z -> bool) (n : nat) (lo z : Z) :
  all_from p n lo = true -> lo <= z < lo + Z.of_nat n -> p z = true.
Proof.
  revert lo. induction n as [| n IH]; intros lo Hall Hz; [lia |].
  cbn [all_from] in Hall. apply andb_true_iff in Hall. destruct Hall as [Hlo Hrest].
  destruct (Z.eq_dec z lo) as [-> | Hne]; [exact Hlo |].
  apply (IH (lo + 1)); [exact Hrest | lia].
Qed.

(** Checked on each of the 65536 raw temperatures. *)
Lemma temp_always_converts (z : Z) : -32768 <= z < 32768 -> temp_converts z = true.
Proof.
  intros Hz. apply (all_from_spec temp_converts (Z.to_nat 65536) (-32768)).
  - vm_compute. reflexivity.
  - lia.
Qed.

(** Checked on each of the 256 raw battery readings. *)
Lemma battery_always_converts (z : Z) : 0 <= z < 256 -> battery_converts z = true.
Proof.
  intros Hz. apply (all_from_spec battery_converts (Z.to_nat 256) 0).
  - vm_compute. reflexivity.
  - lia.
Qed.

Lemma from_wire_storable (r : SensorRecord) : from_wire r -> storable r = true.
Proof.
  intros [Ht [Et [Hb Eb]]]. unfold storable. rewrite Et, Eb.
  pose proof (temp_always_converts _ Ht) as Ct.
  pose proof (battery_always_converts _ Hb) as Cb.
  unfold temp_converts in Ct. unfold battery_converts in Cb.
  destruct (int_of_float _); [| discriminate].
  destruct (int_of_float _); [reflexivity | discriminate].
Qed.

(** ** The sync-state table *)

Section SyncTable.

Lemma find_after_replace (l : list SyncRow) (m : string) (row : SyncRow) :
  s_mac row = m ->
  find (fun r => String.eqb (s_mac r) m)
       (filter (fun r => negb (String.eqb (s_mac r) m)) l ++ [row])
  = Some row.
Proof.
  intros Hm. induction l as [| a l IH]; simpl.
  - rewrite Hm, String.eqb_refl. reflexivity.
  - destruct (String.eqb (s_mac a) m) eqn:E; simpl; [exact IH |].
    rewrite E. exact IH.
Qed.

(** What is read back after [update_sync_state]: the sequence number and
    time just written, and the old total plus the new count. *)
Lemma get_after_update (db : DB) (m : string) (v n now : Z) :
  get_sync_state (update_sync_state db m v n now) m
  = mkState v now (total_synced (get_sync_state db m) + n).
Proof.
  unfold get_sync_state, update_sync_state. cbn [sync_state].
  rewrite find_after_replace by reflexivity. cbn.
  destruct (find (fun r => String.eqb (s_mac r) m) (sync_state db)); reflexivity.
Qed.

Lemma get_sync_state_ext (db db' : DB) (m : string) :
  sync_state db' = sync_state db -> get_sync_state db' m = get_sync_state db m.
Proof. intros H. unfold get_sync_state. rewrite H. reflexivity. Qed.

Lemma max_by_seq_in (rest : list SensorRecord) (best : SensorRecord) :
  In (max_by_seq best rest) (best :: rest).
Proof.
  revert best. induction rest as [| r rest IH]; intros best; simpl; [now left |].
  destruct (IH (if seq best <? seq r then r else best)) as [H | H].
  - rewrite <- H. destruct (seq best <? seq r); [right; now left | now left].
  - right. now right.
Qed.

Lemma store_received_nil (db : DB) (m : string) (now1 now2 : Z) :
  store_received db m [] now1 now2 = (None, db).
Proof. reflexivity. Qed.

(** The database after a non-empty batch was stored. *)
Lemma store_received_cons (db : DB) (m : string) (r0 : SensorRecord)
  (rest : list SensorRecord) (now1 now2 : Z) :
  store_received db m (r0 :: rest) now1 now2
  = (Some (fst (insert_records db m (r0 :: rest) (-50) now1)),
     update_sync_state (snd (insert_records db m (r0 :: rest) (-50) now1)) m
       (seq (max_by_seq r0 rest)) (Z.of_nat (length (r0 :: rest))) now2).
Proof.
  unfold store_received.
  destruct (insert_records db m (r0 :: rest) (-50) now1) as [inserted db1].
  reflexivity.
Qed.

Lemma store_received_sync (db : DB) (m : string) (recs : list SensorRecord)
  (now1 now2 : Z) (start_seq : Z) :
  Forall (fun r => start_seq <= seq r) recs -> recs <> [] ->
  let st := get_sync_state (snd (store_received db m recs now1 now2)) m in
  start_seq <= last_synced_seq st /\
  total_synced st = total_synced (get_sync_state db m) + Z.of_nat (length recs).
Proof.
  intros Hge Hne. destruct recs as [| r0 rest]; [contradiction |].
  cbn zeta. rewrite store_received_cons. cbn [snd].
  rewrite get_after_update. cbn [last_synced_seq total_synced].
  destruct (insert_records_table m (-50) now1 db (r0 :: rest)) as [_ [Hs _]].
  rewrite (get_sync_state_ext db _ m Hs).
  split; [| reflexivity].
  rewrite Forall_forall in Hge. apply Hge. apply max_by_seq_in.
Qed.

Lemma store_received_table (db : DB) (m : string) (recs : list SensorRecord)
  (now1 now2 : Z) :
  let db' := snd (store_received db m recs now1 now2) in
  (unique_keys (records db) -> unique_keys (records db')) /\
  Forall (fun r => storable r = true ->
                   existsb (has_key m (seq r)) (records db') = true) recs.
Proof.
  destruct recs as [| r0 rest]; [cbn; split; [auto | constructor] |].
  cbn zeta. rewrite store_received_cons. cbn [snd update_sync_state records].
  destruct (insert_records_table m (-50) now1 db (r0 :: rest)) as [Hu [_ [_ Hp]]].
  split; assumption.
Qed.

End SyncTable.

(** ** The polling loop *)

Section Loop.

Variables (start_seq : Z) (start_time : float).

Local Abbreviation handler := (notification_handler start_seq).
Local Abbreviation loop := (wait_loop start_seq start_time).

Lemma handler_counted (s : Session) (f : Frame) : counted s -> counted (handler s f).
Proof.
  intros [Hnn Hpos]. unfold counted, notification_handler.
  destruct (length (f_data f) =? 0)%nat; [split; assumption |].
  destruct (byte_at (f_data f) 0 =? PACKET_TYPE_HEADER).
  { destruct (3 <=? length (f_data f))%nat; cbn; split; assumption. }
  destruct (byte_at (f_data f) 0 =? PACKET_TYPE_DATA).
  { destruct (5 <=? length (f_data f))%nat; cbn; [| split; assumption].
    split; [lia | intros _; lia]. }
  destruct (byte_at (f_data f) 0 =? PACKET_TYPE_END);
    [destruct (2 <=? length (f_data f))%nat |]; cbn; split; assumption.
Qed.

Lemma handler_decoded_from (s : Session) (f : Frame) :
  decoded_from start_seq s -> decoded_from start_seq (handler s f).
Proof.
  unfold decoded_from. intros Hs.
  destruct (handler_appends start_seq s f) as [new [-> [Hge Hw]]].
  apply Forall_app. split; [exact Hs |].
  rewrite Forall_forall in *. intros r Hr. split; auto.
Qed.

(** Once set, the completion flag stays set. *)
Lemma handler_flag_stays (s : Session) (f : Frame) :
  transfer_complete s = true -> transfer_complete (handler s f) = true.
Proof.
  intros Ht. unfold notification_handler.
  repeat match goal with
         | |- context [if ?c then _ else _] => destruct c
         end; cbn; auto.
Qed.

Lemma deliver_preserves (P : Session -> Prop) :
  (forall s f, P s -> P (handler s f)) ->
  forall frames s, P s -> P (deliver start_seq s frames).
Proof.
  intros Hstep frames. induction frames as [| f frames IH]; intros s Hs; [exact Hs |].
  apply IH. apply Hstep. exact Hs.
Qed.

Lemma poll_cases (now : float) (s : Session) (e : LoopExit) (s' : Session) :
  poll start_time now s = Some (e, s') ->
  received_records s' = received_records s /\
  transfer_stats s' = transfer_stats s /\
  (e = ExitTimeout -> s' = s) /\
  (e <> ExitTimeout -> transfer_complete s' = true).
Proof.
  unfold poll. destruct (transfer_complete s) eqn:Et.
  { intros [= <- <-]. repeat split; auto; discriminate. }
  destruct (_ && _).
  { intros [= <- <-]. repeat split; auto; discriminate. }
  destruct (PrimFloat.ltb _ _); [| discriminate].
  intros [= <- <-]. repeat split; auto; try (intros H; now contradiction H).
Qed.

(** The idle window has elapsed and a record is there: the loop is left by
    one of its first two exits. *)
Lemma poll_idle (now : float) (s : Session) :
  counted s -> received_records s <> [] ->
  PrimFloat.ltb idle_timeout (PrimFloat.sub now (last_packet_time s)) = true ->
  exists e s',
    poll start_time now s = Some (e, s') /\ state_of_exit e = Complete /\
    transfer_complete s' = true /\ received_records s' = received_records s.
Proof.
  intros [_ Hpos] Hne Hidle. unfold poll.
  destruct (transfer_complete s) eqn:Et.
  - exists ExitComplete, s. repeat split; auto.
  - rewrite Hidle.
    assert (Hd : (0 <? data_packets (transfer_stats s)) = true)
      by (apply Z.ltb_lt; auto).
    rewrite Hd. cbn [andb].
    eexists ExitIdle, _. repeat split.
Qed.

Lemma wait_loop_app (pre evs : list Event) (s s' : Session) :
  loop pre s = Waiting s' -> loop (pre ++ evs) s = loop evs s'.
Proof.
  revert s. induction pre as [| ev pre IH]; intros s; simpl.
  - intros [= ->]. reflexivity.
  - destruct ev as [f | now].
    + apply IH.
    + destruct (poll start_time now s) as [[e s1] |]; [discriminate | apply IH].
Qed.

Lemma wait_loop_waiting (P : Session -> Prop) :
  (forall s f, P s -> P (handler s f)) ->
  forall evs s s', P s -> loop evs s = Waiting s' -> P s'.
Proof.
  intros Hstep evs. induction evs as [| ev evs IH]; intros s s' Hs; simpl.
  - intros [= <-]. exact Hs.
  - destruct ev as [f | now].
    + apply IH. apply Hstep. exact Hs.
    + destruct (poll start_time now s) as [[e s1] |]; [discriminate |].
      apply IH. exact Hs.
Qed.

Lemma wait_loop_exited (P : Session -> Prop) :
  (forall s f, P s -> P (handler s f)) ->
  (forall now s e s', P s -> poll start_time now s = Some (e, s') -> P s') ->
  forall evs s e s' rest, P s -> loop evs s = Exited e s' rest -> P s'.
Proof.
  intros Hstep Hpoll evs. induction evs as [| ev evs IH]; intros s e s' rest Hs; simpl.
  - discriminate.
  - destruct ev as [f | now].
    + apply IH. apply Hstep. exact Hs.
    + destruct (poll start_time now s) as [[e1 s1] |] eqn:Ep.
      * intros [= <- <- <-]. eapply Hpoll; eassumption.
      * apply IH. exact Hs.
Qed.

Lemma poll_decoded_from (now : float) (s : Session) (e : LoopExit) (s' : Session) :
  decoded_from start_seq s -> poll start_time now s = Some (e, s') ->
  decoded_from start_seq s'.
Proof.
  intros Hs Hp. apply poll_cases in Hp. destruct Hp as [Hr _].
  unfold decoded_from. rewrite Hr. exact Hs.
Qed.

(** While frames keep the idle reference fresh and none of them completes
    the transfer, the loop can be left by the hard timeout only. *)
Lemma kept_alive_exit (evs : list Event) (s : Session) :
  transfer_complete s = false ->
  kept_alive (last_packet_time s) evs = true ->
  no_completion evs = true ->
  forall e s' rest, loop evs s = Exited e s' rest -> e = ExitTimeout.
Proof.
  revert s. induction evs as [| ev evs IH]; intros s Ht Hk Hn e s' rest; simpl.
  - discriminate.
  - cbn [no_completion forallb] in Hn. apply andb_true_iff in Hn.
    destruct Hn as [Hev Hn]. destruct ev as [f | now].
    + apply IH; [| | exact Hn].
      * rewrite handler_keeps_flag; [exact Ht |].
        destruct (completes (f_data f)); [discriminate | reflexivity].
      * cbn [kept_alive] in Hk.
        destruct (Nat.eqb_spec (length (f_data f)) 0) as [H0 | Hn0].
        -- rewrite handler_empty; [exact Hk |].
           destruct (f_data f); [reflexivity | discriminate].
        -- rewrite handler_last_packet_time; [exact Hk |].
           intros E. rewrite E in Hn0. now apply Hn0.
    + cbn [kept_alive] in Hk. apply andb_true_iff in Hk. destruct Hk as [Hfresh Hk].
      apply negb_true_iff in Hfresh.
      unfold poll. rewrite Ht, Hfresh. cbn [andb].
      destruct (PrimFloat.ltb timeout (PrimFloat.sub now start_time)).
      * intros [= <- _ _]. reflexivity.
      * apply IH; assumption.
Qed.

(** ... and it is left by the hard timeout when the trace runs past it. *)
Lemma kept_alive_times_out (evs : list Event) (s : Session) :
  transfer_complete s = false ->
  kept_alive (last_packet_time s) evs = true ->
  no_completion evs = true ->
  past_timeout start_time evs = true ->
  exists s' rest, loop evs s = Exited ExitTimeout s' rest.
Proof.
  revert s. induction evs as [| ev evs IH]; intros s Ht Hk Hn Hp; simpl.
  - discriminate.
  - cbn [no_completion forallb] in Hn. apply andb_true_iff in Hn.
    destruct Hn as [Hev Hn]. cbn [past_timeout existsb] in Hp.
    destruct ev as [f | now].
    + cbn [orb] in Hp. apply IH; [| | exact Hn | exact Hp].
      * rewrite handler_keeps_flag; [exact Ht |].
        destruct (completes (f_data f)); [discriminate | reflexivity].
      * cbn [kept_alive] in Hk.
        destruct (Nat.eqb_spec (length (f_data f)) 0) as [H0 | Hn0].
        -- rewrite handler_empty; [exact Hk |].
           destruct (f_data f); [reflexivity | discriminate].
        -- rewrite handler_last_packet_time; [exact Hk |].
           intros E. rewrite E in Hn0. now apply Hn0.
    + cbn [kept_alive] in Hk. apply andb_true_iff in Hk. destruct Hk as [Hfresh Hk].
      apply negb_true_iff in Hfresh.
      unfold poll. rewrite Ht, Hfresh. cbn [andb].
      destruct (PrimFloat.ltb timeout (PrimFloat.sub now start_time)) eqn:Eto.
      * eexists _, _. reflexivity.
      * cbn [orb] in Hp. apply IH; assumption.
Qed.

End Loop.

(** ** The download session *)

Section Download.

Variables (env : Env) (db : DB).

Local Abbreviation m := (device_address env).

Lemma entry_counted (start_seq : Z) : counted (session_at_loop_entry env start_seq).
Proof.
  unfold session_at_loop_entry. cbn zeta.
  assert (H : counted (deliver start_seq
                         (mkSession false (subscribe_time env) initial_stats [] [])
                         (early_frames env))).
  { apply deliver_preserves; [apply handler_counted |].
    split; cbn; [lia | intros H; now contradiction H]. }
  exact H.
Qed.

Lemma entry_decoded_from (start_seq : Z) :
  decoded_from start_seq (session_at_loop_entry env start_seq).
Proof.
  unfold session_at_loop_entry. cbn zeta.
  assert (H : decoded_from start_seq
                (deliver start_seq
                   (mkSession false (subscribe_time env) initial_stats [] [])
                   (early_frames env))).
  { apply deliver_preserves; [apply handler_decoded_from | constructor]. }
  exact H.
Qed.

(** The resume point, spelled out. *)
Lemma resume_point_eq (sync : SyncState) (device_total : Z) :
  resume_point sync device_total
  = (Z.max (last_synced_seq sync) (-1) + 1,
     device_total - (Z.max (last_synced_seq sync) (-1) + 1)).
Proof. reflexivity. Qed.

Variable st : Status.
Hypothesis Hchars : chars_found env = true.
Hypothesis Hstatus : get_storage_status env = Some st.

Local Abbreviation start_index :=
  (fst (resume_point (get_sync_state db m) (total st))).
Local Abbreviation to_download :=
  (snd (resume_point (get_sync_state db m) (total st))).

Lemma download_data_synced :
  to_download <= 0 ->
  download_data env db = mkOutcome (Some true) AlreadySynced db [] None None.
Proof.
  intros Hle. unfold download_data. rewrite Hchars, Hstatus. cbn [negb].
  destruct (resume_point (get_sync_state db m) (total st)) as [a b].
  cbn [snd] in Hle. destruct (Z.leb_spec b 0); [reflexivity | lia].
Qed.

Lemma download_data_waiting (s : Session) :
  0 < to_download ->
  wait_loop start_index (start_time env) (events env)
    (session_at_loop_entry env start_index) = Waiting s ->
  download_data env db
  = mkOutcome None StillWaiting db [start_cmd start_index] (Some s) None.
Proof.
  intros Hpos. unfold download_data. rewrite Hchars, Hstatus. cbn [negb].
  destruct (resume_point (get_sync_state db m) (total st)) as [a b].
  cbn [fst snd] in *. destruct (Z.leb_spec b 0); [lia |].
  intros ->. reflexivity.
Qed.

Lemma download_data_finished (e : LoopExit) (s3 : Session) (rest : list Event) :
  0 < to_download ->
  wait_loop start_index (start_time env) (events env)
    (session_at_loop_entry env start_index) = Exited e s3 rest ->
  download_data env db
  = let s4 := deliver start_index s3 (late_frames env) in
    let stored := store_received db m (received_records s4)
                    (insert_now env) (update_now env) in
    mkOutcome (Some (0 <? Z.of_nat (length (received_records s4)))) (Finished e)
      (snd stored)
      (match e with
       | ExitTimeout => [start_cmd start_index; stop_cmd]
       | _ => [start_cmd start_index]
       end)
      (Some s4) (fst stored).
Proof.
  intros Hpos. unfold download_data. rewrite Hchars, Hstatus. cbn [negb].
  destruct (resume_point (get_sync_state db m) (total st)) as [a b].
  cbn [fst snd] in *. destruct (Z.leb_spec b 0); [lia |].
  intros ->. cbn zeta.
  destruct (store_received db (device_address env) _ _ _) as [inserted db'].
  reflexivity.
Qed.

End Download.

(** A download never lowers the persisted sequence number of its device. *)
Lemma download_data_advances (env : Env) (db : DB) :
  last_synced_seq (get_sync_state db (device_address env))
  <= last_synced_seq
       (get_sync_state (db_after (download_data env db)) (device_address env)).
Proof.
  destruct (chars_found env) eqn:Hc;
    [| unfold download_data; rewrite Hc; cbn; lia].
  destruct (get_storage_status env) as [st |] eqn:Hs;
    [| unfold download_data; rewrite Hc, Hs; cbn; lia].
  pose proof (download_data_synced env db st Hc Hs) as Hsynced.
  pose proof (download_data_waiting env db st Hc Hs) as Hwaiting.
  pose proof (download_data_finished env db st Hc Hs) as Hfinished.
  pose proof (resume_point_eq (get_sync_state db (device_address env)) (total st)) as Hrp.
  remember (device_address env) as m eqn:Hm.
  remember (resume_point (get_sync_state db m) (total st)) as rp eqn:Erp.
  destruct rp as [start n]. cbn [fst snd] in *. injection Hrp as Hstart Hn.
  destruct (Z.le_gt_cases n 0) as [Hle | Hgt].
  { rewrite (Hsynced Hle). cbn. lia. }
  destruct (wait_loop start (start_time env) (events env)
              (session_at_loop_entry env start)) as [s | e s3 rest] eqn:Hw.
  { rewrite (Hwaiting s Hgt eq_refl). cbn. lia. }
  rewrite (Hfinished e s3 rest Hgt eq_refl).
  cbn zeta. cbn [db_after].
  assert (Hd : decoded_from start (deliver start s3 (late_frames env))).
  { apply deliver_preserves; [apply handler_decoded_from |].
    eapply (wait_loop_exited start (start_time env) (decoded_from start));
      [apply handler_decoded_from | apply poll_decoded_from | | exact Hw].
    apply entry_decoded_from. }
  destruct (received_records (deliver start s3 (late_frames env))) as [| r0 recs] eqn:Er.
  { cbn. lia. }
  assert (Hge : Forall (fun r => start <= seq r) (r0 :: recs)).
  { unfold decoded_from in Hd. rewrite Er in Hd.
    rewrite Forall_forall in *. intros r Hr. apply Hd. exact Hr. }
  destruct (store_received_sync db m (r0 :: recs) (insert_now env) (update_now env)
              start Hge) as [Hlast _]; [discriminate |].
  lia.
Qed.

Lemma find_other_device (l : list SyncRow) (m m' : string) (row : SyncRow) :
  s_mac row = m -> m' <> m ->
  find (fun r => String.eqb (s_mac r) m')
       (filter (fun r => negb (String.eqb (s_mac r) m)) l ++ [row])
  = find (fun r => String.eqb (s_mac r) m') l.
Proof.
  intros Hm Hne. induction l as [| a l IH]; simpl.
  - rewrite Hm. destruct (String.eqb_spec m m'); [congruence | reflexivity].
  - destruct (String.eqb_spec (s_mac a) m) as [Ea | Ea]; simpl.
    + destruct (String.eqb_spec (s_mac a) m'); [congruence | exact IH].
    + destruct (String.eqb (s_mac a) m'); [reflexivity | exact IH].
Qed.

(** ** Resume point and sync state *)

(** The resume computation for any table content: with stored
    [last_synced_seq = S] and device total [T],
    [start_index = max(S, -1) + 1] and [to_download = T - max(S, -1) - 1],
    which are [S + 1] and [T - S - 1] whenever [S >= -1]. When
    [to_download <= 0] the session returns success with the database
    untouched and nothing written to the device; otherwise the first thing
    written to the device is START with [start_index]. *)
Lemma resume_point_clamped (env : Env) (db : DB) (st : Status) :
  chars_found env = true ->
  get_storage_status env = Some st ->
  let S := last_synced_seq (get_sync_state db (device_address env)) in
  let T := total st in
  let start_index := fst (resume_point (get_sync_state db (device_address env)) T) in
  let to_download := snd (resume_point (get_sync_state db (device_address env)) T) in
  start_index = Z.max S (-1) + 1 /\
  to_download = T - Z.max S (-1) - 1 /\
  (-1 <= S -> start_index = S + 1 /\ to_download = T - S - 1) /\
  (to_download <= 0 ->
   download_data env db = mkOutcome (Some true) AlreadySynced db [] None None) /\
  (0 < to_download ->
   hd_error (control_writes (download_data env db)) = Some (start_cmd start_index)).
Proof.
  intros Hc Hs. cbn zeta.
  pose proof (download_data_synced env db st Hc Hs) as Hsynced.
  pose proof (download_data_waiting env db st Hc Hs) as Hwaiting.
  pose proof (download_data_finished env db st Hc Hs) as Hfinished.
  rewrite resume_point_eq in *. cbn [fst snd] in *.
  split; [reflexivity |]. split; [lia |]. split; [intros HS; lia |].
  split; [exact Hsynced |].
  intros Hpos.
  set (start := Z.max (last_synced_seq (get_sync_state db (device_address env))) (-1) + 1)
    in *.
  destruct (wait_loop start (start_time env) (events env)
              (session_at_loop_entry env start)) as [s | e s3 rest] eqn:Hw.
  - rewrite (Hwaiting s Hpos eq_refl). reflexivity.
  - rewrite (Hfinished e s3 rest Hpos eq_refl). cbn zeta. cbn [control_writes].
    destruct e; reflexivity.
Qed.

(** C3 (the claim as stated fails). After a commit with sequence number 5, a
    commit with the lower sequence number 3 leaves 3 in the table. *)
Lemma update_sync_state_lowers :
  let db1 := update_sync_state Samples.empty_db "AA:BB" 5 6 100 in
  let db2 := update_sync_state db1 "AA:BB" 3 1 200 in
  last_synced_seq (get_sync_state db1 "AA:BB") = 5 /\
  last_synced_seq (get_sync_state db2 "AA:BB") = 3 /\
  3 < 5.
Proof. cbv zeta. repeat split. Qed.

(** C3, amended. [update_sync_state] replaces the persisted
    [last_synced_seq] of the device by the value it is given, whatever was
    there, adds [imported_count] to [total_synced], and leaves other devices
    alone. What [download_data] commits is never below what it read when it
    started: after a download the persisted [last_synced_seq] of the device
    is at least what it was before. *)
Theorem sync_state_overwritten_sessions_advance
  (db : DB) (m m' : string) (v n now : Z) (env : Env) :
  get_sync_state (update_sync_state db m v n now) m
  = mkState v now (total_synced (get_sync_state db m) + n) /\
  (m' <> m -> get_sync_state (update_sync_state db m v n now) m' = get_sync_state db m') /\
  last_synced_seq (get_sync_state db (device_address env))
  <= last_synced_seq
       (get_sync_state (db_after (download_data env db)) (device_address env)).
Proof.
  split; [apply get_after_update |]. split; [| apply download_data_advances].
  intros Hne. unfold get_sync_state, update_sync_state. cbn [sync_state].
  rewrite find_other_device by auto. reflexivity.
Qed.

(** ** Idle window and hard timeout *)

(** The idle exit runs the same commit as the END exit. The session is in
    its polling loop after the events [pre], holding at least one record; the
    loop wakes up more than [idle_timeout] seconds after the last non-empty
    frame. Then [download_data] ends in [Complete] (not by the hard timeout:
    no STOP is written), with [transfer_complete] set; every record received
    up to then is in the batch handed to [insert_records], the sync state is
    advanced by the size of that batch, the function returns success, and in
    a store that satisfies its uniqueness constraint the key of each record
    of the batch is stored exactly once afterwards. Records that share a key
    share that one row. *)
Lemma idle_window_completes_and_commits
  (env : Env) (db : DB) (st : Status) (pre rest : list Event) (now : float) (s : Session) :
  chars_found env = true ->
  get_storage_status env = Some st ->
  let m := device_address env in
  let start_index := fst (resume_point (get_sync_state db m) (total st)) in
  0 < snd (resume_point (get_sync_state db m) (total st)) ->
  events env = pre ++ Wake now :: rest ->
  wait_loop start_index (start_time env) pre (session_at_loop_entry env start_index)
  = Waiting s ->
  received_records s <> [] ->
  PrimFloat.ltb idle_timeout (PrimFloat.sub now (last_packet_time s)) = true ->
  let o := download_data env db in
  exists e final,
    terminal o = Finished e /\ state_of_exit e = Complete /\
    session o = Some final /\ transfer_complete final = true /\
    control_writes o = [start_cmd start_index] /\
    (exists late, received_records final = received_records s ++ late) /\
    db_after o
    = snd (store_received db m (received_records final) (insert_now env) (update_now env)) /\
    total_synced (get_sync_state (db_after o) m)
    = total_synced (get_sync_state db m) + Z.of_nat (length (received_records final)) /\
    (unique_keys (records db) ->
     Forall (fun r => count_key m (seq r) (records (db_after o)) = 1%nat)
       (received_records final)) /\
    result o = Some true.
Proof.
  intros Hc Hs. cbn zeta.
  pose proof (download_data_finished env db st Hc Hs) as Hfinished.
  remember (device_address env) as m eqn:Hm.
  remember (fst (resume_point (get_sync_state db m) (total st))) as start eqn:Hstart.
  intros Hpos Hev Hpre Hne Hidle.
  assert (Hcnt : counted s).
  { eapply (wait_loop_waiting start (start_time env) counted);
      [apply handler_counted | | exact Hpre]. apply entry_counted. }
  assert (Hdec : decoded_from start s).
  { eapply (wait_loop_waiting start (start_time env) (decoded_from start));
      [apply handler_decoded_from | | exact Hpre]. apply entry_decoded_from. }
  destruct (poll_idle (start_time env) now s Hcnt Hne Hidle)
    as [e [s3 [Hpoll [Hstate [Hflag Hrecs]]]]].
  assert (Hw : wait_loop start (start_time env) (events env)
                 (session_at_loop_entry env start) = Exited e s3 rest).
  { rewrite Hev, (wait_loop_app start (start_time env) pre _ _ s Hpre).
    cbn [wait_loop]. rewrite Hpoll. reflexivity. }
  rewrite (Hfinished e s3 rest Hpos Hw). cbn zeta.
  set (final := deliver start s3 (late_frames env)).
  destruct (deliver_appends start (late_frames env) s3) as [late [Hlate _]].
  fold final in Hlate. rewrite Hrecs in Hlate.
  assert (Hfne : received_records final <> []).
  { rewrite Hlate. destruct (received_records s); [contradiction | discriminate]. }
  assert (Hfdec : decoded_from start final).
  { apply deliver_preserves; [apply handler_decoded_from |].
    unfold decoded_from. rewrite Hrecs. exact Hdec. }
  exists e, final. cbn [terminal session control_writes db_after result].
  split; [reflexivity |]. split; [exact Hstate |]. split; [reflexivity |].
  split.
  { apply (deliver_preserves start (fun x => transfer_complete x = true));
      [apply handler_flag_stays | exact Hflag]. }
  split; [destruct e; [reflexivity | reflexivity | discriminate] |].
  split; [exists late; exact Hlate |].
  split; [reflexivity |].
  split.
  { assert (Hge : Forall (fun r => start <= seq r) (received_records final)).
    { unfold decoded_from in Hfdec. rewrite Forall_forall in *.
      intros r Hr. apply Hfdec. exact Hr. }
    apply (store_received_sync db m _ (insert_now env) (update_now env) start Hge Hfne). }
  split.
  { intros Hu.
    destruct (store_received_table db m (received_records final)
                (insert_now env) (update_now env)) as [Hu' Hp].
    unfold decoded_from in Hfdec. rewrite Forall_forall in *.
    intros r Hr. apply unique_present_once; [apply Hu'; exact Hu |].
    apply Hp; [exact Hr |]. apply from_wire_storable. apply Hfdec. exact Hr. }
  f_equal. apply Z.ltb_lt.
  destruct (received_records final); [contradiction | cbn; lia].
Qed.

Lemma idle_window_completes_and_commits_witness :
  let env := Samples.idle_env in
  let db := Samples.empty_db in
  let s := notification_handler 0 (session_at_loop_entry env 0)
             (Samples.frame_at 1%float Samples.two_records) in
  let o := download_data env db in
  exists e final,
    terminal o = Finished e /\ state_of_exit e = Complete /\
    session o = Some final /\ transfer_complete final = true /\
    control_writes o
    = [start_cmd (fst (resume_point (get_sync_state db (device_address env))
                         (total (mkStatus 10 0))))] /\
    (exists late, received_records final = received_records s ++ late) /\
    db_after o
    = snd (store_received db (device_address env) (received_records final)
             (insert_now env) (update_now env)) /\
    total_synced (get_sync_state (db_after o) (device_address env))
    = total_synced (get_sync_state db (device_address env))
      + Z.of_nat (length (received_records final)) /\
    (unique_keys (records db) ->
     Forall (fun r => count_key (device_address env) (seq r) (records (db_after o)) = 1%nat)
       (received_records final)) /\
    result o = Some true.
Proof.
  cbv zeta.
  apply (idle_window_completes_and_commits Samples.idle_env Samples.empty_db
           (mkStatus 10 0)
           [Notify (Samples.frame_at 1%float Samples.two_records); Wake 1.5%float]
           [] 4.5%float
           (notification_handler 0 (session_at_loop_entry Samples.idle_env 0)
              (Samples.frame_at 1%float Samples.two_records))).
  - reflexivity.
  - reflexivity.
  - vm_compute. reflexivity.
  - reflexivity.
  - vm_compute. reflexivity.
  - vm_compute. discriminate.
  - vm_compute. reflexivity.
Defined.

(** ** Termination of the polling loop *)

(** Whatever arrives, a wake-up later than [timeout] seconds after the start
    ends the loop (at that wake-up or before). *)
Lemma wait_loop_terminates (start_seq : Z) (start_time : float) (evs : list Event)
  (s : Session) :
  past_timeout start_time evs = true ->
  exists e s' rest, wait_loop start_seq start_time evs s = Exited e s' rest.
Proof.
  revert s. induction evs as [| ev evs IH]; intros s Hp; [discriminate |].
  cbn [past_timeout existsb] in Hp. destruct ev as [f | now]; cbn [wait_loop].
  - apply IH. exact Hp.
  - unfold poll. destruct (transfer_complete s); [eexists _, _, _; reflexivity |].
    destruct (_ && _); [eexists _, _, _; reflexivity |].
    destruct (PrimFloat.ltb timeout (PrimFloat.sub now start_time));
      [eexists _, _, _; reflexivity |].
    apply IH. exact Hp.
Qed.

(** ** Scenarios of the specification *)

(** Scenario A: [device_total = 10], [last_synced_seq = -1]. *)
Example scenario_A :
  resume_point (get_sync_state Samples.empty_db "AA:BB") 10 = (0, 10).
Proof. reflexivity. Qed.

(** Scenario B: the HEADER frame [00 00 1E]. *)
Example scenario_B :
  interval_sec (transfer_stats
                  (notification_handler 0 Samples.fresh
                     (Samples.frame_at 1%float [x00; x00; x1e])))
  = Some 30.
Proof. reflexivity. Qed.

(** Scenario E: nothing to download. *)
Example scenario_E :
  download_data Samples.idle_env Samples.synced_db
  = mkOutcome (Some true) AlreadySynced Samples.synced_db [] None None.
Proof. reflexivity. Qed.

(** A frame that holds both announced records decodes to two records, 30.0
    and -2.0 degrees. *)
Example two_records_decoded :
  map (fun r => (seq r, temp_raw (fields r), press_kpa r, humidity_pct r, bat_raw (fields r)))
    (received_records
       (notification_handler 4 Samples.fresh (Samples.frame_at 1%float Samples.two_records)))
  = [(4, 300, 101, 50, 33); (5, -20, 100, 49, 32)].
Proof. reflexivity. Qed.

(** * Further properties of the code *)

(** ** Codec round trips and bounds *)

Lemma b2z_z2b (v : Z) : 0 <= v < 256 -> b2z (z2b v) = v.
Proof.
  intros Hv. unfold z2b, b2z.
  destruct (Byte.of_N (Z.to_N v)) as [b |] eqn:E.
  - apply Byte.to_of_N in E. rewrite E. lia.
  - apply Byte.of_N_None_iff in E. lia.
Qed.

Lemma z2b_b2z (b : byte) : z2b (b2z b) = b.
Proof.
  unfold z2b, b2z. rewrite N2Z.id, Byte.of_to_N. reflexivity.
Qed.

Lemma low_byte (v : Z) : Z.land v 255 = v mod 256.
Proof. change 255 with (Z.ones 8). rewrite Z.land_ones by lia. reflexivity. Qed.

Lemma high_byte (v : Z) : Z.land (Z.shiftr v 8) 255 = (v / 256) mod 256.
Proof. rewrite low_byte, Z.shiftr_div_pow2 by lia. reflexivity. Qed.

Lemma parse_after_encode (v : Z) :
  parse_uint16_be (encode_uint16_be v) 0 = Some (v mod 65536).
Proof.
  rewrite parse_uint16_be_some by (cbn; lia).
  unfold encode_uint16_be, byte_at. cbn [nth Nat.add].
  rewrite high_byte, low_byte.
  pose proof (Z.mod_pos_bound (v / 256) 256 ltac:(lia)).
  pose proof (Z.mod_pos_bound v 256 ltac:(lia)).
  rewrite !b2z_z2b by lia. f_equal.
  change 65536 with (256 * 256). rewrite Z.rem_mul_r by lia. lia.
Qed.

(** X1. [encode_uint16_be] always yields two bytes, and [parse_uint16_be]
    reads them back as the value modulo 65536; the two bytes that parse to
    a value are the ones that value encodes to. *)
Theorem uint16_be_round_trip :
  (forall v, length (encode_uint16_be v) = 2%nat /\
             parse_uint16_be (encode_uint16_be v) 0 = Some (v mod 65536)) /\
  (forall x y v, parse_uint16_be [x; y] 0 = Some v -> encode_uint16_be v = [x; y]).
Proof.
  split.
  - intros v. split; [reflexivity | apply parse_after_encode].
  - intros x y v Hp. rewrite parse_uint16_be_some in Hp by (cbn; lia).
    unfold byte_at in Hp. cbn [nth Nat.add] in Hp. injection Hp as <-.
    pose proof (b2z_range x). pose proof (b2z_range y).
    unfold encode_uint16_be. rewrite high_byte, low_byte.
    replace ((b2z x * 256 + b2z y) / 256) with (b2z x)
      by (rewrite Z.div_add_l by lia; rewrite Z.div_small by lia; lia).
    replace ((b2z x * 256 + b2z y) mod 256) with (b2z y)
      by (rewrite Z.add_comm, Z.mod_add by lia; rewrite Z.mod_small by lia; lia).
    rewrite Z.mod_small by lia. rewrite !z2b_b2z. reflexivity.
Qed.

(** X2. A status reply is refused exactly when it is shorter than four
    bytes; otherwise [total] and [last_sent] are the big-endian readings of
    bytes 0-1 and 2-3, both between 0 and 65535, and further bytes are
    ignored. *)
Theorem parse_status_fields (data : bytes) :
  match parse_status data with
  | None => (length data < 4)%nat
  | Some st =>
      (4 <= length data)%nat /\
      total st = be_u16 (slice data 0 2) /\ last_sent st = be_u16 (slice data 2 4) /\
      0 <= total st < 65536 /\ 0 <= last_sent st < 65536 /\
      parse_status (firstn 4 data) = Some st
  end.
Proof.
  unfold parse_status.
  destruct (Nat.ltb_spec (length data) 4) as [Hlt | Hge]; [exact Hlt |].
  rewrite !parse_uint16_be_some by lia. cbn [total last_sent Nat.add].
  change (slice data 0 2) with (slice data 0 (0 + 2)).
  change (slice data 2 4) with (slice data 2 (2 + 2)).
  rewrite !slice_two by lia. rewrite !be_u16_pair. unfold byte_at. cbn [Nat.add].
  pose proof (b2z_range (nth 0 data x00)). pose proof (b2z_range (nth 1 data x00)).
  pose proof (b2z_range (nth 2 data x00)). pose proof (b2z_range (nth 3 data x00)).
  repeat split; try lia.
  assert (Hl : length (firstn 4 data) = 4%nat) by (rewrite length_firstn; lia).
  rewrite Hl. cbn [Nat.ltb Nat.leb].
  rewrite !parse_uint16_be_some by lia. unfold byte_at. cbn [Nat.add].
  rewrite !nth_firstn. cbn [Nat.ltb Nat.leb]. reflexivity.
Qed.

(** X3. [parse_sensor_record] refuses exactly the offsets with fewer than six
    bytes left; a record it returns has a raw temperature in the signed
    16-bit range, a pressure in the unsigned 16-bit range, humidity and
    battery in 0..255, and its converted fields agree with its raw ones. *)
Theorem parse_sensor_record_bounds (data : bytes) (offset : nat) :
  match parse_sensor_record data offset with
  | None => (length data < offset + 6)%nat
  | Some raw =>
      (offset + 6 <= length data)%nat /\
      -32768 <= temp_raw raw < 32768 /\
      0 <= press_raw raw < 65536 /\
      0 <= hum_raw raw < 256 /\
      0 <= bat_raw raw < 256 /\
      raw_press_kpa raw = press_raw raw /\
      raw_humidity_pct raw = hum_raw raw /\
      raw_temp_c raw = PrimFloat.div (float_of_Z (temp_raw raw)) 10%float /\
      raw_battery_v raw = PrimFloat.div (float_of_Z (bat_raw raw)) 10%float
  end.
Proof.
  destruct (Nat.le_gt_cases (offset + 6) (length data)) as [Hfit | Hshort].
  - rewrite parse_sensor_record_some by exact Hfit. cbn zeta.
    cbn [temp_raw press_raw hum_raw bat_raw raw_press_kpa raw_humidity_pct
         raw_temp_c raw_battery_v].
    pose proof (unpack_int16_be_range data offset).
    pose proof (byte_at_range data (offset + 2)).
    pose proof (byte_at_range data (offset + 3)).
    pose proof (byte_at_range data (offset + 4)).
    pose proof (byte_at_range data (offset + 5)).
    repeat split; lia.
  - rewrite parse_sensor_record_none by exact Hshort. exact Hshort.
Qed.

(** ** What one frame can change *)

Ltac frame_cases data :=
  unfold undecodable in *;
  unfold notification_handler, completes, carries_records, carries_header,
    PACKET_TYPE_HEADER, PACKET_TYPE_DATA, PACKET_TYPE_END in *;
  destruct (Nat.eqb_spec (length data) 0);
  destruct (Z.eqb_spec (byte_at data 0) 0);
  destruct (Z.eqb_spec (byte_at data 0) 1);
  destruct (Z.eqb_spec (byte_at data 0) 2);
  destruct (Nat.leb_spec 3 (length data));
  destruct (Nat.leb_spec 5 (length data));
  destruct (Nat.leb_spec 2 (length data));
  cbn [negb andb orb] in *; try lia; try discriminate.

(** A frame that does not enter the record loop leaves the records and the
    DATA counters alone. *)
Lemma handler_without_records (start_seq : Z) (s : Session) (f : Frame) :
  carries_records (f_data f) = false ->
  received_records (notification_handler start_seq s f) = received_records s /\
  data_packets (transfer_stats (notification_handler start_seq s f))
  = data_packets (transfer_stats s) /\
  total_records (transfer_stats (notification_handler start_seq s f))
  = total_records (transfer_stats s).
Proof.
  intros Hc. destruct s as [tc lpt [hr tr dp er iv] recs out].
  frame_cases (f_data f); repeat split.
Qed.

(** X4. The handler sets [transfer_complete] exactly on an END frame of two
    bytes or more and never clears it; records are added and the DATA
    counters move only on a DATA frame of five bytes or more; the header
    fields move only on a HEADER frame of three bytes or more. *)
Theorem handler_effects (start_seq : Z) (s : Session) (f : Frame) :
  let s' := notification_handler start_seq s f in
  transfer_complete s' = transfer_complete s || completes (f_data f) /\
  end_received (transfer_stats s')
  = end_received (transfer_stats s) || completes (f_data f) /\
  (carries_records (f_data f) = false ->
   received_records s' = received_records s /\
   data_packets (transfer_stats s') = data_packets (transfer_stats s) /\
   total_records (transfer_stats s') = total_records (transfer_stats s)) /\
  (carries_header (f_data f) = false ->
   header_received (transfer_stats s') = header_received (transfer_stats s) /\
   interval_sec (transfer_stats s') = interval_sec (transfer_stats s)).
Proof.
  cbn zeta. destruct s as [tc lpt [hr tr dp er iv] recs out].
  frame_cases (f_data f); cbn;
    repeat split; intros; try discriminate; try reflexivity;
    rewrite ?orb_false_r, ?orb_true_r; reflexivity.
Qed.

(** X5. A frame that is not empty but has an unknown packet type, or a known
    type and too few bytes for it, is dropped: it moves the idle reference
    and changes nothing else. *)
Theorem undecodable_frame_dropped (start_seq : Z) (s : Session) (f : Frame) :
  undecodable (f_data f) = true ->
  notification_handler start_seq s f
  = mkSession (transfer_complete s) (f_now f) (transfer_stats s) (received_records s)
      (printed s).
Proof.
  intros Hu. frame_cases (f_data f); reflexivity.
Qed.

Lemma undecodable_frame_dropped_witness :
  notification_handler 3 Samples.fresh (Samples.frame_at 2%float Samples.unknown_frame)
  = mkSession (transfer_complete Samples.fresh) 2%float (transfer_stats Samples.fresh)
      (received_records Samples.fresh) (printed Samples.fresh).
Proof.
  apply (undecodable_frame_dropped 3 Samples.fresh
           (Samples.frame_at 2%float Samples.unknown_frame)).
  reflexivity.
Defined.

(** X6. A HEADER frame of three bytes or more records that a header was seen
    and stores [interval_sec = be_u16(data[1:3])]; it touches neither the
    records, nor the DATA counters, nor the completion flag. *)
Theorem header_frame_interval (start_seq : Z) (s : Session) (f : Frame) :
  carries_header (f_data f) = true ->
  let interval := Some (be_u16 (slice (f_data f) 1 3)) in
  notification_handler start_seq s f
  = mkSession (transfer_complete s) (f_now f)
      (mkStats true (total_records (transfer_stats s)) (data_packets (transfer_stats s))
         (end_received (transfer_stats s)) interval)
      (received_records s) (printed s ++ [HeaderReceived interval]).
Proof.
  intros Hh. cbn zeta.
  assert (Hi : parse_uint16_be (f_data f) 1 = Some (be_u16 (slice (f_data f) 1 3))).
  { assert (3 <= length (f_data f))%nat by (frame_cases (f_data f); assumption).
    rewrite parse_uint16_be_some by lia.
    change (slice (f_data f) 1 3) with (slice (f_data f) 1 (1 + 2)).
    rewrite slice_two by lia. rewrite be_u16_pair. reflexivity. }
  rewrite <- Hi. frame_cases (f_data f); reflexivity.
Qed.

Lemma header_frame_interval_witness :
  notification_handler 3 Samples.fresh (Samples.frame_at 2%float Samples.header_frame)
  = mkSession (transfer_complete Samples.fresh) 2%float
      (mkStats true (total_records (transfer_stats Samples.fresh))
         (data_packets (transfer_stats Samples.fresh))
         (end_received (transfer_stats Samples.fresh))
         (Some (be_u16 (slice Samples.header_frame 1 3))))
      (received_records Samples.fresh)
      (printed Samples.fresh ++ [HeaderReceived (Some (be_u16 (slice Samples.header_frame 1 3)))]).
Proof.
  apply (header_frame_interval 3 Samples.fresh
           (Samples.frame_at 2%float Samples.header_frame)).
  reflexivity.
Defined.

(** ** Invariants of a download session *)

Lemma parse_records_window (data : bytes) (start_seq : Z) (wall : nat -> Z) (count : Z)
  (n i offset : nat) :
  Forall (fun r => start_seq + Z.of_nat i <= seq r < start_seq + Z.of_nat i + Z.of_nat n)
    (parse_records data start_seq wall count n i offset).
Proof.
  revert i offset. induction n as [| n IH]; intros i offset; cbn [parse_records];
    [constructor |].
  destruct (parse_sensor_record data offset); [| constructor].
  constructor; [cbn; lia |].
  specialize (IH (S i) (offset + 6)%nat).
  rewrite Forall_forall in *. intros x Hx. specialize (IH x Hx). lia.
Qed.

Lemma handler_accounted (start_seq : Z) (s : Session) (f : Frame) :
  accounted s -> accounted (notification_handler start_seq s f).
Proof.
  intros [Hdp [Hlen Htot]].
  destruct (carries_records (f_data f)) eqn:Ec.
  - assert (Hl : (5 <= length (f_data f))%nat) by (frame_cases (f_data f); assumption).
    assert (Ht : byte_at (f_data f) 0 = PACKET_TYPE_DATA)
      by (frame_cases (f_data f); assumption).
    rewrite handler_data by assumption. cbn zeta. unfold accounted.
    cbn [transfer_stats received_records data_packets total_records].
    pose proof (byte_at_range (f_data f) 3) as Hc.
    pose proof (parse_records_length_le (f_data f) start_seq (f_wall f)
                  (byte_at (f_data f) 3) (Z.to_nat (byte_at (f_data f) 3)) 0 5) as Hn.
    rewrite length_app. lia.
  - destruct (handler_without_records start_seq s f Ec) as [Hr [Hd Ht]].
    unfold accounted. rewrite Hr, Hd, Ht. repeat split; assumption.
Qed.

Lemma handler_in_window (start_seq : Z) (s : Session) (f : Frame) :
  in_window start_seq s -> in_window start_seq (notification_handler start_seq s f).
Proof.
  intros Hw. unfold in_window in *.
  destruct (carries_records (f_data f)) eqn:Ec.
  - assert (Hl : (5 <= length (f_data f))%nat) by (frame_cases (f_data f); assumption).
    assert (Ht : byte_at (f_data f) 0 = PACKET_TYPE_DATA)
      by (frame_cases (f_data f); assumption).
    rewrite handler_data by assumption. cbn zeta. cbn [received_records].
    apply Forall_app. split; [exact Hw |].
    pose proof (byte_at_range (f_data f) 3) as Hc.
    pose proof (parse_records_window (f_data f) start_seq (f_wall f)
                  (byte_at (f_data f) 3) (Z.to_nat (byte_at (f_data f) 3)) 0 5) as Hp.
    rewrite Forall_forall in *. intros r Hr. specialize (Hp r Hr). lia.
  - destruct (handler_without_records start_seq s f Ec) as [Hr _]. rewrite Hr. exact Hw.
Qed.

(** A property of the counters and the records that holds at the start and
    that the handler keeps holds for the session [download_data] ends with. *)
Lemma download_session_invariant (P : Z -> Session -> Prop) :
  (forall start t, P start (mkSession false t initial_stats [] [])) ->
  (forall start s f, P start s -> P start (notification_handler start s f)) ->
  (forall start s s',
      received_records s' = received_records s -> transfer_stats s' = transfer_stats s ->
      P start s -> P start s') ->
  forall env db s,
    session (download_data env db) = Some s ->
    P (Z.max (last_synced_seq (get_sync_state db (device_address env))) (-1) + 1) s.
Proof.
  intros Hinit Hstep Hext env db s.
  unfold download_data.
  destruct (chars_found env); cbn [negb]; [| discriminate].
  destruct (get_storage_status env) as [st |]; [| discriminate].
  rewrite resume_point_eq.
  set (start := Z.max (last_synced_seq (get_sync_state db (device_address env))) (-1) + 1).
  destruct (total st - start <=? 0); [discriminate |].
  assert (Hentry : P start (session_at_loop_entry env start)).
  { unfold session_at_loop_entry. cbn zeta.
    eapply Hext; [| | apply (deliver_preserves start (P start) (Hstep start)); apply Hinit];
      reflexivity. }
  destruct (wait_loop start (start_time env) (events env) (session_at_loop_entry env start))
    as [sw | e s3 rest] eqn:Hw.
  - cbn [session]. intros [= <-].
    eapply (wait_loop_waiting start (start_time env) (P start)); eauto.
  - destruct (store_received db (device_address env) _ _ _) as [inserted db'].
    cbn [session]. intros [= <-].
    apply (deliver_preserves start (P start) (Hstep start)).
    eapply (wait_loop_exited start (start_time env) (P start)); eauto.
    intros now0 s0 e0 s0' Hs0 Hp. apply poll_cases in Hp. destruct Hp as [Hr [Hs _]].
    eapply Hext; eauto.
Qed.

(** X7. Whatever the device sends, the session [download_data] ends with has
    consistent counters: the number of records received is at most
    [total_records], the sum of the announced counts, which is at most 255
    per DATA frame counted in [data_packets]. *)
Theorem session_counters_account (env : Env) (db : DB) (s : Session) :
  session (download_data env db) = Some s ->
  0 <= data_packets (transfer_stats s) /\
  Z.of_nat (length (received_records s)) <= total_records (transfer_stats s) /\
  total_records (transfer_stats s) <= 255 * data_packets (transfer_stats s).
Proof.
  intros Hs.
  apply (download_session_invariant (fun _ => accounted)) with (env := env) (db := db);
    [| | | exact Hs].
  - intros _ t. unfold accounted. cbn. lia.
  - intros start s0 f. apply handler_accounted.
  - intros _ s0 s0' Hr Ht. unfold accounted. rewrite Hr, Ht. auto.
Qed.

Lemma session_counters_account_witness :
  exists s,
    session (download_data Samples.idle_env Samples.empty_db) = Some s /\
    0 <= data_packets (transfer_stats s) /\
    Z.of_nat (length (received_records s)) <= total_records (transfer_stats s) /\
    total_records (transfer_stats s) <= 255 * data_packets (transfer_stats s).
Proof.
  eexists. split; [vm_compute; reflexivity |].
  apply (session_counters_account Samples.idle_env Samples.empty_db).
  vm_compute. reflexivity.
Defined.

(** X8. Every record of the session [download_data] ends with has a sequence
    number among the 255 numbers from the resume point on, however many
    frames and records were received. *)
Theorem session_seq_window (env : Env) (db : DB) (s : Session) :
  session (download_data env db) = Some s ->
  let start := Z.max (last_synced_seq (get_sync_state db (device_address env))) (-1) + 1 in
  Forall (fun r => start <= seq r <= start + 254) (received_records s).
Proof.
  intros Hs. cbn zeta.
  apply (download_session_invariant in_window) with (env := env) (db := db);
    [| | | exact Hs].
  - intros start t. constructor.
  - intros start s0 f. apply handler_in_window.
  - intros start s0 s0' Hr _. unfold in_window. rewrite Hr. auto.
Qed.

Lemma session_seq_window_witness :
  exists s,
    session (download_data Samples.two_frames_env Samples.empty_db) = Some s /\
    Forall (fun r =>
              Z.max (last_synced_seq (get_sync_state Samples.empty_db "AA:BB")) (-1) + 1
              <= seq r
              <= Z.max (last_synced_seq (get_sync_state Samples.empty_db "AA:BB")) (-1)
                 + 1 + 254)
      (received_records s).
Proof.
  eexists. split; [vm_compute; reflexivity |].
  apply (session_seq_window Samples.two_frames_env Samples.empty_db).
  vm_compute. reflexivity.
Defined.

(** ** What a download does, case by case *)

Lemma max_by_seq_max (rest : list SensorRecord) (best : SensorRecord) :
  Forall (fun r => seq r <= seq (max_by_seq best rest)) (best :: rest).
Proof.
  revert best. induction rest as [| r rest IH]; intros best; cbn [max_by_seq].
  - constructor; [lia | constructor].
  - specialize (IH (if seq best <? seq r then r else best)).
    inversion IH as [| x l Hhd Htl]; subst.
    destruct (Z.ltb_spec (seq best) (seq r)).
    + constructor; [lia |]. constructor; assumption.
    + constructor; [assumption |]. constructor; [lia | assumption].
Qed.

Lemma parse_status_total_range (data : bytes) (st : Status) :
  parse_status data = Some st -> 0 <= total st < 65536.
Proof.
  unfold parse_status.
  destruct (Nat.ltb_spec (length data) 4); [discriminate |].
  rewrite !parse_uint16_be_some by lia. intros [= <-]. cbn [total].
  pose proof (byte_at_range data 0). pose proof (byte_at_range data 1). lia.
Qed.

(** The five ways [download_data] can end (the fourth being a trace that
    stops while the loop still waits). *)
Lemma download_data_cases (env : Env) (db : DB) :
  let o := download_data env db in
  let m := device_address env in
  let start := Z.max (last_synced_seq (get_sync_state db m)) (-1) + 1 in
  (session o = None /\ db_after o = db /\ control_writes o = [] /\ saved o = None /\
   ((terminal o = CharacteristicsMissing /\ chars_found env = false /\
     result o = Some false) \/
    (terminal o = StatusUnreadable /\ get_storage_status env = None /\
     result o = Some false) \/
    (terminal o = AlreadySynced /\ result o = Some true /\
     exists st, get_storage_status env = Some st /\ total st <= start))) \/
  (exists s,
      terminal o = StillWaiting /\ session o = Some s /\ db_after o = db /\
      control_writes o = [start_cmd start] /\ result o = None /\ saved o = None /\
      wait_loop start (start_time env) (events env) (session_at_loop_entry env start)
      = Waiting s /\
      exists st, get_storage_status env = Some st /\ start < total st) \/
  (exists e s3 rest st,
      terminal o = Finished e /\ get_storage_status env = Some st /\ start < total st /\
      wait_loop start (start_time env) (events env) (session_at_loop_entry env start)
      = Exited e s3 rest /\
      let s := deliver start s3 (late_frames env) in
      let stored := store_received db m (received_records s) (insert_now env)
                      (update_now env) in
      session o = Some s /\ db_after o = snd stored /\ saved o = fst stored /\
      result o = Some (0 <? Z.of_nat (length (received_records s))) /\
      control_writes o = match e with
                         | ExitTimeout => [start_cmd start; stop_cmd]
                         | _ => [start_cmd start]
                         end).
Proof.
  cbn zeta. unfold download_data.
  destruct (chars_found env) eqn:Hc; cbn [negb];
    [| left; cbn; repeat split; left; repeat split].
  destruct (get_storage_status env) as [st |] eqn:Hs;
    [| left; cbn; repeat split; right; left; repeat split].
  rewrite resume_point_eq.
  set (start := Z.max (last_synced_seq (get_sync_state db (device_address env))) (-1) + 1).
  destruct (Z.leb_spec (total st - start) 0) as [Hle | Hgt].
  { left. cbn. repeat split. right. right. repeat split. exists st. split; [reflexivity | lia]. }
  destruct (wait_loop start (start_time env) (events env) (session_at_loop_entry env start))
    as [sw | e s3 rest] eqn:Hw.
  - right. left. exists sw. cbn. repeat split. exists st. split; [reflexivity | lia].
  - right. right. exists e, s3, rest, st.
    destruct (store_received db (device_address env) _ _ _) as [inserted db'] eqn:Est.
    cbn. repeat split; try reflexivity; try lia.
Qed.

Lemma store_received_last (db : DB) (m : string) (r0 : SensorRecord)
  (rest : list SensorRecord) (now1 now2 : Z) :
  get_sync_state (snd (store_received db m (r0 :: rest) now1 now2)) m
  = mkState (seq (max_by_seq r0 rest)) now2
      (total_synced (get_sync_state db m) + Z.of_nat (length (r0 :: rest))).
Proof.
  rewrite store_received_cons. cbn [snd]. rewrite get_after_update.
  destruct (insert_records_table m (-50) now1 db (r0 :: rest)) as [_ [Hs _]].
  rewrite (get_sync_state_ext db _ m Hs). reflexivity.
Qed.

(** X9. What a download leaves in the sync table. [total_synced] grows by
    the number of records received in a finished session (whether or not
    their rows were new), and by nothing otherwise. When no record was
    received the database is returned as it was; when some were, the new
    [last_synced_seq] is the largest sequence number received and
    [last_sync_time] is the time of the commit. *)
Theorem download_commit (env : Env) (db : DB) :
  let o := download_data env db in
  let m := device_address env in
  let recs := committed_records o in
  let after := get_sync_state (db_after o) m in
  total_synced after = total_synced (get_sync_state db m) + Z.of_nat (length recs) /\
  (recs = [] -> db_after o = db /\ saved o = None) /\
  (recs <> [] ->
   In (last_synced_seq after) (map seq recs) /\
   Forall (fun r => seq r <= last_synced_seq after) recs /\
   last_sync_time after = update_now env /\
   db_after o = snd (store_received db m recs (insert_now env) (update_now env))).
Proof.
  cbn zeta. unfold committed_records.
  destruct (download_data_cases env db)
    as [[Hs [Hdb [_ [Hsv Ht]]]] | [[s [Ht [Hs [Hdb [_ [_ [Hsv _]]]]]]]
        | [e [s3 [rest [st [Ht [_ [_ [_ Hfin]]]]]]]]]].
  - rewrite Hs, Hdb.
    assert (Hnil : match terminal (download_data env db) with
                   | Finished _ => @nil SensorRecord
                   | _ => []
                   end = []) by (destruct (terminal (download_data env db)); reflexivity).
    rewrite Hnil. cbn [length Z.of_nat].
    split; [lia |]. split; [auto |]. intros Hx; now contradiction Hx.
  - rewrite Ht, Hdb. cbn [length Z.of_nat].
    split; [lia |]. split; [auto |]. intros Hx; now contradiction Hx.
  - cbn zeta in Hfin. destruct Hfin as [Hs [Hdb [Hsv _]]]. rewrite Ht, Hs, Hdb.
    destruct (received_records (deliver _ s3 (late_frames env))) as [| r0 recs'] eqn:Er.
    + cbn [store_received snd fst length Z.of_nat] in *.
      split; [lia |]. split; [auto |]. intros Hx; now contradiction Hx.
    + rewrite store_received_last. cbn [total_synced last_synced_seq last_sync_time].
      split; [reflexivity |]. split; [discriminate |]. intros _.
      split; [apply in_map; apply max_by_seq_in |].
      split; [apply max_by_seq_max |]. split; reflexivity.
Qed.

(** X10. One download never lowers the persisted sequence number of its
    device and raises it to at most 254 past the resume point, however many
    records the device sent. *)
Theorem download_advance_bounded (env : Env) (db : DB) :
  let m := device_address env in
  let before := last_synced_seq (get_sync_state db m) in
  let after := last_synced_seq (get_sync_state (db_after (download_data env db)) m) in
  before <= after /\ after <= Z.max before (-1) + 255.
Proof.
  cbn zeta. split; [apply download_data_advances |].
  pose proof (download_session_invariant in_window
                (fun start t => Forall_nil _)
                handler_in_window) as Hinv.
  destruct (download_data_cases env db)
    as [[_ [Hdb _]] | [[s [_ [_ [Hdb _]]]] | [e [s3 [rest [st [_ [_ [_ [_ Hfin]]]]]]]]]].
  - rewrite Hdb. lia.
  - rewrite Hdb. lia.
  - cbn zeta in Hfin. destruct Hfin as [Hs [Hdb _]].
    assert (Hw : in_window
                   (Z.max (last_synced_seq (get_sync_state db (device_address env))) (-1) + 1)
                   (deliver
                      (Z.max (last_synced_seq (get_sync_state db (device_address env))) (-1)
                       + 1) s3 (late_frames env))).
    { apply Hinv with (env := env) (db := db); [| exact Hs].
      intros start s0 s0' Hr _. unfold in_window. rewrite Hr. auto. }
    rewrite Hdb. unfold in_window in Hw.
    destruct (received_records (deliver _ s3 (late_frames env))) as [| r0 recs'] eqn:Er.
    + cbn. lia.
    + rewrite store_received_last. cbn [last_synced_seq].
      rewrite Forall_forall in Hw. specialize (Hw _ (max_by_seq_in recs' r0)). lia.
Qed.

(** X11. After a download that received records, the next resume point of
    the device is the sequence number right after the largest one received,
    and the next session asks for the records from there to the device
    total. *)
Theorem next_download_resumes_after_last (env : Env) (db : DB) (device_total : Z) :
  committed_records (download_data env db) <> [] ->
  let o := download_data env db in
  let last := last_synced_seq (get_sync_state (db_after o) (device_address env)) in
  In last (map seq (committed_records o)) /\
  Forall (fun r => seq r <= last) (committed_records o) /\
  resume_point (get_sync_state (db_after o) (device_address env)) device_total
  = (last + 1, device_total - last - 1).
Proof.
  intros Hne. cbn zeta.
  pose proof (download_data_advances env db) as Hadv.
  pose proof (download_session_invariant in_window
                (fun start t => Forall_nil _)
                handler_in_window) as Hinv.
  unfold committed_records in *.
  destruct (download_data_cases env db)
    as [[Hs _] | [[s [Ht _]] | [e [s3 [rest [st [Ht [_ [_ [_ Hfin]]]]]]]]]].
  - rewrite Hs in Hne. destruct (terminal (download_data env db)); now contradiction Hne.
  - rewrite Ht in Hne. now contradiction Hne.
  - cbn zeta in Hfin. destruct Hfin as [Hs [Hdb _]].
    assert (Hw : in_window
                   (Z.max (last_synced_seq (get_sync_state db (device_address env))) (-1) + 1)
                   (deliver
                      (Z.max (last_synced_seq (get_sync_state db (device_address env))) (-1)
                       + 1) s3 (late_frames env))).
    { apply Hinv with (env := env) (db := db); [| exact Hs].
      intros start s0 s0' Hr _. unfold in_window. rewrite Hr. auto. }
    rewrite Ht, Hs in *. rewrite Hdb in *. unfold in_window in Hw.
    destruct (received_records (deliver _ s3 (late_frames env))) as [| r0 recs'] eqn:Er;
      [now contradiction Hne |].
    rewrite store_received_last in *. cbn [last_synced_seq] in *.
    split; [apply in_map; apply max_by_seq_in |].
    split; [apply max_by_seq_max |].
    rewrite resume_point_eq. cbn [last_synced_seq].
    rewrite Forall_forall in Hw. specialize (Hw _ (max_by_seq_in recs' r0)).
    f_equal; lia.
Qed.

Lemma next_download_resumes_after_last_witness :
  let o := download_data Samples.idle_env Samples.empty_db in
  let last := last_synced_seq (get_sync_state (db_after o) (device_address Samples.idle_env)) in
  In last (map seq (committed_records o)) /\
  Forall (fun r => seq r <= last) (committed_records o) /\
  resume_point (get_sync_state (db_after o) (device_address Samples.idle_env)) 10
  = (last + 1, 10 - last - 1).
Proof.
  apply (next_download_resumes_after_last Samples.idle_env Samples.empty_db 10).
  vm_compute. discriminate.
Defined.

(** X12. [download_data] returns [True] exactly when the device had nothing
    new or at least one record was received (an END frame alone is not
    enough); whenever it does not return [True] the database is left as it
    was; and it has no result only while the loop still waits. *)
Theorem download_result (env : Env) (db : DB) :
  let o := download_data env db in
  (result o = Some true <-> terminal o = AlreadySynced \/ committed_records o <> []) /\
  (result o <> Some true -> db_after o = db) /\
  (result o = None <-> terminal o = StillWaiting).
Proof.
  cbn zeta. unfold committed_records.
  destruct (download_data_cases env db)
    as [[Hs [Hdb [_ [_ [[Ht [_ Hr]] | [[Ht [_ Hr]] | [Ht [Hr _]]]]]]]]
        | [[s [Ht [Hs [Hdb [_ [Hr _]]]]]]
           | [e [s3 [rest [st [Ht [_ [_ [_ Hfin]]]]]]]]]].
  - rewrite Ht, ?Hs, Hr, Hdb.
    repeat split; try discriminate; auto; intros [Hx | Hx]; try discriminate;
      now contradiction Hx.
  - rewrite Ht, ?Hs, Hr, Hdb.
    repeat split; try discriminate; auto; intros [Hx | Hx]; try discriminate;
      now contradiction Hx.
  - rewrite Ht, ?Hs, Hr, Hdb. repeat split; try discriminate; auto.
  - rewrite Ht, ?Hs, Hr, Hdb.
    repeat split; try discriminate; auto; intros [Hx | Hx]; try discriminate;
      now contradiction Hx.
  - cbn zeta in Hfin. destruct Hfin as [Hs [Hdb [_ [Hr _]]]]. rewrite Ht, ?Hs, Hr, Hdb.
    destruct (received_records (deliver _ s3 (late_frames env))) as [| r0 recs'].
    + cbn. repeat split; try discriminate; auto; intros [Hx | Hx]; try discriminate;
        now contradiction Hx.
    + cbn [length]. replace (0 <? Z.of_nat (S (length recs'))) with true
        by (symmetry; apply Z.ltb_lt; lia).
      repeat split; try discriminate; auto.
      * intros _. right. discriminate.
      * intros Hx. now contradiction Hx.
Qed.

(** X13. [download_data] writes to the control characteristic nothing, or
    START alone, or START followed by STOP. Nothing is written exactly when
    the session ends before the transfer (no characteristics, no status,
    nothing new), and STOP is written exactly when the loop ends by the hard
    timeout. *)
Theorem control_writes_shape (env : Env) (db : DB) :
  let o := download_data env db in
  let start := Z.max (last_synced_seq (get_sync_state db (device_address env))) (-1) + 1 in
  (control_writes o = [] \/ control_writes o = [start_cmd start] \/
   control_writes o = [start_cmd start; stop_cmd]) /\
  (control_writes o = [] <-> session o = None) /\
  (In stop_cmd (control_writes o) <-> terminal o = Finished ExitTimeout).
Proof.
  cbn zeta.
  assert (Hne : forall v, start_cmd v <> stop_cmd) by (intros v; discriminate).
  destruct (download_data_cases env db)
    as [[Hs [_ [Hw [_ [[Ht _] | [[Ht _] | [Ht _]]]]]]]
        | [[s [Ht [Hs [_ [Hw _]]]]]
           | [e [s3 [rest [st [Ht [_ [_ [_ Hfin]]]]]]]]]].
  - rewrite Hw, Hs, Ht. repeat split; auto; try discriminate; intros Hx; now inversion Hx.
  - rewrite Hw, Hs, Ht. repeat split; auto; try discriminate; intros Hx; now inversion Hx.
  - rewrite Hw, Hs, Ht. repeat split; auto; try discriminate; intros Hx; now inversion Hx.
  - rewrite Hw, Hs, Ht. repeat split; auto; try discriminate.
    intros [Hx | Hx]; [now apply Hne in Hx | now inversion Hx].
  - cbn zeta in Hfin. destruct Hfin as [Hs [_ [_ [_ Hw]]]]. rewrite Hw, Hs, Ht.
    destruct e; repeat split; auto; try discriminate;
      try (intros [Hx | Hx]; [now apply Hne in Hx | now inversion Hx]).
    intros _. right. left. reflexivity.
Qed.

(** X14. When [download_data] starts a transfer, the resume index fits the
    two bytes of the START command: the command is three bytes, the opcode 1
    and the index in big-endian order, and the device reads back exactly the
    index the session numbers its records from. *)
Theorem start_command_carries_index (env : Env) (db : DB) :
  control_writes (download_data env db) <> [] ->
  let start := Z.max (last_synced_seq (get_sync_state db (device_address env))) (-1) + 1 in
  0 <= start < 65535 /\
  hd_error (control_writes (download_data env db)) = Some (start_cmd start) /\
  length (start_cmd start) = 3%nat /\
  byte_at (start_cmd start) 0 = CMD_START_TRANSFER /\
  parse_uint16_be (start_cmd start) 1 = Some start.
Proof.
  intros Hne. cbn zeta.
  set (start := Z.max (last_synced_seq (get_sync_state db (device_address env))) (-1) + 1).
  assert (Hparse : forall v, 0 <= v < 65536 -> parse_uint16_be (start_cmd v) 1 = Some v).
  { intros v Hv. pose proof (parse_after_encode v) as Hp.
    rewrite Z.mod_small in Hp by lia. rewrite <- Hp.
    rewrite !parse_uint16_be_some by (cbn; lia). reflexivity. }
  assert (Hrange : forall st, get_storage_status env = Some st -> 0 <= total st < 65536).
  { unfold get_storage_status. intros st. destruct (status_reply env); [| discriminate].
    apply parse_status_total_range. }
  assert (Hbound : forall st, get_storage_status env = Some st -> start < total st ->
                              0 <= start < 65535).
  { intros st Hst Hlt. specialize (Hrange st Hst). unfold start in *. lia. }
  destruct (download_data_cases env db)
    as [[_ [_ [Hw _]]]
        | [[s [_ [_ [_ [Hw [_ [_ [_ [st [Hst Hlt]]]]]]]]]]
           | [e [s3 [rest [st [_ [Hst [Hlt [_ Hfin]]]]]]]]]].
  - rewrite Hw in Hne. now contradiction Hne.
  - fold start in Hw, Hlt. rewrite Hw. cbn [hd_error].
    pose proof (Hbound st Hst Hlt) as Hb.
    repeat split; try lia; auto. apply Hparse. lia.
  - cbn zeta in Hfin. destruct Hfin as [_ [_ [_ [_ Hw]]]]. fold start in Hw, Hlt.
    pose proof (Hbound st Hst Hlt) as Hb.
    rewrite Hw. destruct e; cbn [hd_error]; repeat split; try lia; auto;
      apply Hparse; lia.
Qed.

Lemma start_command_carries_index_witness :
  0 <= Z.max (last_synced_seq (get_sync_state Samples.empty_db "AA:BB")) (-1) + 1 < 65535 /\
  hd_error (control_writes (download_data Samples.idle_env Samples.empty_db))
  = Some (start_cmd (Z.max (last_synced_seq (get_sync_state Samples.empty_db "AA:BB")) (-1)
                     + 1)) /\
  length (start_cmd (Z.max (last_synced_seq (get_sync_state Samples.empty_db "AA:BB")) (-1)
                     + 1)) = 3%nat /\
  byte_at (start_cmd (Z.max (last_synced_seq (get_sync_state Samples.empty_db "AA:BB")) (-1)
                      + 1)) 0 = CMD_START_TRANSFER /\
  parse_uint16_be
    (start_cmd (Z.max (last_synced_seq (get_sync_state Samples.empty_db "AA:BB")) (-1) + 1))
    1
  = Some (Z.max (last_synced_seq (get_sync_state Samples.empty_db "AA:BB")) (-1) + 1).
Proof.
  apply (start_command_carries_index Samples.idle_env Samples.empty_db).
  vm_compute. discriminate.
Defined.

(** ** Leaving the polling loop *)

Lemma handler_no_data (start_seq : Z) (s : Session) (f : Frame) :
  carries_records (f_data f) = false ->
  data_packets (transfer_stats (notification_handler start_seq s f))
  = data_packets (transfer_stats s).
Proof.
  intros Hc. destruct s as [tc lpt [hr tr dp er iv] recs out].
  frame_cases (f_data f); reflexivity.
Qed.

(** X15. As long as no DATA frame of five bytes or more has been received,
    silence never ends the loop: from a session whose [data_packets] is 0,
    along a trace without such a frame, the loop is left only on an END
    frame or by the hard timeout, however long nothing arrives. *)
Theorem idle_exit_needs_data_frame
  (start_seq : Z) (start_time : float) (evs : list Event) (s s' : Session)
  (e : LoopExit) (rest : list Event) :
  data_packets (transfer_stats s) = 0 ->
  no_data_frames evs = true ->
  wait_loop start_seq start_time evs s = Exited e s' rest ->
  (e = ExitComplete \/ e = ExitTimeout) /\ data_packets (transfer_stats s') = 0.
Proof.
  revert s. induction evs as [| ev evs IH]; intros s Hd Hn; cbn [wait_loop];
    [discriminate |].
  cbn [no_data_frames forallb] in Hn. apply andb_true_iff in Hn. destruct Hn as [Hev Hn].
  destruct ev as [f | now].
  - apply IH; [| exact Hn].
    rewrite handler_no_data; [exact Hd |].
    destruct (carries_records (f_data f)); [discriminate | reflexivity].
  - unfold poll. rewrite Hd. cbn [Z.ltb Z.compare]. rewrite andb_false_r.
    destruct (transfer_complete s).
    + intros [= <- <- _]. split; [now left | exact Hd].
    + destruct (PrimFloat.ltb timeout (PrimFloat.sub now start_time)).
      * intros [= <- <- _]. split; [now right | exact Hd].
      * apply IH; assumption.
Qed.

Lemma idle_exit_needs_data_frame_witness :
  (ExitTimeout = ExitComplete \/ ExitTimeout = ExitTimeout) /\
  data_packets
    (transfer_stats
       (notification_handler 0 (session_at_loop_entry Samples.header_only_env 0)
          (Samples.frame_at 1%float Samples.header_frame))) = 0.
Proof.
  apply (idle_exit_needs_data_frame 0 0.5%float (events Samples.header_only_env)
           (session_at_loop_entry Samples.header_only_env 0)
           (notification_handler 0 (session_at_loop_entry Samples.header_only_env 0)
              (Samples.frame_at 1%float Samples.header_frame))
           ExitTimeout []).
  - reflexivity.
  - reflexivity.
  - vm_compute. reflexivity.
Defined.

(** X16. The hard timeout bounds the session: if the loop wakes up once
    later than [timeout] seconds after the start, [download_data] returns a
    result, whatever the device sends or fails to send. *)
Theorem download_returns_by_timeout (env : Env) (db : DB) :
  past_timeout (start_time env) (events env) = true ->
  exists b, result (download_data env db) = Some b.
Proof.
  intros Hp.
  destruct (download_data_cases env db)
    as [[_ [_ [_ [_ [[_ [_ Hr]] | [[_ [_ Hr]] | [_ [Hr _]]]]]]]]
        | [[s [_ [_ [_ [_ [_ [_ [Hloop _]]]]]]]]
           | [e [s3 [rest [st [_ [_ [_ [_ Hfin]]]]]]]]]].
  - eexists. exact Hr.
  - eexists. exact Hr.
  - eexists. exact Hr.
  - destruct (wait_loop_terminates
                (Z.max (last_synced_seq (get_sync_state db (device_address env))) (-1) + 1)
                (start_time env) (events env)
                (session_at_loop_entry env
                   (Z.max (last_synced_seq (get_sync_state db (device_address env))) (-1)
                    + 1)) Hp) as [e [s' [rest Hex]]].
    rewrite Hex in Hloop. discriminate.
  - cbn zeta in Hfin. destruct Hfin as [_ [_ [_ [Hr _]]]]. eexists. exact Hr.
Qed.

Lemma download_returns_by_timeout_witness :
  exists b, result (download_data Samples.header_only_env Samples.empty_db) = Some b.
Proof.
  apply (download_returns_by_timeout Samples.header_only_env Samples.empty_db).
  vm_compute. reflexivity.
Defined.

(** ** Synthetic timestamps *)

Lemma parse_records_nth_fields (data : bytes) (start_seq : Z) (wall : nat -> Z) (count : Z)
  (n i offset k : nat) (r : SensorRecord) :
  nth_error (parse_records data start_seq wall count n i offset) k = Some r ->
  seq r = start_seq + Z.of_nat (i + k) /\
  timestamp_ms r = wall (i + k)%nat - (count - 1 - Z.of_nat (i + k)) * 30000.
Proof.
  revert i offset k. induction n as [| n IH]; intros i offset k; cbn [parse_records].
  - destruct k; discriminate.
  - destruct (parse_sensor_record data offset) as [raw |]; [| destruct k; discriminate].
    destruct k as [| k]; cbn [nth_error].
    + intros [= <-]. replace (i + 0)%nat with i by lia. split; reflexivity.
    + intros Hk. apply IH in Hk.
      replace (i + S k)%nat with (S i + k)%nat by lia. exact Hk.
Qed.

(** X17. In a DATA frame the [k]-th decoded record is stamped with the wall
    clock read for it minus 30 seconds for each record announced after it
    (announced, not received: in a truncated frame the stamps stay that far
    in the past). If the wall clock does not run backwards while the frame
    is decoded, the stamps of one frame are at least 30 seconds apart and
    increasing. *)
Theorem frame_timestamps (start_seq : Z) (s : Session) (f : Frame) :
  carries_records (f_data f) = true ->
  let count := byte_at (f_data f) 3 in
  exists decoded,
    received_records (notification_handler start_seq s f) = received_records s ++ decoded /\
    (forall k r, nth_error decoded k = Some r ->
                 timestamp_ms r = f_wall f k - (count - 1 - Z.of_nat k) * 30000) /\
    ((forall i j, (i <= j)%nat -> f_wall f i <= f_wall f j) ->
     forall k r r', nth_error decoded k = Some r -> nth_error decoded (S k) = Some r' ->
                    timestamp_ms r + 30000 <= timestamp_ms r').
Proof.
  intros Hc. cbn zeta.
  assert (Hl : (5 <= length (f_data f))%nat) by (frame_cases (f_data f); assumption).
  assert (Ht : byte_at (f_data f) 0 = PACKET_TYPE_DATA)
    by (frame_cases (f_data f); assumption).
  rewrite handler_data by assumption. cbn zeta. cbn [received_records].
  eexists. split; [reflexivity |]. split.
  - intros k r Hk. apply parse_records_nth_fields in Hk. apply Hk.
  - intros Hmono k r r' Hk Hk'.
    apply parse_records_nth_fields in Hk. apply parse_records_nth_fields in Hk'.
    destruct Hk as [_ ->]. destruct Hk' as [_ ->].
    specialize (Hmono (0 + k)%nat (0 + S k)%nat ltac:(lia)). lia.
Qed.

Lemma frame_timestamps_witness :
  exists decoded,
    received_records (notification_handler 4 Samples.fresh
                        (Samples.frame_at 1%float Samples.two_records))
    = received_records Samples.fresh ++ decoded /\
    (forall k r, nth_error decoded k = Some r ->
                 timestamp_ms r
                 = f_wall (Samples.frame_at 1%float Samples.two_records) k
                   - (byte_at (f_data (Samples.frame_at 1%float Samples.two_records)) 3
                      - 1 - Z.of_nat k) * 30000) /\
    ((forall i j, (i <= j)%nat ->
                  f_wall (Samples.frame_at 1%float Samples.two_records) i
                  <= f_wall (Samples.frame_at 1%float Samples.two_records) j) ->
     forall k r r', nth_error decoded k = Some r -> nth_error decoded (S k) = Some r' ->
                    timestamp_ms r + 30000 <= timestamp_ms r').
Proof.
  apply (frame_timestamps 4 Samples.fresh (Samples.frame_at 1%float Samples.two_records)).
  reflexivity.
Defined.

(** ** Counting and appending in [insert_records] *)

Section InsertCount.

Variables (m : string) (rs now : Z).

(** The loop appends rows of this device and counts at least every row it
    appends; with no change on the connection before and none made, it
    counts nothing. *)
Lemma insert_loop_count (recs : list SensorRecord) (c : Conn) (inserted : Z) :
  0 <= total_changes c ->
  let out := insert_loop c inserted m rs now recs in
  exists new,
    records (cdb (fst out)) = records (cdb c) ++ new /\
    total_changes (fst out) = total_changes c + Z.of_nat (length new) /\
    Forall (fun row => mac row = m /\ rssi row = rs /\ imported_at_ms row = now /\
                       existsb (has_key m (r_seq row)) (records (cdb c)) = false /\
                       exists r, In r recs /\ r_seq row = seq r /\
                                 sample_ts_ms row = timestamp_ms r /\
                                 press_pa10 row = press_kpa r * 100 /\
                                 hum_x100 row = humidity_pct r * 100) new /\
    inserted + Z.of_nat (length new) <= snd out <= inserted + Z.of_nat (length recs) /\
    (total_changes c = 0 -> new = [] -> snd out = inserted).
Proof.
  revert c inserted. induction recs as [| r recs IH]; intros c inserted Htc; cbn zeta.
  - exists []. cbn. rewrite app_nil_r.
    split; [reflexivity |]. split; [lia |]. split; [constructor |]. split; [lia | auto].
  - cbn [insert_loop].
    destruct (insert_one c m rs now r) as [c1 |] eqn:E1.
    + apply insert_one_result in E1. destruct E1 as [_ [t [b ->]]].
      unfold insert_or_ignore.
      destruct (existsb (has_key m (seq r)) (records (cdb c))) eqn:Ex.
      * set (c0 := {| cdb := {| records := records (cdb c);
                                last_id := last_id (cdb c) + 1;
                                sync_state := sync_state (cdb c) |};
                      total_changes := total_changes c |}).
        cbn [total_changes].
        destruct (IH c0 (if total_changes c >? 0 then inserted + 1 else inserted) Htc)
          as [new [Hrec [Htot [Hnew [Hcnt Hzero]]]]].
        subst c0. cbn [cdb records total_changes] in *.
        exists new. split; [exact Hrec |]. split; [exact Htot |].
        split.
        { rewrite Forall_forall in *. intros row Hrow.
          destruct (Hnew row Hrow) as [H1 [H2 [H3 [H4 [r' [H5 H6]]]]]].
          split; [exact H1 |]. split; [exact H2 |]. split; [exact H3 |].
          split; [exact H4 |]. exists r'. split; [now right | exact H6]. }
        split.
        { cbn [length]. destruct (total_changes c >? 0); lia. }
        intros Hz Hn. rewrite (Hzero Hz Hn). rewrite Hz. reflexivity.
      * set (row := mkRow (last_id (cdb c) + 1) m (seq r) (timestamp_ms r) rs t
                      (press_kpa r * 100) (humidity_pct r * 100) b now).
        set (c1 := {| cdb := {| records := records (cdb c) ++ [row];
                                last_id := last_id (cdb c) + 1;
                                sync_state := sync_state (cdb c) |};
                      total_changes := total_changes c + 1 |}).
        assert (Hpos : (total_changes c1 >? 0) = true)
          by (apply Z.gtb_lt; cbn; lia).
        assert (Htc1 : 0 <= total_changes c1) by (cbn; lia).
        destruct (IH c1 (inserted + 1) Htc1) as [new [Hrec [Htot [Hnew [Hcnt Hzero]]]]].
        rewrite Hpos.
        exists (row :: new).
        split; [rewrite Hrec; cbn; rewrite <- app_assoc; reflexivity |].
        split; [rewrite Htot; cbn [length total_changes c1]; lia |].
        split.
        { constructor.
          - split; [reflexivity |]. split; [reflexivity |]. split; [reflexivity |].
            split; [exact Ex |]. exists r. split; [now left |]. repeat split.
          - rewrite Forall_forall in *. intros row' Hrow'.
            destruct (Hnew row' Hrow') as [H1 [H2 [H3 [H4 [r' [H5 H6]]]]]].
            split; [exact H1 |]. split; [exact H2 |]. split; [exact H3 |].
            split.
            + cbn [cdb records c1] in H4. rewrite existsb_app in H4.
              apply orb_false_iff in H4. apply H4.
            + exists r'. split; [now right | exact H6]. }
        split; [cbn [length]; lia |].
        intros _ Hx. discriminate.
    + destruct (IH c inserted Htc) as [new [Hrec [Htot [Hnew [Hcnt Hzero]]]]].
      exists new. split; [exact Hrec |]. split; [exact Htot |].
      split.
      { rewrite Forall_forall in *. intros row Hrow.
        destruct (Hnew row Hrow) as [H1 [H2 [H3 [H4 [r' [H5 H6]]]]]].
        split; [exact H1 |]. split; [exact H2 |]. split; [exact H3 |].
        split; [exact H4 |]. exists r'. split; [now right | exact H6]. }
      split; [cbn [length]; lia | exact Hzero].
Qed.

(** On a batch of storable records with pairwise distinct sequence numbers,
    none of them stored yet, every record becomes a row and is counted. *)
Lemma insert_loop_fresh (recs : list SensorRecord) (c : Conn) (inserted : Z) :
  NoDup (map seq recs) ->
  Forall (fun r => storable r = true /\
                   existsb (has_key m (seq r)) (records (cdb c)) = false) recs ->
  0 <= total_changes c ->
  let out := insert_loop c inserted m rs now recs in
  snd out = inserted + Z.of_nat (length recs) /\
  length (records (cdb (fst out))) = (length (records (cdb c)) + length recs)%nat /\
  map r_seq (records (cdb (fst out))) = map r_seq (records (cdb c)) ++ map seq recs.
Proof.
  revert c inserted. induction recs as [| r recs IH]; intros c inserted Hnd Hall; cbn zeta.
  - intros _. cbn. rewrite app_nil_r. repeat split; lia.
  - inversion Hnd as [| x l Hnotin Hnd']; subst.
    inversion Hall as [| x l [Hst Habs] Hall']; subst.
    cbn [insert_loop].
    destruct (insert_one_storable m rs now c r Hst) as [t [b ->]].
    unfold insert_or_ignore. rewrite Habs.
    set (row := mkRow (last_id (cdb c) + 1) m (seq r) (timestamp_ms r) rs t
                  (press_kpa r * 100) (humidity_pct r * 100) b now).
    set (c1 := {| cdb := {| records := records (cdb c) ++ [row];
                            last_id := last_id (cdb c) + 1;
                            sync_state := sync_state (cdb c) |};
                  total_changes := total_changes c + 1 |}).
    intros Htc.
    assert (Hpos : (total_changes c1 >? 0) = true) by (apply Z.gtb_lt; cbn; lia).
    rewrite Hpos.
    assert (Htc1 : 0 <= total_changes c1) by (cbn; lia).
    destruct (IH c1 (inserted + 1) Hnd') as [Hc [Hl Hm]]; [| exact Htc1 |].
    { rewrite Forall_forall in *. intros r' Hr'. destruct (Hall' r' Hr') as [Hs' Ha'].
      split; [exact Hs' |]. cbn [cdb records c1]. rewrite existsb_app, Ha'. cbn.
      rewrite orb_false_r. unfold has_key. cbn.
      rewrite String.eqb_refl. cbn.
      apply Z.eqb_neq. intros Heq. apply Hnotin. rewrite Heq.
      apply in_map. exact Hr'. }
    rewrite Hc, Hl, Hm. cbn [cdb records c1 length map].
    rewrite length_app, map_app. cbn. rewrite <- app_assoc. cbn.
    repeat split; lia.
Qed.

End InsertCount.

(** X18. [insert_records] only appends rows: the rows stored before stay in
    place, every new row belongs to the given device, carries the given
    [rssi] and import time, comes from a record of the batch and had no row
    with its key before; the sync table is not touched. The returned count
    is at least the number of rows appended and at most the size of the
    batch, and it is 0 exactly when no row was appended. *)
Theorem insert_records_appends (db : DB) (m : string) (recs : list SensorRecord)
  (rs now : Z) :
  let out := insert_records db m recs rs now in
  exists new,
    records (snd out) = records db ++ new /\
    sync_state (snd out) = sync_state db /\
    Forall (fun row => mac row = m /\ rssi row = rs /\ imported_at_ms row = now /\
                       existsb (has_key m (r_seq row)) (records db) = false /\
                       exists r, In r recs /\ r_seq row = seq r /\
                                 sample_ts_ms row = timestamp_ms r /\
                                 press_pa10 row = press_kpa r * 100 /\
                                 hum_x100 row = humidity_pct r * 100) new /\
    Z.of_nat (length new) <= fst out <= Z.of_nat (length recs) /\
    (fst out = 0 <-> new = []).
Proof.
  cbn zeta.
  destruct (insert_records_table m rs now db recs) as [_ [Hsync _]].
  unfold insert_records in *. destruct recs as [| r recs].
  - exists []. cbn. rewrite app_nil_r.
    split; [reflexivity |]. split; [reflexivity |]. split; [constructor |].
    split; [lia | tauto].
  - destruct (insert_loop_count m rs now (r :: recs) (connect db) 0 ltac:(cbn; lia))
      as [new [Hrec [_ [Hnew [Hcnt Hzero]]]]].
    cbn zeta in *.
    destruct (insert_loop (connect db) 0 m rs now (r :: recs)) as [c' n].
    cbn [fst snd connect cdb total_changes] in *.
    exists new. split; [exact Hrec |]. split; [exact Hsync |]. split; [exact Hnew |].
    split; [lia |]. split.
    + intros Hz. destruct new; [reflexivity | cbn [length] in Hcnt; lia].
    + intros Hn. apply Hzero; auto.
Qed.

(** X19. On a batch of storable records with pairwise distinct sequence
    numbers, none of which is stored yet for the device, [insert_records]
    writes one row per record, in batch order, and returns the size of the
    batch. *)
Theorem insert_records_fresh (db : DB) (m : string) (recs : list SensorRecord)
  (rs now : Z) :
  NoDup (map seq recs) ->
  Forall (fun r => storable r = true /\
                   existsb (has_key m (seq r)) (records db) = false) recs ->
  let out := insert_records db m recs rs now in
  fst out = Z.of_nat (length recs) /\
  length (records (snd out)) = (length (records db) + length recs)%nat /\
  map r_seq (records (snd out)) = map r_seq (records db) ++ map seq recs.
Proof.
  intros Hnd Hall. cbn zeta. unfold insert_records. destruct recs as [| r recs].
  - cbn. rewrite app_nil_r. repeat split; lia.
  - destruct (insert_loop_fresh m rs now (r :: recs) (connect db) 0 Hnd Hall
                ltac:(cbn; lia)) as [Hc [Hl Hm]].
    cbn zeta in *.
    destruct (insert_loop (connect db) 0 m rs now (r :: recs)) as [c' n].
    cbn [fst snd connect cdb] in *. repeat split; assumption.
Qed.

Lemma insert_records_fresh_witness :
  fst (insert_records Samples.overlapping_db "AA:BB"
         [Samples.sample 2; Samples.sample 3] (-50) 1700000000500)
  = Z.of_nat (length [Samples.sample 2; Samples.sample 3]) /\
  length (records (snd (insert_records Samples.overlapping_db "AA:BB"
                          [Samples.sample 2; Samples.sample 3] (-50) 1700000000500)))
  = (length (records Samples.overlapping_db)
     + length [Samples.sample 2; Samples.sample 3])%nat /\
  map r_seq (records (snd (insert_records Samples.overlapping_db "AA:BB"
                             [Samples.sample 2; Samples.sample 3] (-50) 1700000000500)))
  = map r_seq (records Samples.overlapping_db)
    ++ map seq [Samples.sample 2; Samples.sample 3].
Proof.
  apply (insert_records_fresh Samples.overlapping_db "AA:BB"
           [Samples.sample 2; Samples.sample 3] (-50) 1700000000500).
  - repeat constructor; cbn; intuition discriminate.
  - repeat constructor.
Defined.

(** ** Values written to the store *)

(** Checked on each of the 65536 raw temperatures. *)
Lemma temp_stored_always_close (z : Z) : -32768 <= z < 32768 -> temp_stored_close z = true.
Proof.
  intros Hz. apply (all_from_spec temp_stored_close (Z.to_nat 65536) (-32768)).
  - vm_compute. reflexivity.
  - lia.
Qed.

(** Checked on each of the 256 raw battery readings. *)
Lemma battery_stored_always_exact (z : Z) : 0 <= z < 256 -> battery_stored_exact z = true.
Proof.
  intros Hz. apply (all_from_spec battery_stored_exact (Z.to_nat 256) 0).
  - vm_compute. reflexivity.
  - lia.
Qed.

(** X20. For a record decoded from the wire, [insert_records] stores the
    pressure and the humidity times 100 and the battery reading as exact
    millivolts ([100 * bat_raw]); the stored temperature is the exact
    hundredths [10 * temp_raw] or, because [int()] truncates the binary
    product, one unit nearer zero (2.3 degrees is stored as 229). *)
Theorem stored_values (c : Conn) (m : string) (rs now : Z) (r : SensorRecord) :
  from_wire r ->
  exists t,
    insert_one c m rs now r
    = Some (insert_or_ignore c m (seq r) (timestamp_ms r) rs t (press_kpa r * 100)
              (humidity_pct r * 100) (100 * bat_raw (fields r)) now) /\
    (0 <= temp_raw (fields r) -> 10 * temp_raw (fields r) - 1 <= t <= 10 * temp_raw (fields r)) /\
    (temp_raw (fields r) < 0 -> 10 * temp_raw (fields r) <= t <= 10 * temp_raw (fields r) + 1) /\
    temp_stored 23 = Some 229.
Proof.
  intros [Ht [Et [Hb Eb]]].
  pose proof (temp_stored_always_close _ Ht) as Ct.
  pose proof (battery_stored_always_exact _ Hb) as Cb.
  unfold temp_stored_close, temp_stored in Ct.
  unfold battery_stored_exact, battery_stored in Cb.
  unfold insert_one. rewrite Et, Eb.
  destruct (int_of_float _) as [t |]; [| discriminate].
  destruct (int_of_float _) as [b |]; [| discriminate].
  apply Z.eqb_eq in Cb. subst b.
  exists t. split; [reflexivity |].
  destruct (Z.leb_spec 0 (temp_raw (fields r))); apply andb_true_iff in Ct;
    destruct Ct as [C1 C2]; apply Z.leb_le in C1; apply Z.leb_le in C2.
  - split; [intros _; lia |]. split; [intros Hx; lia | reflexivity].
  - split; [intros Hx; lia |]. split; [intros _; lia | reflexivity].
Qed.

Lemma stored_values_witness :
  exists t,
    insert_one (connect Samples.empty_db) "AA:BB" (-50) 1700000000500
      (add_seq_ts (mkRaw (PrimFloat.div (float_of_Z 23) 10%float) 101 50
                     (PrimFloat.div (float_of_Z 33) 10%float) 23 101 50 33)
         0 1700000000000)
    = Some (insert_or_ignore (connect Samples.empty_db) "AA:BB" 0 1700000000000 (-50) t
              (101 * 100) (50 * 100) (100 * 33) 1700000000500) /\
    (0 <= 23 -> 10 * 23 - 1 <= t <= 10 * 23) /\
    (23 < 0 -> 10 * 23 <= t <= 10 * 23 + 1) /\
    temp_stored 23 = Some 229.
Proof.
  apply (stored_values (connect Samples.empty_db) "AA:BB" (-50) 1700000000500
           (add_seq_ts (mkRaw (PrimFloat.div (float_of_Z 23) 10%float) 101 50
                          (PrimFloat.div (float_of_Z 33) 10%float) 23 101 50 33)
              0 1700000000000)).
  unfold from_wire. cbn. repeat split; lia.
Defined.

(** ** The sync table *)

Lemma filter_other_device (rows : list SyncRow) (m m' : string) (row : SyncRow) :
  s_mac row = m -> m' <> m ->
  filter (fun r => String.eqb (s_mac r) m')
    (filter (fun r => negb (String.eqb (s_mac r) m)) rows ++ [row])
  = filter (fun r => String.eqb (s_mac r) m') rows.
Proof.
  intros Hm Hne. rewrite filter_app. cbn [filter]. rewrite Hm.
  destruct (String.eqb_spec m m') as [E | _]; [congruence |]. rewrite app_nil_r.
  induction rows as [| a rows IH]; [reflexivity |]. cbn [filter].
  destruct (String.eqb_spec (s_mac a) m) as [Ea | Ea]; cbn [negb filter].
  - destruct (String.eqb_spec (s_mac a) m'); [congruence | exact IH].
  - destruct (String.eqb (s_mac a) m'); [f_equal |]; exact IH.
Qed.

Lemma filter_same_device (rows : list SyncRow) (m : string) :
  filter (fun r => String.eqb (s_mac r) m)
    (filter (fun r => negb (String.eqb (s_mac r) m)) rows) = [].
Proof.
  induction rows as [| a rows IH]; [reflexivity |]. cbn [filter].
  destruct (String.eqb (s_mac a) m) eqn:E; cbn [negb filter]; [exact IH |].
  rewrite E. exact IH.
Qed.

(** X21. After [update_sync_state] the table holds exactly one row for the
    device, the rows of every other device are the ones it held before, and
    a table with at most one row per device stays so. Two updates in a row
    leave the sequence number and time of the second and the sum of both
    counts added to the total. *)
Theorem sync_table_updates (db : DB) (m : string) (v1 n1 now1 v2 n2 now2 : Z) :
  let db1 := update_sync_state db m v1 n1 now1 in
  let db2 := update_sync_state db1 m v2 n2 now2 in
  length (filter (fun r => String.eqb (s_mac r) m) (sync_state db1)) = 1%nat /\
  (forall m', m' <> m ->
              filter (fun r => String.eqb (s_mac r) m') (sync_state db1)
              = filter (fun r => String.eqb (s_mac r) m') (sync_state db)) /\
  (one_row_per_device (sync_state db) -> one_row_per_device (sync_state db1)) /\
  records db1 = records db /\
  get_sync_state db2 m = mkState v2 now2 (total_synced (get_sync_state db m) + n1 + n2).
Proof.
  cbn zeta.
  assert (Hone : forall d v n t,
             length (filter (fun r => String.eqb (s_mac r) m)
                       (sync_state (update_sync_state d m v n t))) = 1%nat).
  { intros d v n t. unfold update_sync_state. cbn [sync_state].
    rewrite filter_app, filter_same_device. cbn. rewrite String.eqb_refl. reflexivity. }
  split; [apply Hone |]. split.
  { intros m' Hne. unfold update_sync_state. cbn [sync_state].
    apply filter_other_device; auto. }
  split.
  { intros Hu m'. destruct (string_dec m' m) as [-> | Hne].
    - rewrite Hone. lia.
    - unfold update_sync_state. cbn [sync_state].
      rewrite filter_other_device by auto. apply Hu. }
  split; [reflexivity |].
  rewrite !get_after_update. cbn [total_synced]. reflexivity.
Qed.

(** ** Reading the store back *)

Section ReadBack.

Lemma strictly_increasing_cons (a : Z) (l : list Z) :
  strictly_increasing (a :: l) = true <->
  match l with [] => True | b :: _ => a < b end /\ strictly_increasing l = true.
Proof.
  destruct l as [| b l]; cbn [strictly_increasing]; [tauto |].
  rewrite andb_true_iff, Z.ltb_lt. tauto.
Qed.

Lemma insert_by_seq_in (r x : Row) (l : list Row) :
  In x (insert_by_seq r l) <-> x = r \/ In x l.
Proof.
  induction l as [| y l IH]; cbn [insert_by_seq].
  - cbn. intuition auto.
  - destruct (r_seq r <=? r_seq y); cbn [In]; [intuition auto |].
    rewrite IH. intuition auto.
Qed.

Lemma insert_by_seq_length (r : Row) (l : list Row) :
  length (insert_by_seq r l) = S (length l).
Proof.
  induction l as [| y l IH]; cbn [insert_by_seq]; [reflexivity |].
  destruct (r_seq r <=? r_seq y); cbn [length]; [reflexivity | now rewrite IH].
Qed.

Lemma order_by_seq_in (x : Row) (l : list Row) : In x (order_by_seq l) <-> In x l.
Proof.
  induction l as [| y l IH]; cbn [order_by_seq fold_right]; [tauto |].
  fold (order_by_seq l). rewrite insert_by_seq_in, IH. cbn. intuition auto.
Qed.

Lemma order_by_seq_length (l : list Row) : length (order_by_seq l) = length l.
Proof.
  induction l as [| y l IH]; cbn [order_by_seq fold_right]; [reflexivity |].
  fold (order_by_seq l). rewrite insert_by_seq_length, IH. reflexivity.
Qed.

(** Inserting a sequence number that is not there keeps the order strict. *)
Lemma insert_by_seq_strict (r : Row) (l : list Row) :
  strictly_increasing (map r_seq l) = true ->
  ~ In (r_seq r) (map r_seq l) ->
  strictly_increasing (map r_seq (insert_by_seq r l)) = true.
Proof.
  induction l as [| x l IH]; intros Hs Hnot; [reflexivity |].
  cbn [map] in Hs. apply strictly_increasing_cons in Hs. destruct Hs as [Hhd Hs].
  cbn [insert_by_seq]. destruct (Z.leb_spec (r_seq r) (r_seq x)) as [Hle | Hgt].
  - cbn [map]. apply strictly_increasing_cons. split.
    + assert (r_seq r <> r_seq x) by (intros E; apply Hnot; left; now rewrite E). lia.
    + apply strictly_increasing_cons. split; assumption.
  - cbn [map]. apply strictly_increasing_cons. split.
    + destruct l as [| y l]; cbn [insert_by_seq map]; [lia |].
      cbn [map] in Hhd. destruct (r_seq r <=? r_seq y); cbn [map]; lia.
    + apply IH; [exact Hs |]. intros Hin. apply Hnot. now right.
Qed.

Lemma order_by_seq_strict (l : list Row) :
  NoDup (map r_seq l) -> strictly_increasing (map r_seq (order_by_seq l)) = true.
Proof.
  induction l as [| x l IH]; intros Hnd; [reflexivity |].
  cbn [map] in Hnd. inversion Hnd as [| a b Hnot Hnd']; subst.
  cbn [order_by_seq fold_right]. fold (order_by_seq l).
  apply insert_by_seq_strict; [apply IH; exact Hnd' |].
  intros Hin. apply Hnot. apply in_map_iff in Hin. destruct Hin as [y [Hy Hin]].
  apply in_map_iff. exists y. split; [exact Hy |]. apply order_by_seq_in. exact Hin.
Qed.

(** Under [UNIQUE(mac, seq)] the rows of one device have distinct [seq]. *)
Lemma device_seqs_nodup (rows : list Row) (m : string) :
  unique_keys rows ->
  NoDup (map r_seq (filter (fun r => String.eqb (mac r) m) rows)).
Proof.
  induction rows as [| a rows IH]; intros Hu; [constructor |].
  assert (Hu' : unique_keys rows).
  { intros m' s'. specialize (Hu m' s'). unfold count_key in *. cbn [filter] in Hu.
    destruct (has_key m' s' a); cbn [length] in Hu; lia. }
  cbn [filter]. destruct (String.eqb (mac a) m) eqn:Em; [| apply IH; exact Hu'].
  cbn [map]. constructor; [| apply IH; exact Hu'].
  intros Hin. apply in_map_iff in Hin. destruct Hin as [x [Hx Hin]].
  apply filter_In in Hin. destruct Hin as [Hin Hmx].
  specialize (Hu m (r_seq a)). unfold count_key in Hu. cbn [filter] in Hu.
  assert (Ha : has_key m (r_seq a) a = true)
    by (unfold has_key; rewrite Em, Z.eqb_refl; reflexivity).
  rewrite Ha in Hu. cbn [length] in Hu.
  assert (Hp : existsb (has_key m (r_seq a)) rows = true).
  { apply existsb_exists. exists x. split; [exact Hin |].
    unfold has_key. rewrite Hmx, Hx, Z.eqb_refl. reflexivity. }
  apply present_count in Hp. unfold count_key in Hp. lia.
Qed.

Lemma get_all_records_in (db : DB) (m : string) (d : StoredRecord) :
  In d (get_all_records db m) <->
  exists row, In row (records db) /\ mac row = m /\ d = row_to_dict row.
Proof.
  unfold get_all_records. rewrite in_map_iff. split.
  - intros [row [Hd Hin]]. apply (proj1 (order_by_seq_in _ _)) in Hin.
    apply filter_In in Hin.
    destruct Hin as [Hin Hm]. apply String.eqb_eq in Hm. exists row. auto.
  - intros [row [Hin [Hm Hd]]]. exists row. split; [auto |].
    apply (proj2 (order_by_seq_in _ _)). apply filter_In. split; [exact Hin |].
    apply String.eqb_eq. exact Hm.
Qed.

End ReadBack.

(** X22. In a store that satisfies [UNIQUE(mac, seq)], [get_all_records]
    returns the rows of the device in strictly increasing [seq] order; it
    returns one dictionary for each row of the device and none for rows of
    other devices. *)
Theorem get_all_records_ordered (db : DB) (m : string) :
  unique_keys (records db) ->
  strictly_increasing (map st_seq (get_all_records db m)) = true /\
  length (get_all_records db m)
  = length (filter (fun r => String.eqb (mac r) m) (records db)) /\
  (forall d, In d (get_all_records db m) <->
             exists row, In row (records db) /\ mac row = m /\ d = row_to_dict row).
Proof.
  intros Hu. split; [| split].
  - unfold get_all_records. rewrite map_map.
    replace (map (fun x => st_seq (row_to_dict x))
               (order_by_seq (filter (fun r => String.eqb (mac r) m) (records db))))
      with (map r_seq (order_by_seq (filter (fun r => String.eqb (mac r) m) (records db))))
      by (apply map_ext; reflexivity).
    apply order_by_seq_strict. apply device_seqs_nodup. exact Hu.
  - unfold get_all_records. rewrite length_map. apply order_by_seq_length.
  - intros d. apply get_all_records_in.
Qed.

Lemma get_all_records_ordered_witness :
  strictly_increasing (map st_seq (get_all_records Samples.overlapping_db "AA:BB")) = true /\
  length (get_all_records Samples.overlapping_db "AA:BB")
  = length (filter (fun r => String.eqb (mac r) "AA:BB"%string)
              (records Samples.overlapping_db)) /\
  (forall d, In d (get_all_records Samples.overlapping_db "AA:BB") <->
             exists row, In row (records Samples.overlapping_db) /\
                         mac row = "AA:BB"%string /\
                         d = row_to_dict row).
Proof.
  apply (get_all_records_ordered Samples.overlapping_db "AA:BB").
  intros m s. unfold count_key, Samples.overlapping_db. cbn [records filter].
  unfold has_key. cbn [mac r_seq].
  destruct (String.eqb "AA:BB" m); cbn [andb length]; [| lia].
  destruct (Z.eqb_spec 0 s); destruct (Z.eqb_spec 1 s); cbn [length]; lia.
Defined.

(** ** From [insert_records] to [get_all_records] *)

(** Checked on each of the 65536 unsigned 16-bit values. *)
Lemma hundredths_read_back (z : Z) :
  0 <= z < 65536 ->
  PrimFloat.div (float_of_Z (z * 100)) 100%float = float_of_Z z.
Proof.
  intros Hz. apply FloatAxioms.Leibniz.eqb_spec.
  apply (all_from_spec (reads_back 100 100%float) (Z.to_nat 65536) 0).
  - vm_compute. reflexivity.
  - lia.
Qed.

(** Checked on each of the 256 raw battery readings. *)
Lemma millivolts_read_back (z : Z) :
  0 <= z < 256 ->
  PrimFloat.div (float_of_Z (100 * z)) 1000%float = PrimFloat.div (float_of_Z z) 10%float.
Proof.
  intros Hz. apply FloatAxioms.Leibniz.eqb_spec.
  apply (all_from_spec battery_reads_back (Z.to_nat 256) 0).
  - vm_compute. reflexivity.
  - lia.
Qed.

Section RoundTrip.

Variables (m : string) (rs now : Z).

Lemma insert_loop_keeps_rows (recs : list SensorRecord) (c : Conn) (inserted : Z)
  (row : Row) :
  In row (records (cdb c)) ->
  In row (records (cdb (fst (insert_loop c inserted m rs now recs)))).
Proof.
  revert c inserted. induction recs as [| r recs IH]; intros c inserted Hin; [exact Hin |].
  cbn [insert_loop]. destruct (insert_one c m rs now r) as [c1 |] eqn:E1; [| now apply IH].
  apply IH. apply insert_one_result in E1. destruct E1 as [_ [t [b ->]]].
  unfold insert_or_ignore. destruct (existsb _ _); [exact Hin |].
  cbn. apply in_or_app. now left.
Qed.

(** The row written for a record whose key is new to the store and not used
    by an earlier record of the batch. *)
Lemma insert_loop_row (pre post : list SensorRecord) (c : Conn) (inserted : Z)
  (r : SensorRecord) :
  ~ In (seq r) (map seq pre) -> storable r = true ->
  existsb (has_key m (seq r)) (records (cdb c)) = false ->
  exists t b i,
    int_of_float (PrimFloat.mul (temp_c r) 100%float) = Some t /\
    int_of_float (PrimFloat.mul (battery_v r) 1000%float) = Some b /\
    In (mkRow i m (seq r) (timestamp_ms r) rs t (press_kpa r * 100)
          (humidity_pct r * 100) b now)
       (records (cdb (fst (insert_loop c inserted m rs now (pre ++ r :: post))))).
Proof.
  revert c inserted. induction pre as [| r0 pre IH]; intros c inserted Hnot Hst Habs.
  - cbn [app insert_loop].
    unfold storable in Hst. unfold insert_one.
    destruct (int_of_float (PrimFloat.mul (temp_c r) 100)) as [t |]; [| discriminate].
    destruct (int_of_float (PrimFloat.mul (battery_v r) 1000)) as [b |]; [| discriminate].
    exists t, b, (last_id (cdb c) + 1). split; [reflexivity |]. split; [reflexivity |].
    apply insert_loop_keeps_rows. unfold insert_or_ignore. rewrite Habs.
    cbn. apply in_or_app. right. now left.
  - assert (Hne : seq r0 <> seq r).
    { intros E. apply Hnot. left. exact E. }
    assert (Hnot' : ~ In (seq r) (map seq pre)).
    { intros Hin. apply Hnot. right. exact Hin. }
    cbn [app insert_loop].
    destruct (insert_one c m rs now r0) as [c1 |] eqn:E1; [| now apply IH].
    apply IH; auto.
    apply insert_one_result in E1. destruct E1 as [_ [t [b ->]]].
    unfold insert_or_ignore. destruct (existsb (has_key m (seq r0)) _); [exact Habs |].
    cbn. rewrite existsb_app, Habs. cbn. rewrite orb_false_r.
    unfold has_key. cbn. rewrite String.eqb_refl. cbn. apply Z.eqb_neq. exact Hne.
Qed.

End RoundTrip.

(** X23. A record decoded from the wire, inserted under a key that is new to
    the store and not used by an earlier record of the batch (whatever else
    the batch holds, repeated keys included), is found again by
    [get_all_records] with its sequence number, timestamp and rssi, with the
    pressure, the humidity and the battery voltage it was decoded with
    (pressure and humidity now as floats), and with the temperature rebuilt
    from the stored hundredths: the decoded tenths, or one hundredth nearer
    zero. *)
Theorem store_round_trip (db : DB) (m : string) (pre post : list SensorRecord)
  (rs now : Z) (r : SensorRecord) :
  ~ In (seq r) (map seq pre) -> from_wire r ->
  0 <= press_kpa r < 65536 -> 0 <= humidity_pct r < 256 ->
  existsb (has_key m (seq r)) (records db) = false ->
  exists t,
    temp_stored (temp_raw (fields r)) = Some t /\
    10 * temp_raw (fields r) - 1 <= t <= 10 * temp_raw (fields r) + 1 /\
    In (mkStored (seq r) (timestamp_ms r) rs
          (PrimFloat.div (float_of_Z t) 100%float)
          (float_of_Z (press_kpa r)) (float_of_Z (humidity_pct r)) (battery_v r))
       (get_all_records (snd (insert_records db m (pre ++ r :: post) rs now)) m).
Proof.
  intros Hnot Hw Hp Hh Habs.
  pose proof (from_wire_storable r Hw) as Hst.
  destruct Hw as [Ht [Et [Hb Eb]]].
  destruct (insert_loop_row m rs now pre post (connect db) 0 r Hnot Hst Habs)
    as [t [b [i [Ect [Ecb Hrow]]]]].
  pose proof (temp_stored_always_close _ Ht) as Ct.
  pose proof (battery_stored_always_exact _ Hb) as Cb.
  unfold temp_stored_close in Ct. unfold battery_stored_exact, battery_stored in Cb.
  rewrite Et in Ect. rewrite Eb in Ecb. rewrite Ecb in Cb. apply Z.eqb_eq in Cb. subst b.
  exists t. unfold temp_stored. split; [exact Ect |].
  unfold temp_stored in Ct. rewrite Ect in Ct.
  split.
  { destruct (0 <=? temp_raw (fields r)); apply andb_true_iff in Ct;
      destruct Ct as [C1 C2]; apply Z.leb_le in C1; apply Z.leb_le in C2; lia. }
  apply get_all_records_in.
  exists (mkRow i m (seq r) (timestamp_ms r) rs t (press_kpa r * 100)
            (humidity_pct r * 100) (100 * bat_raw (fields r)) now).
  split.
  { unfold insert_records.
    destruct (pre ++ r :: post) as [| r0 recs'] eqn:Eb0;
      [destruct pre; discriminate |].
    destruct (insert_loop (connect db) 0 m rs now (r0 :: recs')) as [c' n].
    exact Hrow. }
  split; [reflexivity |].
  unfold row_to_dict. cbn [r_seq sample_ts_ms rssi temp_x100 press_pa10 hum_x100 battery_mv].
  rewrite !hundredths_read_back by lia. rewrite millivolts_read_back by lia.
  rewrite Eb. reflexivity.
Qed.

Lemma store_round_trip_witness :
  exists t,
    temp_stored (temp_raw (fields (add_seq_ts
                                     (mkRaw (PrimFloat.div (float_of_Z 23) 10%float) 101 50
                                        (PrimFloat.div (float_of_Z 33) 10%float) 23 101 50 33)
                                     5 1700000000000)))
    = Some t /\
    10 * 23 - 1 <= t <= 10 * 23 + 1 /\
    In (mkStored 5 1700000000000 (-50) (PrimFloat.div (float_of_Z t) 100%float)
          (float_of_Z 101) (float_of_Z 50) (PrimFloat.div (float_of_Z 33) 10%float))
       (get_all_records
          (snd (insert_records Samples.empty_db "AA:BB"
                  ([Samples.sample 0; Samples.sample 0]
                   ++ add_seq_ts (mkRaw (PrimFloat.div (float_of_Z 23) 10%float) 101 50
                                    (PrimFloat.div (float_of_Z 33) 10%float) 23 101 50 33)
                        5 1700000000000
                   :: [Samples.sample 5]) (-50) 1700000000500))
          "AA:BB").
Proof.
  apply (store_round_trip Samples.empty_db "AA:BB"
           [Samples.sample 0; Samples.sample 0] [Samples.sample 5] (-50) 1700000000500
           (add_seq_ts (mkRaw (PrimFloat.div (float_of_Z 23) 10%float) 101 50
                          (PrimFloat.div (float_of_Z 33) 10%float) 23 101 50 33)
              5 1700000000000)).
  - cbn. intros [H | [H | H]]; [discriminate | discriminate | exact H].
  - unfold from_wire. cbn. repeat split; lia.
  - cbn. lia.
  - cbn. lia.
  - reflexivity.
Defined.

(** ** Finished sessions *)

Lemma insert_records_rows (db : DB) (m : string) (recs : list SensorRecord) (rs now : Z) :
  exists new,
    records (snd (insert_records db m recs rs now)) = records db ++ new /\
    Forall (fun row => mac row = m) new.
Proof.
  unfold insert_records. destruct recs as [| r recs].
  - exists []. cbn. rewrite app_nil_r. split; [reflexivity | constructor].
  - destruct (insert_loop_count m rs now (r :: recs) (connect db) 0 ltac:(cbn; lia))
      as [new [Hrec [_ [Hnew _]]]].
    cbn zeta in *.
    destruct (insert_loop (connect db) 0 m rs now (r :: recs)) as [c' n].
    cbn [fst snd connect cdb] in *. exists new. split; [exact Hrec |].
    rewrite Forall_forall in *. intros row Hrow. apply (Hnew row Hrow).
Qed.

Lemma store_received_rows (db : DB) (m : string) (recs : list SensorRecord)
  (now1 now2 : Z) :
  exists new,
    records (snd (store_received db m recs now1 now2)) = records db ++ new /\
    Forall (fun row => mac row = m) new.
Proof.
  destruct recs as [| r0 rest].
  - exists []. cbn. rewrite app_nil_r. split; [reflexivity | constructor].
  - rewrite store_received_cons. cbn [snd update_sync_state records].
    apply insert_records_rows.
Qed.

(** X24. However the loop was left (END, silence or the hard timeout), what
    [download_data] does to the record table is the same: rows are only
    appended, all for the device of the session; a table that satisfies
    [UNIQUE(mac, seq)] still does; and the key of every record received is
    then stored exactly once. *)
Theorem download_stores_received (env : Env) (db : DB) :
  unique_keys (records db) ->
  let o := download_data env db in
  let m := device_address env in
  unique_keys (records (db_after o)) /\
  (exists new, records (db_after o) = records db ++ new /\
               Forall (fun row => mac row = m) new) /\
  Forall (fun r => count_key m (seq r) (records (db_after o)) = 1%nat)
    (committed_records o).
Proof.
  intros Hu. cbn zeta. unfold committed_records.
  pose proof (download_session_invariant decoded_from
                (fun start t => Forall_nil _)
                handler_decoded_from) as Hinv.
  assert (Hsame : exists new, records db = records db ++ new /\
                              Forall (fun row => mac row = device_address env) new).
  { exists []. rewrite app_nil_r. split; [reflexivity | constructor]. }
  destruct (download_data_cases env db)
    as [[Hs [Hdb _]] | [[s [Ht [_ [Hdb _]]]] | [e [s3 [rest [st [Ht [_ [_ [_ Hfin]]]]]]]]]].
  - rewrite Hs, Hdb. split; [exact Hu |]. split; [exact Hsame |].
    destruct (terminal (download_data env db)); constructor.
  - rewrite Ht, Hdb. split; [exact Hu |]. split; [exact Hsame |]. constructor.
  - cbn zeta in Hfin. destruct Hfin as [Hs [Hdb _]].
    assert (Hd : decoded_from
                   (Z.max (last_synced_seq (get_sync_state db (device_address env))) (-1) + 1)
                   (deliver
                      (Z.max (last_synced_seq (get_sync_state db (device_address env))) (-1)
                       + 1) s3 (late_frames env))).
    { apply Hinv with (env := env) (db := db); [| exact Hs].
      intros start s0 s0' Hr _. unfold decoded_from. rewrite Hr. auto. }
    rewrite Ht, Hs, Hdb.
    destruct (store_received_table db (device_address env)
                (received_records
                   (deliver
                      (Z.max (last_synced_seq (get_sync_state db (device_address env))) (-1)
                       + 1) s3 (late_frames env)))
                (insert_now env) (update_now env)) as [Hu' Hp].
    split; [apply Hu'; exact Hu |]. split; [apply store_received_rows |].
    unfold decoded_from in Hd. rewrite Forall_forall in *. intros r Hr.
    apply unique_present_once; [apply Hu'; exact Hu |].
    apply Hp; [exact Hr |]. apply from_wire_storable. apply Hd. exact Hr.
Qed.

Lemma download_stores_received_witness :
  let o := download_data Samples.two_frames_env Samples.empty_db in
  unique_keys (records (db_after o)) /\
  (exists new, records (db_after o) = records Samples.empty_db ++ new /\
               Forall (fun row => mac row = device_address Samples.two_frames_env) new) /\
  Forall (fun r => count_key (device_address Samples.two_frames_env) (seq r)
                     (records (db_after o)) = 1%nat)
    (committed_records o).
Proof.
  apply (download_stores_received Samples.two_frames_env Samples.empty_db).
  intros m s. unfold count_key. cbn. lia.
Defined.

(** ** A transfer that brings everything *)

Lemma seq_numbers_last (start : Z) (n : nat) (last : Z) :
  In last (map (fun j => start + Z.of_nat j) (List.seq 0 n)) ->
  Forall (fun x => x <= last) (map (fun j => start + Z.of_nat j) (List.seq 0 n)) ->
  last = start + Z.of_nat n - 1.
Proof.
  intros Hin Hall.
  apply in_map_iff in Hin. destruct Hin as [j [Hj Hin]]. apply in_seq in Hin.
  rewrite Forall_forall in Hall.
  assert (Htop : start + Z.of_nat (n - 1) <= last).
  { apply Hall. apply in_map_iff. exists (n - 1)%nat. split; [reflexivity |].
    apply in_seq. lia. }
  lia.
Qed.

(** X25. The device has new records, at most 255, and sends them all in one
    DATA frame followed by an END frame; nothing else arrives. Then the
    session ends complete at the next wake-up without STOP, the records are
    numbered from the resume point to [total - 1], the persisted
    [last_synced_seq] becomes [total - 1], and a further download against
    the same device total finds nothing new and leaves the database alone. *)
Theorem single_frame_transfer_synchronises
  (env : Env) (db : DB) (st : Status) (f g : Frame) (now : float) (rest : list Event) :
  chars_found env = true ->
  get_storage_status env = Some st ->
  early_frames env = [] -> late_frames env = [] ->
  events env = Notify f :: Notify g :: Wake now :: rest ->
  let m := device_address env in
  let start := Z.max (last_synced_seq (get_sync_state db m)) (-1) + 1 in
  carries_records (f_data f) = true ->
  0 < total st - start ->
  byte_at (f_data f) 3 = total st - start ->
  5 + 6 * (total st - start) <= Z.of_nat (length (f_data f)) ->
  completes (f_data g) = true ->
  let o := download_data env db in
  terminal o = Finished ExitComplete /\
  result o = Some true /\
  control_writes o = [start_cmd start] /\
  map seq (committed_records o)
  = map (fun j => start + Z.of_nat j) (List.seq 0 (Z.to_nat (total st - start))) /\
  last_synced_seq (get_sync_state (db_after o) m) = total st - 1 /\
  (forall env',
      device_address env' = m -> chars_found env' = true ->
      get_storage_status env' = Some st ->
      download_data env' (db_after o)
      = mkOutcome (Some true) AlreadySynced (db_after o) [] None None).
Proof.
  intros Hc Hst Hearly Hlate Hev. cbn zeta.
  pose proof (download_data_finished env db st Hc Hst) as Hfinished.
  rewrite resume_point_eq in Hfinished. cbn [fst snd] in Hfinished.
  remember (device_address env) as m eqn:Hm.
  remember (Z.max (last_synced_seq (get_sync_state db m)) (-1) + 1) as start eqn:Hstart.
  intros Hdata Hpos Hcount Hfit Hend.
  assert (Hl : (5 <= length (f_data f))%nat) by (frame_cases (f_data f); assumption).
  assert (Ht : byte_at (f_data f) 0 = PACKET_TYPE_DATA)
    by (frame_cases (f_data f); assumption).
  assert (Hl2 : (2 <= length (f_data g))%nat) by (frame_cases (f_data g); assumption).
  assert (Ht2 : byte_at (f_data g) 0 = PACKET_TYPE_END)
    by (frame_cases (f_data g); assumption).
  set (entry := session_at_loop_entry env start) in *.
  set (s2 := notification_handler start (notification_handler start entry f) g).
  assert (Hw : wait_loop start (start_time env) (events env) entry
               = Exited ExitComplete s2 rest).
  { rewrite Hev. cbn [wait_loop]. fold s2. unfold poll.
    assert (Htc : transfer_complete s2 = true)
      by (unfold s2; rewrite handler_end by assumption; reflexivity).
    rewrite Htc. reflexivity. }
  assert (Hrecs : received_records s2
                  = parse_records (f_data f) start (f_wall f) (total st - start)
                      (Z.to_nat (total st - start)) 0 5).
  { unfold s2. rewrite handler_end by assumption. cbn zeta. cbn [received_records].
    rewrite handler_data by assumption. cbn zeta. cbn [received_records].
    rewrite Hcount. unfold entry, session_at_loop_entry. rewrite Hearly. reflexivity. }
  assert (Hn : length (received_records s2) = Z.to_nat (total st - start)).
  { rewrite Hrecs. apply parse_records_full. lia. }
  assert (Hseq : map seq (received_records s2)
                 = map (fun j => start + Z.of_nat j)
                     (List.seq 0 (Z.to_nat (total st - start)))).
  { rewrite <- Hn at 1. rewrite Hrecs at 1. rewrite parse_records_seq.
    rewrite <- Hrecs. reflexivity. }
  assert (Hlt : 0 < total st - start) by exact Hpos.
  rewrite (Hfinished ExitComplete s2 rest Hlt Hw). cbn zeta.
  rewrite Hlate. cbn [deliver fold_left].
  unfold committed_records. cbn [terminal session result control_writes db_after].
  destruct (received_records s2) as [| r0 recs'] eqn:Er.
  { cbn [length] in Hn. lia. }
  assert (Hlast : last_synced_seq
                    (get_sync_state
                       (snd (store_received db m (r0 :: recs') (insert_now env)
                               (update_now env))) m)
                  = total st - 1).
  { rewrite store_received_last. cbn [last_synced_seq].
    pose proof (seq_numbers_last start (Z.to_nat (total st - start))
                  (seq (max_by_seq r0 recs'))) as Hx.
    rewrite <- Hseq in Hx. rewrite Hx; [lia | |].
    - apply in_map. apply max_by_seq_in.
    - apply Forall_map. apply max_by_seq_max. }
  split; [reflexivity |]. split; [reflexivity |].
  split; [reflexivity |]. split; [exact Hseq |]. split; [exact Hlast |].
  intros env' Haddr Hc' Hst'.
  apply (download_data_synced env' _ st Hc' Hst').
  rewrite resume_point_eq. cbn [snd]. rewrite Haddr, Hlast. lia.
Qed.

Lemma single_frame_transfer_synchronises_witness :
  let o := download_data Samples.full_env Samples.empty_db in
  let start := Z.max (last_synced_seq (get_sync_state Samples.empty_db "AA:BB")) (-1) + 1 in
  terminal o = Finished ExitComplete /\
  result o = Some true /\
  control_writes o = [start_cmd start] /\
  map seq (committed_records o)
  = map (fun j => start + Z.of_nat j) (List.seq 0 (Z.to_nat (2 - start))) /\
  last_synced_seq (get_sync_state (db_after o) "AA:BB") = 2 - 1 /\
  (forall env',
      device_address env' = "AA:BB"%string -> chars_found env' = true ->
      get_storage_status env' = Some (mkStatus 2 0) ->
      download_data env' (db_after o)
      = mkOutcome (Some true) AlreadySynced (db_after o) [] None None).
Proof.
  apply (single_frame_transfer_synchronises Samples.full_env Samples.empty_db
           (mkStatus 2 0)
           (Samples.frame_at 1%float Samples.two_records)
           (Samples.frame_at 1.25%float Samples.end_frame) 1.5%float []).
  - reflexivity.
  - reflexivity.
  - reflexivity.
  - reflexivity.
  - reflexivity.
  - reflexivity.
  - vm_compute. reflexivity.
  - reflexivity.
  - vm_compute. discriminate.
  - reflexivity.
Defined.

(** ** The sync states the program persists *)

Lemma store_received_other_device (db : DB) (m m' : string) (recs : list SensorRecord)
  (now1 now2 : Z) :
  m' <> m ->
  get_sync_state (snd (store_received db m recs now1 now2)) m' = get_sync_state db m'.
Proof.
  intros Hne. destruct recs as [| r0 rest]; [reflexivity |].
  rewrite store_received_cons. cbn [snd].
  unfold get_sync_state, update_sync_state. cbn [sync_state].
  rewrite find_other_device by auto.
  destruct (insert_records_table m (-50) now1 db (r0 :: rest)) as [_ [Hs _]].
  rewrite Hs. reflexivity.
Qed.

(** A download touches the sync state of its own device only. *)
Lemma download_data_other_device (env : Env) (db : DB) (m' : string) :
  m' <> device_address env ->
  get_sync_state (db_after (download_data env db)) m' = get_sync_state db m'.
Proof.
  intros Hne.
  destruct (download_data_cases env db)
    as [[_ [Hdb _]] | [[s [_ [_ [Hdb _]]]] | [e [s3 [rest [st [_ [_ [_ [_ Hfin]]]]]]]]]].
  - rewrite Hdb. reflexivity.
  - rewrite Hdb. reflexivity.
  - cbn zeta in Hfin. destruct Hfin as [_ [Hdb _]]. rewrite Hdb.
    apply store_received_other_device. exact Hne.
Qed.

(** No persisted sequence number is below -1: a device without a row reads
    as -1, and a download never lowers what it found. *)
Lemma persisted_floor (db : DB) :
  persisted db -> forall m, -1 <= last_synced_seq (get_sync_state db m).
Proof.
  induction 1 as [rows n | env db Hp IH]; intros m.
  - unfold get_sync_state. cbn. lia.
  - destruct (string_dec m (device_address env)) as [-> | Hne].
    + pose proof (download_data_advances env db). specialize (IH (device_address env)). lia.
    + rewrite download_data_other_device by exact Hne. apply IH.
Qed.

(** C2. For every sync state the program has persisted (the default of a
    device never synchronised included), with [last_synced_seq = S] and
    device-reported total [T], the resume computation of [download_data]
    yields [start_index = S + 1] and [to_download = T - S - 1]. When
    [to_download <= 0] the session returns success, the database is the one
    it was given and nothing is written to the device; otherwise the START
    command carries [S + 1]. *)
Theorem resume_point_of_persisted_state (env : Env) (db : DB) (st : Status) :
  persisted db ->
  chars_found env = true ->
  get_storage_status env = Some st ->
  let S := last_synced_seq (get_sync_state db (device_address env)) in
  let T := total st in
  resume_point (get_sync_state db (device_address env)) T = (S + 1, T - S - 1) /\
  (T - S - 1 <= 0 ->
   download_data env db = mkOutcome (Some true) AlreadySynced db [] None None) /\
  (0 < T - S - 1 ->
   hd_error (control_writes (download_data env db)) = Some (start_cmd (S + 1))).
Proof.
  intros Hp Hc Hs. cbn zeta.
  pose proof (persisted_floor db Hp (device_address env)) as Hfloor.
  destruct (resume_point_clamped env db st Hc Hs) as [_ [_ [Hrp [Hsync Hstart]]]].
  destruct (Hrp Hfloor) as [Hfst Hsnd].
  rewrite Hfst, Hsnd in *.
  split.
  - destruct (resume_point (get_sync_state db (device_address env)) (total st)) as [a b].
    cbn [fst snd] in *. congruence.
  - split; assumption.
Qed.

Lemma resume_point_of_persisted_state_witness :
  let db := db_after (download_data Samples.full_env Samples.empty_db) in
  let S := last_synced_seq (get_sync_state db (device_address Samples.full_env)) in
  let T := total (mkStatus 2 0) in
  resume_point (get_sync_state db (device_address Samples.full_env)) T = (S + 1, T - S - 1) /\
  (T - S - 1 <= 0 ->
   download_data Samples.full_env db = mkOutcome (Some true) AlreadySynced db [] None None) /\
  (0 < T - S - 1 ->
   hd_error (control_writes (download_data Samples.full_env db)) = Some (start_cmd (S + 1))).
Proof.
  apply (resume_point_of_persisted_state Samples.full_env
           (db_after (download_data Samples.full_env Samples.empty_db)) (mkStatus 2 0)).
  - apply persisted_download. apply (persisted_new [] 0).
  - reflexivity.
  - reflexivity.
Defined.

(** ** Idle completion and the rows written *)

(** C4 (evaluation at the failing input). A device never synchronised sends
    three DATA frames of one record each and then nothing; the loop wakes up
    four seconds after the last frame. The session ends [Complete] through
    the idle exit, no STOP is written and three records are in the batch
    handed to the store, but all three carry [seq = 0] and one row is
    written: two of the three records received are not stored. *)
Theorem idle_completion_stores_one_row_of_three :
  let o := download_data Samples.three_frames_env Samples.empty_db in
  terminal o = Finished ExitIdle /\
  state_of_exit ExitIdle = Complete /\
  control_writes o = [start_cmd 0] /\
  result o = Some true /\
  option_map (fun s => map seq (received_records s)) (session o) = Some [0; 0; 0] /\
  map r_seq (records (db_after o)) = [0] /\
  length (records (db_after o)) = 1%nat.
Proof. cbv zeta. repeat split; vm_compute; reflexivity. Qed.

(** An ignored insert still uses up an [id]: two new rows, two conflicts and
    one more new row give the ids 1, 2 and 5. *)
Example ignored_inserts_use_ids :
  map id (records (snd (insert_records Samples.empty_db "AA:BB"
                          [Samples.sample 0; Samples.sample 1; Samples.sample 0;
                           Samples.sample 1; Samples.sample 2] (-50) 100)))
  = [1; 2; 5].
Proof. vm_compute. reflexivity. Qed.

(** ** Frames that keep the session alive *)

Section KeepAlive.

Variables (start_seq : Z) (start_time : float).

Lemma kept_alive_after_frame (s : Session) (f : Frame) (evs : list Event) :
  kept_alive (last_packet_time s) (Notify f :: evs) = true ->
  kept_alive (last_packet_time (notification_handler start_seq s f)) evs = true.
Proof.
  cbn [kept_alive]. intros Hk.
  destruct (Nat.eqb_spec (length (f_data f)) 0) as [H0 | Hn0].
  - rewrite handler_empty; [exact Hk |].
    destruct (f_data f); [reflexivity | discriminate].
  - rewrite handler_last_packet_time; [exact Hk |].
    intros E. rewrite E in Hn0. now apply Hn0.
Qed.

Lemma flag_after_frame (s : Session) (f : Frame) (evs : list Event) :
  transfer_complete s = false ->
  no_completion (Notify f :: evs) = true ->
  transfer_complete (notification_handler start_seq s f) = false /\
  no_completion evs = true.
Proof.
  intros Ht Hn. cbn [no_completion forallb] in Hn. apply andb_true_iff in Hn.
  destruct Hn as [Hev Hn]. split; [| exact Hn].
  rewrite handler_keeps_flag; [exact Ht |].
  destruct (completes (f_data f)); [discriminate | reflexivity].
Qed.

(** Before the first wake-up past the hard timeout the loop is still
    waiting, having handed every frame to the handler. *)
Lemma kept_alive_waiting (evs : list Event) (s : Session) :
  transfer_complete s = false ->
  kept_alive (last_packet_time s) evs = true ->
  no_completion evs = true ->
  past_timeout start_time evs = false ->
  wait_loop start_seq start_time evs s = Waiting (deliver start_seq s (frames_of evs)).
Proof.
  revert s. induction evs as [| ev evs IH]; intros s Ht Hk Hn Hp; [reflexivity |].
  destruct ev as [f | now].
  - destruct (flag_after_frame s f evs Ht Hn) as [Ht' Hn'].
    cbn [wait_loop frames_of flat_map app]. fold (frames_of evs).
    cbn [deliver fold_left]. fold (deliver start_seq (notification_handler start_seq s f)
                                     (frames_of evs)).
    apply IH; auto. apply kept_alive_after_frame. exact Hk.
  - cbn [kept_alive] in Hk. apply andb_true_iff in Hk. destruct Hk as [Hfresh Hk].
    apply negb_true_iff in Hfresh.
    cbn [no_completion forallb] in Hn. cbn [andb] in Hn.
    cbn [past_timeout existsb] in Hp. apply orb_false_iff in Hp. destruct Hp as [Hto Hp].
    cbn [wait_loop frames_of flat_map app]. fold (frames_of evs).
    unfold poll. rewrite Ht, Hfresh, Hto. cbn [andb].
    apply IH; assumption.
Qed.

(** The loop is left at the first wake-up past the hard timeout, by the
    hard timeout, in the state the frames before it produced. *)
Lemma kept_alive_first_timeout (pre : list Event) (now : float) (rest : list Event)
  (s : Session) :
  transfer_complete s = false ->
  kept_alive (last_packet_time s) (pre ++ Wake now :: rest) = true ->
  no_completion (pre ++ Wake now :: rest) = true ->
  past_timeout start_time pre = false ->
  PrimFloat.ltb timeout (PrimFloat.sub now start_time) = true ->
  wait_loop start_seq start_time (pre ++ Wake now :: rest) s
  = Exited ExitTimeout (deliver start_seq s (frames_of pre)) rest.
Proof.
  revert s. induction pre as [| ev pre IH]; intros s Ht Hk Hn Hp Hto.
  - cbn [app wait_loop frames_of flat_map deliver fold_left].
    cbn [app kept_alive] in Hk. apply andb_true_iff in Hk. destruct Hk as [Hfresh _].
    apply negb_true_iff in Hfresh.
    unfold poll. rewrite Ht, Hfresh, Hto. reflexivity.
  - destruct ev as [f | now0]; cbn [app] in *.
    + destruct (flag_after_frame s f _ Ht Hn) as [Ht' Hn'].
      cbn [wait_loop frames_of flat_map app]. fold (frames_of pre).
      cbn [deliver fold_left]. fold (deliver start_seq (notification_handler start_seq s f)
                                       (frames_of pre)).
      apply IH; auto. apply kept_alive_after_frame. exact Hk.
    + cbn [kept_alive] in Hk. apply andb_true_iff in Hk. destruct Hk as [Hfresh Hk].
      apply negb_true_iff in Hfresh.
      cbn [no_completion forallb] in Hn. cbn [andb] in Hn.
      cbn [past_timeout existsb] in Hp. apply orb_false_iff in Hp.
      destruct Hp as [Hto0 Hp].
      cbn [wait_loop frames_of flat_map app]. fold (frames_of pre).
      unfold poll. rewrite Ht, Hfresh, Hto0. cbn [andb].
      apply IH; assumption.
Qed.

End KeepAlive.

(** C10. The handler stores the clock in [last_packet_time] for every frame
    that is not empty, before looking at its type, and returns at once,
    changing nothing, for an empty frame. So, from a session that is not yet
    complete (whether or not it has received data), along a trace in which
    no frame is an END frame of two bytes or more and every wake-up of the
    loop comes at most [idle_timeout] seconds after the latest non-empty
    frame (of any type, decodable or not): the loop is never left through
    the idle exit; as long as no wake-up is later than [timeout] seconds
    after the start it is still waiting, with every frame handed to the
    handler; and it is left at the first wake-up that is later, by the hard
    timeout. *)
Theorem every_nonempty_frame_resets_idle_reference
  (start_seq : Z) (start_time : float) (s : Session) (evs : list Event) :
  transfer_complete s = false ->
  kept_alive (last_packet_time s) evs = true ->
  no_completion evs = true ->
  (forall s0 f, f_data f <> [] ->
                last_packet_time (notification_handler start_seq s0 f) = f_now f) /\
  (forall s0 f, f_data f = [] -> notification_handler start_seq s0 f = s0) /\
  (forall e s' rest,
      wait_loop start_seq start_time evs s = Exited e s' rest -> e = ExitTimeout) /\
  (past_timeout start_time evs = true ->
   exists s' rest, wait_loop start_seq start_time evs s = Exited ExitTimeout s' rest) /\
  (past_timeout start_time evs = false ->
   wait_loop start_seq start_time evs s
   = Waiting (deliver start_seq s (frames_of evs))) /\
  (forall pre now rest,
      evs = pre ++ Wake now :: rest ->
      past_timeout start_time pre = false ->
      PrimFloat.ltb timeout (PrimFloat.sub now start_time) = true ->
      wait_loop start_seq start_time evs s
      = Exited ExitTimeout (deliver start_seq s (frames_of pre)) rest).
Proof.
  intros Ht Hk Hn.
  split; [intros s0 f; apply handler_last_packet_time |].
  split; [intros s0 f; apply handler_empty |].
  split; [apply kept_alive_exit; assumption |].
  split; [apply kept_alive_times_out; assumption |].
  split; [apply kept_alive_waiting; assumption |].
  intros pre now rest -> Hp Hto. apply kept_alive_first_timeout; assumption.
Qed.

Lemma every_nonempty_frame_resets_idle_reference_witness :
  (forall s0 f, f_data f <> [] ->
                last_packet_time (notification_handler 0 s0 f) = f_now f) /\
  (forall s0 f, f_data f = [] -> notification_handler 0 s0 f = s0) /\
  (forall e s' rest,
      wait_loop 0 0%float Samples.keepalive Samples.receiving = Exited e s' rest ->
      e = ExitTimeout) /\
  (past_timeout 0%float Samples.keepalive = true ->
   exists s' rest,
     wait_loop 0 0%float Samples.keepalive Samples.receiving
     = Exited ExitTimeout s' rest) /\
  (past_timeout 0%float Samples.keepalive = false ->
   wait_loop 0 0%float Samples.keepalive Samples.receiving
   = Waiting (deliver 0 Samples.receiving (frames_of Samples.keepalive))) /\
  (forall pre now rest,
      Samples.keepalive = pre ++ Wake now :: rest ->
      past_timeout 0%float pre = false ->
      PrimFloat.ltb timeout (PrimFloat.sub now 0%float) = true ->
      wait_loop 0 0%float Samples.keepalive Samples.receiving
      = Exited ExitTimeout (deliver 0 Samples.receiving (frames_of pre)) rest).
Proof.
  apply (every_nonempty_frame_resets_idle_reference 0 0%float Samples.receiving
           Samples.keepalive).
  - reflexivity.
  - vm_compute. reflexivity.
  - vm_compute. reflexivity.
Defined.

(** The session of the witness has received data, so only the frames keep it
    from the idle exit: with the same wake-ups and no frame the loop is left
    at the second one, by the idle exit; with the frames it is left at the
    last one, after 22 seconds, by the hard timeout. *)
Example silence_ends_idle_frames_defer :
  (0 <? data_packets (transfer_stats Samples.receiving)) = true /\
  (exists s', wait_loop 0 0%float Samples.silence Samples.receiving
              = Exited ExitIdle s' [Wake 8%float]) /\
  (exists s', wait_loop 0 0%float Samples.keepalive Samples.receiving
              = Exited ExitTimeout s' []).
Proof.
  split; [reflexivity |]. split; eexists; vm_compute; reflexivity.
Qed.
